(** * comdirect_client: the authentication state machine and the refresh scheduler

    A shallow embedding of [src/comdirect_client/client.py].  Every method of
    [ComdirectClient] that the properties below talk about is a function in a
    state-and-exception monad over the client object; what the outside world
    answers (HTTP replies, clock readings, the JSON parser) is an argument.

    Conventions
    - time is an integer number of microseconds (the resolution of
      [datetime]); [second] is the unit conversion;
    - a value that came out of [response.json()] is a [json_value]; Python's
      [None] is [JNull], and JSON numbers are integers;
    - exceptions are the members of Python's [Exception] hierarchy that the
      code names or that the modelled operations raise;
    - [asyncio.CancelledError] is not one of them: it derives from
      [BaseException], so that no [except Exception] clause and none of
      the [httpx] clauses catches it.  A coroutine that is cancelled while
      it waits, for an HTTP reply or in [asyncio.sleep], ends with the
      outcome [Cancelled], which only the [except asyncio.CancelledError]
      clause of the scheduler loop handles;
    - [asyncio.create_task] needs a running event loop: whether one is
      running is an argument of the synchronous code that reaches it;
    - request headers and the session / request identifiers are not part of
      the state: no modelled decision reads them;
    - logging is not modelled. *)

From Stdlib Require Import ZArith Lia String List Bool.
From stdpp Require Import base list strings numbers.
Import ListNotations.

Open Scope string_scope.
Open Scope list_scope.
Open Scope Z_scope.

(** ** Python values *)

#[warnings="-register-all"]
Inductive json_value :=
| JNull
| JBool (b : bool)
| JNum (n : Z)
| JStr (s : string)
| JArr (items : list json_value)
| JObj (members : list (string * json_value)).

(** [bool(v)]: the truth value Python gives [v] in [if v] / [not v]. *)
Definition truthy (v : json_value) : bool :=
  match v with
  | JNull => false
  | JBool b => b
  | JNum n => negb (n =? 0)
  | JStr s => negb (String.eqb s "")
  | JArr items => match items with [] => false | _ => true end
  | JObj members => match members with [] => false | _ => true end
  end.

(** [v is not None] *)
Definition is_not_None (v : json_value) : bool :=
  match v with JNull => false | _ => true end.

(** [v == s] for a string literal [s] *)
Definition eq_str (v : json_value) (s : string) : bool :=
  match v with JStr t => String.eqb t s | _ => false end.

Fixpoint assoc (k : string) (members : list (string * json_value)) : option json_value :=
  match members with
  | [] => None
  | (k', v) :: rest => if String.eqb k' k then Some v else assoc k rest
  end.

(** ** Exceptions *)

Inductive exn_class :=
| AuthenticationError | TANTimeoutError | SessionActivationError
| NetworkTimeoutError | TokenStorageError | RuntimeError
| TimeoutException | HTTPStatusError   (* httpx *)
| HTTPError                            (* bravado *)
| KeyError | TypeError | AttributeError | IndexError | JSONDecodeError | OverflowError
| OtherException.

(** An exception object: its class, the literal part of its message, the
    HTTP status it carries (for the two HTTP error classes) and the
    exception it was raised [from]. *)
#[warnings="-register-all"]
Inductive exn :=
| Exn (cls : exn_class) (message : string) (status : option Z) (cause : option exn).

Definition class_of (e : exn) : exn_class := match e with Exn c _ _ _ => c end.
Definition status_of (e : exn) : option Z := match e with Exn _ _ s _ => s end.

#[global] Instance exn_class_eq_dec : EqDecision exn_class.
Proof. solve_decision. Defined.

Definition is_a (e : exn) (c : exn_class) : bool := bool_decide (class_of e = c).

Definition error (c : exn_class) (message : string) : exn := Exn c message None None.
Definition error_from (c : exn_class) (message : string) (e : exn) : exn :=
  Exn c message None (Some e).

(** How a call ends: it returns, it raises an exception of the
    [Exception] hierarchy, or, for a coroutine, it is cancelled in an
    [await] and [asyncio.CancelledError] propagates. *)
Inductive outcome (A : Type) :=
| Returns (a : A)
| Raises (e : exn)
| Cancelled.
Arguments Returns {A} a.
Arguments Raises {A} e.
Arguments Cancelled {A}.

(** [d[k]] *)
Definition subscript (d : json_value) (k : string) : outcome json_value :=
  match d with
  | JObj members =>
      match assoc k members with
      | Some v => Returns v
      | None => Raises (error KeyError k)
      end
  | _ => Raises (error TypeError "not subscriptable by a string")
  end.

(** [d.get(k)] *)
Definition dict_get (d : json_value) (k : string) : outcome json_value :=
  match d with
  | JObj members =>
      match assoc k members with
      | Some v => Returns v
      | None => Returns JNull
      end
  | _ => Raises (error AttributeError "get")
  end.

(** ** Time *)

Definition second : Z := 1000000.

(** [timedelta(seconds=v)]: an [int] (or a [bool]) within the range of
    [timedelta], in microseconds. *)
Definition timedelta_max : Z := (999999999 * 86400 + 86399) * second + 999999.
Definition timedelta_min : Z := - (999999999 * 86400) * second.

Definition timedelta_seconds (v : json_value) : outcome Z :=
  let of_int n :=
    if (timedelta_min <=? n * second) && (n * second <=? timedelta_max)
    then Returns (n * second)
    else Raises (error OverflowError "timedelta") in
  match v with
  | JNum n => of_int n
  | JBool b => of_int (if b then 1 else 0)
  | _ => Raises (error TypeError "unsupported type for timedelta seconds component")
  end.

(** [datetime + timedelta] on UTC datetimes, as microseconds since the
    epoch: years 1 to 9999. *)
Definition datetime_min : Z := -62135596800 * second.
Definition datetime_max : Z := 253402300799 * second + 999999.

Definition datetime_add (t d : Z) : outcome Z :=
  if (datetime_min <=? t + d) && (t + d <=? datetime_max)
  then Returns (t + d)
  else Raises (error OverflowError "date value out of range").

(** ** What the outside world answers *)

(** An [httpx.Response], as far as the code looks at it. *)
Record Response := {
  status_code : Z;
  json : outcome json_value            (* [response.json()] *)
}.

(** The result of awaiting an [httpx] request: a response, an exception
    of the transport, or the cancellation of the waiting task. *)
Inductive httpx_outcome :=
| HttpxResponse (r : Response)
| HttpxRaises (e : exn)
| HttpxCancelled.

(** [httpx.Response.is_success] and [raise_for_status()]. *)
Definition is_success (r : Response) : bool :=
  (200 <=? status_code r) && (status_code r <? 300).

Definition raise_for_status (r : Response) : outcome unit :=
  if is_success r then Returns tt
  else Raises (Exn HTTPStatusError "" (Some (status_code r)) None).

(** The result of [http_future.result()] of a Bravado operation. *)
Inductive bravado_outcome (A : Type) :=
| BravadoReturns (a : A)
| BravadoRaises (e : exn).
Arguments BravadoReturns {A} a.
Arguments BravadoRaises {A} e.

(** A session model object of the generated bindings. *)
Record Session := { identifier : json_value }.

(** The raw response of the TAN-challenge call: header lookup and body. *)
Record RawResponse := {
  headers_get : string -> option string;
  body : json_value
}.

(** What a registered observer does when it is called. *)
Inductive callback_result :=
| CallbackReturns
| CallbackRaises (e : exn).

(** ** Observable events, in the order the client produces them *)

Inductive event :=
| EvSleep (duration : Z)                       (* [await asyncio.sleep], microseconds *)
| EvPost (grant_type : string)                 (* POST {base_url}/oauth/token *)
| EvGet (url : json_value)                     (* GET {base_url}{poll_url} *)
| EvBravado (operation_id : string)
| EvTanStatus (status : string) (data : list (string * json_value))
| EvReauth (reason : string).

(** Tasks of the event loop. [cancel()] only requests the cancellation; the
    task is [done()] once the loop has delivered it or the coroutine has
    returned. *)
Inductive task_state := Pending | Cancelling | Finished.

#[global] Instance task_state_eq_dec : EqDecision task_state.
Proof. solve_decision. Defined.

Definition done (t : task_state) : bool :=
  match t with Finished => true | _ => false end.

(** ** The persisted token file *)

(** Modelled from the spec: [token_storage.py] is not among the sources.
    The file is absent, holds one stored triple, or holds something
    [load_tokens] rejects.  Without a configured path saving and loading do
    nothing; a failed write raises [TokenStorageError] and leaves the file
    as it was; loading does not look at the expiry. *)
Inductive token_file :=
| Absent
| Stored (access refresh : json_value) (expiry : Z)
| Malformed (why : string).

Record TokenPersistence := {
  storage_path : option string;
  writable : bool;
  file : token_file
}.

Definition save_tokens (access refresh : json_value) (expiry : Z)
    (s : TokenPersistence) : outcome unit * TokenPersistence :=
  match storage_path s with
  | None => (Returns tt, s)
  | Some p =>
      if writable s
      then (Returns tt, {| storage_path := Some p; writable := true;
                           file := Stored access refresh expiry |})
      else (Raises (error TokenStorageError "Failed to save tokens"), s)
  end.

Definition load_tokens (s : TokenPersistence)
    : outcome (option (json_value * json_value * Z)) :=
  match storage_path s with
  | None => Returns None
  | Some _ =>
      match file s with
      | Absent => Returns None
      | Stored a r e => Returns (Some (a, r, e))
      | Malformed why => Raises (error TokenStorageError why)
      end
  end.

(** ** The client object *)

Inductive SwaggerClient := BravadoClient.

Record ComdirectClient := {
  reauth_callback : option (string -> callback_result);
  tan_status_callback :
    option (string -> list (string * json_value) -> callback_result);
  token_refresh_threshold : Z;
  _token_storage : TokenPersistence;
  _access_token : json_value;
  _refresh_token : json_value;
  _token_expiry : option Z;
  _refresh_task : option nat;
  _bravado_client : option SwaggerClient;
  (* the surroundings the methods act on *)
  tasks : list task_state;
  trace : list event
}.

Definition set_tokens (a r : json_value) (e : option Z) (c : ComdirectClient) :=
  {| reauth_callback := reauth_callback c;
     tan_status_callback := tan_status_callback c;
     token_refresh_threshold := token_refresh_threshold c;
     _token_storage := _token_storage c;
     _access_token := a; _refresh_token := r; _token_expiry := e;
     _refresh_task := _refresh_task c;
     _bravado_client := _bravado_client c;
     tasks := tasks c; trace := trace c |}.

Definition set_storage (s : TokenPersistence) (c : ComdirectClient) :=
  {| reauth_callback := reauth_callback c;
     tan_status_callback := tan_status_callback c;
     token_refresh_threshold := token_refresh_threshold c;
     _token_storage := s;
     _access_token := _access_token c; _refresh_token := _refresh_token c;
     _token_expiry := _token_expiry c;
     _refresh_task := _refresh_task c;
     _bravado_client := _bravado_client c;
     tasks := tasks c; trace := trace c |}.

Definition set_tasks (ref : option nat) (ts : list task_state) (c : ComdirectClient) :=
  {| reauth_callback := reauth_callback c;
     tan_status_callback := tan_status_callback c;
     token_refresh_threshold := token_refresh_threshold c;
     _token_storage := _token_storage c;
     _access_token := _access_token c; _refresh_token := _refresh_token c;
     _token_expiry := _token_expiry c;
     _refresh_task := ref;
     _bravado_client := _bravado_client c;
     tasks := ts; trace := trace c |}.

Definition set_bravado (b : option SwaggerClient) (c : ComdirectClient) :=
  {| reauth_callback := reauth_callback c;
     tan_status_callback := tan_status_callback c;
     token_refresh_threshold := token_refresh_threshold c;
     _token_storage := _token_storage c;
     _access_token := _access_token c; _refresh_token := _refresh_token c;
     _token_expiry := _token_expiry c;
     _refresh_task := _refresh_task c;
     _bravado_client := b;
     tasks := tasks c; trace := trace c |}.

Definition set_trace (t : list event) (c : ComdirectClient) :=
  {| reauth_callback := reauth_callback c;
     tan_status_callback := tan_status_callback c;
     token_refresh_threshold := token_refresh_threshold c;
     _token_storage := _token_storage c;
     _access_token := _access_token c; _refresh_token := _refresh_token c;
     _token_expiry := _token_expiry c;
     _refresh_task := _refresh_task c;
     _bravado_client := _bravado_client c;
     tasks := tasks c; trace := t |}.

Definition set_callbacks
    (r : option (string -> callback_result))
    (t : option (string -> list (string * json_value) -> callback_result))
    (c : ComdirectClient) :=
  {| reauth_callback := r;
     tan_status_callback := t;
     token_refresh_threshold := token_refresh_threshold c;
     _token_storage := _token_storage c;
     _access_token := _access_token c; _refresh_token := _refresh_token c;
     _token_expiry := _token_expiry c;
     _refresh_task := _refresh_task c;
     _bravado_client := _bravado_client c;
     tasks := tasks c; trace := trace c |}.

(** ** The monad: state, exceptions, cancellation, and running out of fuel

    A computation maps the client before to the client after together with
    a return value, a raised exception or a cancellation (Python keeps
    every assignment made before a [raise]).  [None] means the fuel given
    to a [while] loop ran out before the loop was left. *)

Definition M (A : Type) : Type := ComdirectClient -> option (outcome A * ComdirectClient).

Definition ret {A} (a : A) : M A := fun c => Some (Returns a, c).
Definition raise {A} (e : exn) : M A := fun c => Some (Raises e, c).
Definition cancelled {A} : M A := fun c => Some (Cancelled, c).
Definition out_of_fuel {A} : M A := fun _ => None.

Definition bind {A B} (m : M A) (k : A -> M B) : M B :=
  fun c =>
    match m c with
    | None => None
    | Some (Returns a, c') => k a c'
    | Some (Raises e, c') => Some (Raises e, c')
    | Some (Cancelled, c') => Some (Cancelled, c')
    end.

Notation "x <- m ;; k" := (bind m (fun x => k))
  (at level 62, m at next level, right associativity).
Notation "m ;;; k" := (bind m (fun _ => k))
  (at level 62, right associativity).

(** [try: m except ...: h]: [handler e] is [Some h] when one of the
    [except] clauses matches [e].  The clauses name classes of the
    [Exception] hierarchy ([except Exception] at most), so a cancellation
    passes through. *)
Definition try_except {A} (m : M A) (handler : exn -> option (M A)) : M A :=
  fun c =>
    match m c with
    | None => None
    | Some (Returns a, c') => Some (Returns a, c')
    | Some (Raises e, c') =>
        match handler e with
        | Some h => h c'
        | None => Some (Raises e, c')
        end
    | Some (Cancelled, c') => Some (Cancelled, c')
    end.

(** [try: m except asyncio.CancelledError: on_cancel except ...: h] *)
Definition try_except_cancelled {A} (m : M A) (on_cancel : M A)
    (handler : exn -> option (M A)) : M A :=
  fun c =>
    match m c with
    | None => None
    | Some (Returns a, c') => Some (Returns a, c')
    | Some (Raises e, c') =>
        match handler e with
        | Some h => h c'
        | None => Some (Raises e, c')
        end
    | Some (Cancelled, c') => on_cancel c'
    end.

Definition lift {A} (o : outcome A) : M A :=
  match o with Returns a => ret a | Raises e => raise e | Cancelled => cancelled end.

Definition get : M ComdirectClient := fun c => Some (Returns c, c).
Definition modify (f : ComdirectClient -> ComdirectClient) : M unit :=
  fun c => Some (Returns tt, f c).
Definition emit (e : event) : M unit :=
  modify (fun c => set_trace (trace c ++ [e]) c).

(** Awaiting an [httpx] request: the request goes out, then the reply
    comes back, the transport raises, or the task is cancelled while it
    waits. *)
Definition await_httpx (request : event) (reply : httpx_outcome) : M Response :=
  emit request ;;;
  match reply with
  | HttpxResponse r => ret r
  | HttpxRaises e => raise e
  | HttpxCancelled => cancelled
  end.

(** The result of a Bravado operation is taken synchronously
    ([http_future.result()]): no cancellation is delivered there. *)

Definition await_bravado {A} (operation_id : string) (reply : bravado_outcome A) : M A :=
  emit (EvBravado operation_id) ;;;
  match reply with
  | BravadoReturns a => ret a
  | BravadoRaises e => raise e
  end.

Definition sleep (duration : Z) : M unit := emit (EvSleep duration).

(** [await asyncio.sleep(duration)] in a task that may be cancelled while
    it sleeps; [cancel] tells whether it is. *)
Definition await_sleep (duration : Z) (cancel : bool) : M unit :=
  sleep duration ;;; if cancel then cancelled else ret tt.

Definition gets {A} (f : ComdirectClient -> A) : M A := fun c => Some (Returns (f c), c).

(** ** The callback dispatcher and token housekeeping *)

(** Calling a registered observer. *)
Definition call (r : callback_result) : M unit :=
  match r with
  | CallbackReturns => ret tt
  | CallbackRaises e => raise e
  end.

(** [_invoke_tan_status_callback].  The [EvTanStatus] event records that
    the notification was handed to the dispatcher; it reaches the observer
    when one is registered. *)
Definition _invoke_tan_status_callback
    (status : string) (data : list (string * json_value)) : M unit :=
  emit (EvTanStatus status data) ;;;
  cb <- gets tan_status_callback ;;
  match cb with
  | Some f => try_except (call (f status data)) (fun _ => Some (ret tt))
  | None => ret tt
  end.

(** [task.cancel()] on the task with the given index. *)
Definition cancel (id : nat) (ts : list task_state) : list task_state :=
  match ts !! id with
  | Some Pending => <[id := Cancelling]> ts
  | _ => ts
  end.

(** [if self._refresh_task and not self._refresh_task.done():
        self._refresh_task.cancel()] *)
Definition cancel_refresh_task (c : ComdirectClient) : ComdirectClient :=
  match _refresh_task c with
  | Some id =>
      match tasks c !! id with
      | Some t => if negb (done t) then set_tasks (Some id) (cancel id (tasks c)) c else c
      | None => c
      end
  | None => c
  end.

Definition _clear_tokens : M unit :=
  modify (set_tokens JNull JNull None) ;;;
  modify cancel_refresh_task.

Definition _invoke_reauth_callback (reason : string) : M unit :=
  _clear_tokens ;;;
  emit (EvReauth reason) ;;;
  cb <- gets reauth_callback ;;
  match cb with
  | Some f => try_except (call (f reason)) (fun _ => Some (ret tt))
  | None => ret tt
  end.

(** [self._refresh_task = asyncio.create_task(self._token_refresh_loop())]
    in a running event loop. *)
Definition create_task (c : ComdirectClient) : ComdirectClient :=
  set_tasks (Some (length (tasks c))) (tasks c ++ [Pending]) c.

(** [_start_refresh_task]; [running] tells whether the calling thread has
    a running event loop.  Without one [asyncio.create_task] raises
    [RuntimeError] and nothing is assigned to [_refresh_task]. *)
Definition _start_refresh_task (running : bool) : M unit :=
  modify cancel_refresh_task ;;;
  if running then modify create_task
  else raise (error RuntimeError "no running event loop").

Definition _save_tokens_to_storage : M unit :=
  c <- get ;;
  match _token_expiry c with
  | Some expiry =>
      if truthy (_access_token c) && truthy (_refresh_token c) then
        try_except
          (fun c0 =>
             let '(o, s) := save_tokens (_access_token c0) (_refresh_token c0) expiry
                              (_token_storage c0) in
             Some (o, set_storage s c0))
          (fun e => if is_a e TokenStorageError then Some (ret tt) else None)
      else ret tt
  | None => ret tt
  end.

Definition is_authenticated (c : ComdirectClient) : bool :=
  is_not_None (_access_token c) &&
  match _token_expiry c with Some _ => true | None => false end.

(** [_initialize_bravado_client]; [created] is what building the client
    from the bundled Swagger file gives. *)
Definition _initialize_bravado_client (created : outcome SwaggerClient) : M unit :=
  b <- gets _bravado_client ;;
  match b with
  | Some _ => ret tt
  | None =>
      client <- lift created ;;
      modify (set_bravado (Some client))
  end.

(** The [api] property. *)
Definition api (created : outcome SwaggerClient) : M (option SwaggerClient) :=
  authenticated <- gets is_authenticated ;;
  if negb authenticated then
    raise (error RuntimeError
             "Client not authenticated. Call authenticate() first before accessing API.")
  else
    b <- gets _bravado_client ;;
    (match b with
     | None => _initialize_bravado_client created
     | Some _ => ret tt
     end) ;;;
    gets _bravado_client.

(** ** The authentication steps *)

Definition _step1_password_credentials (reply : httpx_outcome) : M json_value :=
  try_except
    (response <- await_httpx (EvPost "password") reply ;;
     if status_code response =? 401 then
       raise (error AuthenticationError "Invalid credentials")
     else
       lift (raise_for_status response) ;;;
       data <- lift (json response) ;;
       access_token <- lift (subscript data "access_token") ;;
       ret access_token)
    (fun e =>
       if is_a e TimeoutException then
         Some (raise (error_from NetworkTimeoutError "Authentication request timed out" e))
       else if is_a e HTTPStatusError then
         Some (raise (error_from AuthenticationError "Authentication failed: " e))
       else None).

(** A failure to build the temporary Bravado client is a [BravadoRaises]
    reply: it happens inside the same [try]. *)
Definition _step2_session_status
    (reply : bravado_outcome (option (list Session))) (access_token : json_value)
    : M json_value :=
  try_except
    (sessions <- await_bravado "sessionV1GetSession" reply ;;
     match sessions with
     | None | Some [] => raise (error AuthenticationError "No session data returned")
     | Some (s :: _) => ret (identifier s)
     end)
    (fun e =>
       if is_a e HTTPError then
         if bool_decide (status_of e = Some 401) then
           Some (raise (error_from AuthenticationError
                          "Session retrieval failed: Invalid token" e))
         else
           Some (raise (error_from AuthenticationError "Session retrieval failed: " e))
       else
         Some (raise (error_from AuthenticationError "Session retrieval failed: " e))).

Section WithJsonLoads.

(** [json.loads] on a header value. *)
Variable json_loads : string -> outcome json_value.

Definition _step3_tan_challenge
    (reply : bravado_outcome RawResponse) (access_token session_uuid : json_value)
    : M (json_value * json_value * json_value) :=
  try_except
    (asyncio_response <- await_bravado "sessionV1PostSessionValidation" reply ;;
     match headers_get asyncio_response "x-once-authentication-info" with
     | None => raise (error AuthenticationError "Missing x-once-authentication-info header")
     | Some auth_info_header =>
         if String.eqb auth_info_header "" then
           raise (error AuthenticationError "Missing x-once-authentication-info header")
         else
           auth_info <- lift (json_loads auth_info_header) ;;
           challenge_id <- lift (subscript auth_info "id") ;;
           tan_type <- lift (subscript auth_info "typ") ;;
           link <- lift (subscript auth_info "link") ;;
           poll_url <- lift (subscript link "href") ;;
           _invoke_tan_status_callback "requested"
             [("tan_type", tan_type); ("challenge_id", challenge_id);
              ("timeout_seconds", JNum 60)] ;;;
           ret (challenge_id, tan_type, poll_url)
     end)
    (fun e =>
       if is_a e HTTPError then
         Some (raise (error_from AuthenticationError "TAN challenge creation failed: " e))
       else
         Some (raise (error_from AuthenticationError "TAN challenge creation failed: " e))).

(** The clock readings and poll replies of one run of step 4: the reading
    before the loop, and for the [i]-th pass through the loop the reading
    in the loop test, the reading after the sleep, and what the pass meets:
    the reply of its GET or, as [HttpxCancelled], the cancellation of the
    task that runs [authenticate()].  [cancelled_asleep i] tells where such
    a cancellation arrives: during the sleep of the pass, before its
    request is sent, or during the request. *)
Record poll_world := {
  start_time : Z;
  guard_time : nat -> Z;
  wake_time : nat -> Z;
  poll_reply : nat -> httpx_outcome;
  cancelled_asleep : nat -> bool
}.

(** Pass [i] ends cancelled in its sleep. *)
Definition asleep (w : poll_world) (i : nat) : bool :=
  match poll_reply w i with
  | HttpxCancelled => cancelled_asleep w i
  | _ => false
  end.

Definition timeout : Z := 60.
Definition poll_interval : Z := 1.

(** How one pass through a loop body ends. *)
Inductive flow := Continue | Leave.

(** One pass through the body of the polling loop. *)
Definition poll_once (w : poll_world) (i : nat)
    (access_token poll_url tan_type : json_value) : M flow :=
  await_sleep (poll_interval * second) (asleep w i) ;;;
  let elapsed := Z.quot (wake_time w i - start_time w) second in
  let remaining := timeout - elapsed in
  try_except
    (response <- await_httpx (EvGet poll_url) (poll_reply w i) ;;
     if status_code response =? 200 then
       data <- lift (json response) ;;
       status <- lift (dict_get data "status") ;;
       if eq_str status "AUTHENTICATED" then
         _invoke_tan_status_callback "approved"
           [("tan_type", tan_type); ("elapsed_seconds", JNum elapsed)] ;;;
         ret Leave
       else if eq_str status "PENDING" then
         (if (elapsed mod 10 =? 0) && (elapsed >? 0) then
            _invoke_tan_status_callback "pending"
              [("tan_type", tan_type); ("timeout_seconds", JNum timeout);
               ("elapsed_seconds", JNum elapsed); ("remaining_seconds", JNum remaining)]
          else ret tt) ;;;
         ret Continue
       else
         raise (error AuthenticationError "Unexpected TAN status: ")
     else
       ret Continue)
    (fun e => if is_a e TimeoutException then Some (ret Continue) else None).

Fixpoint poll_loop (fuel : nat) (w : poll_world) (i : nat)
    (access_token poll_url tan_type : json_value) : M unit :=
  match fuel with
  | O => out_of_fuel
  | S fuel' =>
      if guard_time w i - start_time w <? timeout * second then
        next <- poll_once w i access_token poll_url tan_type ;;
        match next with
        | Leave => ret tt
        | Continue => poll_loop fuel' w (S i) access_token poll_url tan_type
        end
      else
        _invoke_tan_status_callback "timeout"
          [("tan_type", tan_type); ("timeout_seconds", JNum timeout)] ;;;
        raise (error TANTimeoutError "TAN approval timed out after 60 seconds")
  end.

Definition _step4_poll_tan_approval (fuel : nat) (w : poll_world)
    (access_token poll_url tan_type : json_value) : M unit :=
  _invoke_tan_status_callback "pending"
    [("tan_type", tan_type); ("timeout_seconds", JNum timeout);
     ("elapsed_seconds", JNum 0)] ;;;
  poll_loop fuel w 0%nat access_token poll_url tan_type.

Definition _step4b_activate_session (reply : bravado_outcome unit)
    (access_token session_uuid challenge_id : json_value) : M unit :=
  try_except
    (await_bravado "sessionV1PatchSession" reply)
    (fun e =>
       if is_a e HTTPError then
         if bool_decide (status_of e = Some 422) then
           Some (raise (error_from SessionActivationError
                          "Session activation failed: incorrect header format" e))
         else
           Some (raise (error_from SessionActivationError "Session activation failed: " e))
       else
         Some (raise (error_from SessionActivationError "Session activation failed: " e))).

(** The assignments [self._access_token = ...] and so on. *)
Definition assign_access_token (v : json_value) : M unit :=
  modify (fun c => set_tokens v (_refresh_token c) (_token_expiry c) c).
Definition assign_refresh_token (v : json_value) : M unit :=
  modify (fun c => set_tokens (_access_token c) v (_token_expiry c) c).
Definition assign_token_expiry (t : Z) : M unit :=
  modify (fun c => set_tokens (_access_token c) (_refresh_token c) (Some t) c).

(** The part steps 5 and [refresh_token] share: take the token pair out of
    the response, [now] being the reading of [utc_now()]. *)
Definition store_token_response (response : Response) (now : Z) : M unit :=
  lift (raise_for_status response) ;;;
  data <- lift (json response) ;;
  access_token <- lift (subscript data "access_token") ;;
  assign_access_token access_token ;;;
  refresh_token <- lift (subscript data "refresh_token") ;;
  assign_refresh_token refresh_token ;;;
  expires_in <- lift (subscript data "expires_in") ;;
  delta <- lift (timedelta_seconds expires_in) ;;
  expiry <- lift (datetime_add now delta) ;;
  assign_token_expiry expiry ;;;
  _save_tokens_to_storage.

Definition _step5_secondary_token (reply : httpx_outcome) (now : Z)
    (initial_token : json_value) : M unit :=
  try_except
    (response <- await_httpx (EvPost "cd_secondary") reply ;;
     store_token_response response now)
    (fun e =>
       if is_a e TimeoutException then
         Some (raise (error_from NetworkTimeoutError "Token exchange timed out" e))
       else if is_a e HTTPStatusError then
         Some (raise (error_from AuthenticationError "Token exchange failed: " e))
       else None).

(** Everything the outside world answers during one [authenticate()]. *)
Record auth_world := {
  step1_reply : httpx_outcome;
  step2_reply : bravado_outcome (option (list Session));
  step3_reply : bravado_outcome RawResponse;
  polling : poll_world;
  step4b_reply : bravado_outcome unit;
  step5_reply : httpx_outcome;
  step5_now : Z
}.

(** The body of the [try] in [authenticate]. *)
Definition authenticate_steps (fuel : nat) (w : auth_world) : M unit :=
  initial_token <- _step1_password_credentials (step1_reply w) ;;
  session_uuid <- _step2_session_status (step2_reply w) initial_token ;;
  challenge <- _step3_tan_challenge (step3_reply w) initial_token session_uuid ;;
  let '(tan_challenge_id, tan_type, tan_poll_url) := challenge in
  _step4_poll_tan_approval fuel (polling w) initial_token tan_poll_url tan_type ;;;
  _step4b_activate_session (step4b_reply w) initial_token session_uuid tan_challenge_id ;;;
  _step5_secondary_token (step5_reply w) (step5_now w) initial_token ;;;
  _start_refresh_task true.

(** [authenticate]: a coroutine, so an event loop is running when it
    starts the task.  Its clause is [except Exception]: every exception of
    the hierarchy clears the pair and is raised again, a cancellation
    passes without the pair being cleared. *)
Definition authenticate (fuel : nat) (w : auth_world) : M unit :=
  try_except
    (authenticate_steps fuel w)
    (fun e => Some (_clear_tokens ;;; raise e)).

End WithJsonLoads.

(** ** Refreshing *)

Definition refresh_token (reply : httpx_outcome) (now : Z) : M bool :=
  current <- gets _refresh_token ;;
  if negb (truthy current) then ret false
  else
    try_except
      (response <- await_httpx (EvPost "refresh_token") reply ;;
       if status_code response =? 401 then
         _invoke_reauth_callback "token_refresh_failed" ;;;
         ret false
       else
         store_token_response response now ;;;
         ret true)
      (fun e =>
         if is_a e TimeoutException then Some (ret false)
         else if is_a e HTTPStatusError then Some (ret false)
         else None).

(** ** The refresh scheduler *)

(** What the outside world answers during one pass of the scheduler loop:
    the reading of [utc_now()], whether the task is cancelled while it
    sleeps, and the reply and clock reading of the refresh. *)
Record loop_round := {
  loop_now : Z;
  cancelled_in_sleep : bool;
  refresh_reply : httpx_outcome;
  refresh_now : Z
}.

(** One pass through the body of [while True].  A cancellation that
    reaches the task in its sleep or in the refresh request is caught by
    the clause [except asyncio.CancelledError: break].  The ten-second
    sleep of the [except Exception] clause is taken to run to its end. *)
Definition loop_once (r : loop_round) : M flow :=
  try_except_cancelled
    (expiry <- gets _token_expiry ;;
     match expiry with
     | None =>
         await_sleep (10 * second) (cancelled_in_sleep r) ;;;
         ret Continue
     | Some token_expiry =>
         threshold <- gets token_refresh_threshold ;;
         delta <- lift (timedelta_seconds (JNum threshold)) ;;
         refresh_time <- lift (datetime_add token_expiry (- delta)) ;;
         let sleep_duration := refresh_time - loop_now r in
         (if sleep_duration >? 0
          then await_sleep sleep_duration (cancelled_in_sleep r)
          else ret tt) ;;;
         success <- refresh_token (refresh_reply r) (refresh_now r) ;;
         if negb success then
           _invoke_reauth_callback "automatic_refresh_failed" ;;;
           ret Leave
         else ret Continue
     end)
    (ret Leave)
    (fun e => Some (sleep (10 * second) ;;; ret Continue)).

Fixpoint _token_refresh_loop (fuel : nat) (w : nat -> loop_round) (i : nat) : M unit :=
  match fuel with
  | O => out_of_fuel
  | S fuel' =>
      next <- loop_once (w i) ;;
      match next with
      | Leave => ret tt
      | Continue => _token_refresh_loop fuel' w (S i)
      end
  end.

(** ** Construction and shutdown *)

(** [_restore_tokens_from_storage], the last statement of the
    synchronous [__init__]; [running] tells whether the client is built
    inside a running event loop.  The [RuntimeError] of a task creation
    without one is not a [TokenStorageError]: it leaves [__init__]. *)
Definition _restore_tokens_from_storage (running : bool) : M unit :=
  try_except
    (storage <- gets _token_storage ;;
     tokens <- lift (load_tokens storage) ;;
     match tokens with
     | Some (access_token, refresh_token, token_expiry) =>
         modify (set_tokens access_token refresh_token (Some token_expiry)) ;;;
         _start_refresh_task running
     | None => ret tt
     end)
    (fun e => if is_a e TokenStorageError then Some (ret tt) else None).

(** The object [__init__] has built when it reaches the restore. *)
Definition new_client
    (reauth : option (string -> callback_result))
    (tan_status : option (string -> list (string * json_value) -> callback_result))
    (token_refresh_threshold_seconds : Z) (storage : TokenPersistence)
    : ComdirectClient :=
  {| reauth_callback := reauth;
     tan_status_callback := tan_status;
     token_refresh_threshold := token_refresh_threshold_seconds;
     _token_storage := storage;
     _access_token := JNull; _refresh_token := JNull; _token_expiry := None;
     _refresh_task := None;
     _bravado_client := Some BravadoClient;
     tasks := []; trace := [] |}.

Definition close : M unit := modify cancel_refresh_task.

(** ** The client over time

    The operations that act on one client object: the public methods, one
    pass of the scheduler loop run by a pending task, and the event loop
    ending a task whose cancellation was requested.  A construction whose
    restore raises hands no client to anybody; its state is counted among
    the reachable ones all the same, which only makes an invariant of the
    reachable states say more. *)

Definition finish (id : nat) (c : ComdirectClient) : ComdirectClient :=
  set_tasks (_refresh_task c) (<[id := Finished]> (tasks c)) c.

Inductive operation :=
| OpAuthenticate (fuel : nat) (w : auth_world)
| OpRefresh (reply : httpx_outcome) (now : Z)
| OpClose
| OpSchedulerPass (id : nat) (r : loop_round)
| OpCancelDelivered (id : nat).

Definition enabled (op : operation) (c : ComdirectClient) : Prop :=
  match op with
  | OpSchedulerPass id _ => tasks c !! id = Some Pending
  | OpCancelDelivered id => tasks c !! id = Some Cancelling
  | _ => True
  end.

Definition ignore {A} (m : M A) : M unit :=
  try_except (m ;;; ret tt) (fun _ => Some (ret tt)).

Definition run (json_loads : string -> outcome json_value) (op : operation) : M unit :=
  match op with
  | OpAuthenticate fuel w => ignore (authenticate json_loads fuel w)
  | OpRefresh reply now => ignore (refresh_token reply now)
  | OpClose => close
  | OpSchedulerPass id r =>
      next <- loop_once r ;;
      match next with
      | Leave => modify (finish id)
      | Continue => ret tt
      end
  | OpCancelDelivered id => modify (finish id)
  end.

Inductive reachable (json_loads : string -> outcome json_value)
    : ComdirectClient -> Prop :=
| reachable_new running reauth tan_status threshold storage o c :
    _restore_tokens_from_storage running (new_client reauth tan_status threshold storage)
      = Some (o, c) ->
    reachable json_loads c
| reachable_step op c o c' :
    reachable json_loads c ->
    enabled op c ->
    run json_loads op c = Some (o, c') ->
    reachable json_loads c'.

(** * Vocabulary of the properties *)

(** ** Reading a trace *)

Definition is_tan_status (status : string) (e : event) : bool :=
  match e with EvTanStatus s _ => String.eqb s status | _ => false end.

Definition is_reauth (e : event) : bool :=
  match e with EvReauth _ => true | _ => false end.

Definition is_poll (e : event) : bool :=
  match e with EvGet _ => true | _ => false end.

Definition is_sleep_or_poll (e : event) : bool :=
  match e with EvGet _ | EvSleep _ => true | _ => false end.

Definition count (p : event -> bool) (t : list event) : nat :=
  length (List.filter p t).

(** The token pair is entirely empty. *)
Definition tokens_cleared (c : ComdirectClient) : Prop :=
  _access_token c = JNull /\ _refresh_token c = JNull /\ _token_expiry c = None.

(** Two clients hold the same token pair. *)
Definition same_tokens (c c' : ComdirectClient) : Prop :=
  _access_token c' = _access_token c /\
  _refresh_token c' = _refresh_token c /\
  _token_expiry c' = _token_expiry c.

(** A concrete surrounding for the examples: a parser that knows one header
    text, an observer that always raises, and a client restored with a
    token pair and a running scheduler task. *)
Definition auth_info_text : string := "auth-info".

Definition table_loads (s : string) : outcome json_value :=
  if String.eqb s auth_info_text then
    Returns (JObj [("id", JStr "4711"); ("typ", JStr "P_TAN_PUSH");
                   ("link", JObj [("href", JStr "/api/session/poll")])])
  else Raises (error JSONDecodeError s).

Definition raising_reauth (reason : string) : callback_result :=
  CallbackRaises (error OtherException reason).

Definition raising_tan_status (status : string) (data : list (string * json_value))
    : callback_result :=
  CallbackRaises (error OtherException status).

Definition disk : TokenPersistence :=
  {| storage_path := Some "tokens.json"; writable := true;
     file := Stored (JStr "old-access") (JStr "old-refresh") 1000 |}.

Definition restored_client : ComdirectClient :=
  {| reauth_callback := Some raising_reauth;
     tan_status_callback := Some raising_tan_status;
     token_refresh_threshold := 120;
     _token_storage := disk;
     _access_token := JStr "old-access"; _refresh_token := JStr "old-refresh";
     _token_expiry := Some 1000;
     _refresh_task := Some 0%nat;
     _bravado_client := Some BravadoClient;
     tasks := [Pending]; trace := [] |}.

Definition ok (status : Z) (payload : json_value) : httpx_outcome :=
  HttpxResponse {| status_code := status; json := Returns payload |}.

Definition tan_state (s : string) : httpx_outcome := ok 200 (JObj [("status", JStr s)]).

Definition token_reply (expires_in : Z) : httpx_outcome :=
  ok 200 (JObj [("access_token", JStr "new-access");
                ("refresh_token", JStr "new-refresh");
                ("expires_in", JNum expires_in)]).

Definition challenge_response : RawResponse :=
  {| headers_get := fun name =>
       if String.eqb name "x-once-authentication-info" then Some auth_info_text else None;
     body := JNull |}.

(** Polls one second apart on a clock that starts at [0]; every reply is
    [reply i], and a cancellation arrives during the request. *)
Definition ticking (reply : nat -> httpx_outcome) : poll_world :=
  {| start_time := 0;
     guard_time := fun i => Z.of_nat i * second;
     wake_time := fun i => (Z.of_nat i + 1) * second;
     poll_reply := reply;
     cancelled_asleep := fun _ => false |}.

Definition approve_third (i : nat) : httpx_outcome :=
  match i with
  | 0%nat | 1%nat => tan_state "PENDING"
  | _ => tan_state "AUTHENTICATED"
  end.

Definition world (polls : poll_world) (last : httpx_outcome) : auth_world :=
  {| step1_reply := ok 200 (JObj [("access_token", JStr "restricted")]);
     step2_reply := BravadoReturns (Some [ {| identifier := JStr "session-1" |} ]);
     step3_reply := BravadoReturns challenge_response;
     polling := polls;
     step4b_reply := BravadoReturns tt;
     step5_reply := last;
     step5_now := 5000 * second |}.

(** Step 5 answers with an access token but no refresh token: the access
    token is assigned before the [KeyError], on top of a restored pair. *)
Definition half_a_pair : auth_world :=
  world (ticking approve_third) (ok 200 (JObj [("access_token", JStr "new-access")])).

Definition half_a_pair_state : ComdirectClient :=
  Eval vm_compute in
    match authenticate_steps table_loads 5 half_a_pair restored_client with
    | Some (_, c1) => c1
    | None => restored_client
    end.

(** The TAN is approved, and the task that runs [authenticate()] is
    cancelled while step 5 waits for the reply to its token exchange. *)
Definition cancelled_world : auth_world :=
  world (ticking approve_third) HttpxCancelled.

(** The task that runs [authenticate()] is cancelled while it waits for
    the TAN: after a first poll answered PENDING, in the sleep before the
    second. *)
Definition cancelled_waiting : poll_world :=
  {| start_time := 0;
     guard_time := fun i => Z.of_nat i * second;
     wake_time := fun i => (Z.of_nat i + 1) * second;
     poll_reply := fun i => match i with
                            | 0%nat => tan_state "PENDING"
                            | _ => HttpxCancelled
                            end;
     cancelled_asleep := fun _ => true |}.

Definition cancelled_waiting_world : auth_world :=
  world cancelled_waiting (token_reply 600).

(** The refresh POST timed out, or was answered with a status that is
    neither 2xx nor 401. *)
Definition transient_failure (reply : httpx_outcome) : Prop :=
  match reply with
  | HttpxRaises e => class_of e = TimeoutException
  | HttpxResponse r => is_success r = false /\ status_code r <> 401
  | HttpxCancelled => False
  end.

(** A positive number of seconds. *)
Definition positive_seconds (v : json_value) : bool :=
  match v with
  | JNum n => 0 <? n
  | JBool b => b
  | _ => false
  end.

Definition approved_world : auth_world :=
  world (ticking approve_third) (token_reply 600).

Definition approved_state : ComdirectClient :=
  Eval vm_compute in
    match authenticate table_loads 5 approved_world restored_client with
    | Some (_, c1) => c1
    | None => restored_client
    end.

Definition zero_lifetime_world : auth_world :=
  world (ticking approve_third) (token_reply 0).

(** ** Vocabulary for the polling step *)

(** The status a poll reply reports: the [status] member of the body of a
    200 response. *)
Definition reported_status (reply : httpx_outcome) : option json_value :=
  match reply with
  | HttpxResponse r =>
      if status_code r =? 200 then
        match json r with
        | Returns data =>
            match dict_get data "status" with
            | Returns v => Some v
            | _ => None
            end
        | _ => None
        end
      else None
  | _ => None
  end.

(** The replies after which the loop goes on polling: status [PENDING], a
    response other than 200, a timeout of the single request. *)
Definition keeps_polling (reply : httpx_outcome) : bool :=
  match reply with
  | HttpxRaises e => is_a e TimeoutException
  | HttpxResponse r =>
      if status_code r =? 200 then
        match reported_status reply with
        | Some v => eq_str v "PENDING"
        | None => false
        end
      else true
  | HttpxCancelled => false
  end.

(** The clock does not run backwards between two readings of a run of
    step 4, and a sleep lasts at least as long as asked. *)
Definition clock_advances (w : poll_world) : Prop :=
  start_time w <= guard_time w 0 /\
  forall i, guard_time w i + poll_interval * second <= wake_time w i /\
            wake_time w i <= guard_time w (S i).

(** The loop test of pass [i] finds the budget not used up. *)
Definition within_budget (w : poll_world) (i : nat) : Prop :=
  guard_time w i - start_time w < timeout * second.

(** The progress notification of pass [i], if one is due. *)
Definition progress_note (w : poll_world) (i : nat) (tan_type : json_value) : list event :=
  let elapsed := Z.quot (wake_time w i - start_time w) second in
  if (elapsed mod 10 =? 0) && (elapsed >? 0) then
    [EvTanStatus "pending"
       [("tan_type", tan_type); ("timeout_seconds", JNum timeout);
        ("elapsed_seconds", JNum elapsed);
        ("remaining_seconds", JNum (timeout - elapsed))]]
  else [].

Definition timeout_note (tan_type : json_value) : event :=
  EvTanStatus "timeout" [("tan_type", tan_type); ("timeout_seconds", JNum timeout)].

(** Steps 1 to 3 of [authenticate]. *)
Definition reach_polling (json_loads : string -> outcome json_value) (w : auth_world)
    : M (json_value * json_value * (json_value * json_value * json_value)) :=
  initial_token <- _step1_password_credentials (step1_reply w) ;;
  session_uuid <- _step2_session_status (step2_reply w) initial_token ;;
  challenge <- _step3_tan_challenge json_loads (step3_reply w) initial_token session_uuid ;;
  ret (initial_token, session_uuid, challenge).

Definition rejected_world : auth_world :=
  world (ticking (fun _ => tan_state "REJECTED")) (token_reply 600).

Definition never_approved_world : auth_world :=
  world (ticking (fun _ => tan_state "PENDING")) (token_reply 600).

Definition polling_reached_state : ComdirectClient :=
  Eval vm_compute in
    match reach_polling table_loads never_approved_world restored_client with
    | Some (_, c3) => c3
    | None => restored_client
    end.

(** A step-3 response without the authentication-info header whose body
    carries a complete challenge description. *)
Definition headerless_response : RawResponse :=
  {| headers_get := fun _ => None;
     body := JObj [("id", JStr "4711"); ("typ", JStr "P_TAN_PUSH");
                   ("link", JObj [("href", JStr "/api/session/poll")])] |}.




(** ** Vocabulary for the observers *)

(** Two clients that differ at most in their registered observers. *)
Definition alike (c1 c2 : ComdirectClient) : Prop :=
  set_callbacks None None c1 = set_callbacks None None c2.

(** Two runs that end the same way: both run out of fuel, or both end
    with the same return value or the same exception, in clients that
    differ at most in their observers. *)
Definition same_run {A} (r1 r2 : option (outcome A * ComdirectClient)) : Prop :=
  match r1, r2 with
  | None, None => True
  | Some (o1, c1), Some (o2, c2) => o1 = o2 /\ alike c1 c2
  | _, _ => False
  end.

(** A computation whose run does not depend on the observers. *)
Definition respects {A} (m : M A) : Prop :=
  forall c1 c2, alike c1 c2 -> same_run (m c1) (m c2).

(** An observer that returns normally. *)
Definition quiet_reauth (reason : string) : callback_result := CallbackReturns.
Definition quiet_tan_status (status : string) (data : list (string * json_value))
    : callback_result := CallbackReturns.

(** ** Vocabulary for the scheduler task *)

(** A task is alive when it is pending: neither finished nor asked to
    cancel.  At most one task is alive, the one the client refers to. *)
Definition one_scheduler (c : ComdirectClient) : Prop :=
  forall id, tasks c !! id = Some Pending -> _refresh_task c = Some id.

(** Without an expiry (as after [_clear_tokens]) no task is alive. *)
Definition no_scheduler_without_tokens (c : ComdirectClient) : Prop :=
  _token_expiry c = None -> forall id, tasks c !! id <> Some Pending.

Definition scheduler_invariant (c : ComdirectClient) : Prop :=
  one_scheduler c /\ no_scheduler_without_tokens c.

(** Hoare triples over the monad: from a client satisfying [P], a run of
    [m] that ends, ends in a result and client satisfying [Q]. *)
Definition hoare {A} (P : ComdirectClient -> Prop) (m : M A)
    (Q : outcome A -> ComdirectClient -> Prop) : Prop :=
  forall c o c', P c -> m c = Some (o, c') -> Q o c'.

(** [m] keeps the scheduler invariant. *)
Definition keeps {A} (m : M A) : Prop :=
  hoare scheduler_invariant m (fun _ c => scheduler_invariant c).

Definition fresh_client_state : ComdirectClient :=
  Eval vm_compute in
    match _restore_tokens_from_storage true (new_client None None 120 disk) with
    | Some (_, c) => c
    | None => new_client None None 120 disk
    end.

(** * The rest of the client: identifiers, log sanitising, the header adapter *)

From stdpp Require pretty.

(** ** [sanitize_token] *)

(** [s[:k]]: the first [k] characters, or all but the last [-k] when [k]
    is negative. *)
Definition slice_to (s : string) (k : Z) : string :=
  if 0 <=? k then String.substring 0 (Z.to_nat k) s
  else String.substring 0 (Z.to_nat (Z.of_nat (String.length s) + k)) s.

Definition sanitize_token (token : string) (prefix_length : Z) : string :=
  if String.eqb token "" || (Z.of_nat (String.length token) <=? prefix_length)
  then "***"
  else String.append (slice_to token prefix_length) "...".

(** ** Request and session identifiers *)

(** [s[-n:]]: the last [n] characters, or all of [s] when it is shorter. *)
Definition last_chars (n : nat) (s : string) : string :=
  String.substring (String.length s - n) n s.

(** [_generate_request_id]; [now_ms] is [int(time.time() * 1000)], and
    [pretty] is [str] on integers. *)
Definition _generate_request_id (now_ms : Z) : string :=
  last_chars 9 (pretty.pretty now_ms).

(** [_get_session_id] on the attribute [_session_id]; [uuid4] is what
    [str(uuid.uuid4())] gives if it is called. *)
Definition _get_session_id (uuid4 : string) (session_id : option string)
    : string * option string :=
  match session_id with
  | Some s => if String.eqb s "" then (uuid4, Some uuid4) else (s, Some s)
  | None => (uuid4, Some uuid4)
  end.

(** The ids successive calls return, [uuids] being what [uuid4] would give
    at each call. *)
Fixpoint session_ids (uuids : list string) (session_id : option string) : list string :=
  match uuids with
  | [] => []
  | u :: rest =>
      let '(s, session_id') := _get_session_id u session_id in
      s :: session_ids rest session_id'
  end.

(** The object [_get_request_info_header] hands to [json.dumps]. *)
Definition request_info (session_id request_id : string) : json_value :=
  JObj [("clientRequestId",
         JObj [("sessionId", JStr session_id); ("requestId", JStr request_id)])].

Section WithJsonDumps.

Variable json_dumps : json_value -> string.

Definition _get_request_info_header (uuid4 : string) (now_ms : Z)
    (session_id : option string) : string * option string :=
  let '(s, session_id') := _get_session_id uuid4 session_id in
  (json_dumps (request_info s (_generate_request_id now_ms)), session_id').

(** ** [ComdirectBravadoClient.request] *)

(** A dictionary of headers, as far as it is looked up: [h k] is
    [h.get(k)]. *)
Definition header_dict : Type := string -> option string.

(** [h[k] = v] *)
Definition set_header (k v : string) (h : header_dict) : header_dict :=
  fun k' => if String.eqb k' k then Some v else h k'.

(** A value found where a dictionary of headers is expected. *)
Inductive header_source :=
| HeaderDict (h : header_dict)
| NotADict.

(** The [request_config] argument: [None], a dictionary (with or without
    the key [custom_headers]), or an object (with or without the attribute
    [headers]). *)
Inductive request_config :=
| NoConfig
| DictConfig (custom_headers : option header_source)
| ObjectConfig (headers : option header_source).

(** [headers.update(source)] when [source] is a dictionary. *)
Definition update_from (source : option header_source) (headers : header_dict)
    : header_dict :=
  match source with
  | Some (HeaderDict h) =>
      fun k => match h k with Some v => Some v | None => headers k end
  | _ => headers
  end.

(** The headers [request] passes on: [headers] are those of
    [request_params], [access_token] what [get_access_token()] returns. *)
Definition request (headers : header_dict) (access_token : option string)
    (uuid4 : string) (now_ms : Z) (session_id : option string)
    (config : request_config) : header_dict * option string :=
  let headers :=
    match access_token with
    | Some t =>
        if String.eqb t "" then headers
        else set_header "Authorization" (String.append "Bearer " t) headers
    | None => headers
    end in
  let '(info, session_id') := _get_request_info_header uuid4 now_ms session_id in
  let headers := set_header "x-http-request-info" info headers in
  let headers :=
    match config with
    | NoConfig => headers
    | DictConfig custom_headers => update_from custom_headers headers
    | ObjectConfig config_headers => update_from config_headers headers
    end in
  let headers :=
    match headers "Accept" with
    | Some _ => headers
    | None => set_header "Accept" "application/json" headers
    end in
  (headers, session_id').

End WithJsonDumps.

(** [n] decimal digits, least significant last, padded with zeros. *)
Fixpoint fixed_digits (n : nat) (x : N) : string :=
  match n with
  | O => ""
  | S n' =>
      String.append (fixed_digits n' (x / 10)%N)
        (String (pretty.pretty_N_char (x mod 10)%N) "")
  end.

(** The per-request headers [request] applies: those of a dictionary
    config's [custom_headers] or of an object config's [headers], when
    that is a dictionary. *)
Definition custom_headers_of (config : request_config) : header_dict :=
  match config with
  | DictConfig (Some (HeaderDict h)) | ObjectConfig (Some (HeaderDict h)) => h
  | _ => fun _ => None
  end.

(** [if access_token:] on an optional string. *)
Definition has_token (access_token : option string) : bool :=
  match access_token with
  | Some t => negb (String.eqb t "")
  | None => false
  end.

Definition bearer (access_token : option string) : string :=
  match access_token with
  | Some t => String.append "Bearer " t
  | None => "Bearer "
  end.

(** A stand-in for [json.dumps] in the examples: it shows the two ids. *)
Definition show_request_info (v : json_value) : string :=
  match v with
  | JObj [(_, JObj [(_, JStr s); (_, JStr r)])] =>
      String.append s (String.append "/" r)
  | _ => ""
  end.

Definition caller_headers : header_dict :=
  fun k => if String.eqb k "Authorization" then Some "Basic caller" else None.

Definition activation_config : request_config :=
  ObjectConfig (Some (HeaderDict (fun k =>
    if String.eqb k "x-once-authentication-info" then Some "challenge 4711"
    else if String.eqb k "Authorization" then Some "Bearer other"
    else None))).

(** ** Vocabulary for refreshing and the scheduler *)

(** A refresh response that carries a complete token pair. *)
Definition complete_reply (reply : httpx_outcome) (now : Z)
    (access refresh : json_value) (expiry : Z) : Prop :=
  exists r data expires_in delta,
    reply = HttpxResponse r /\ status_code r <> 401 /\ is_success r = true /\
    json r = Returns data /\
    subscript data "access_token" = Returns access /\
    subscript data "refresh_token" = Returns refresh /\
    subscript data "expires_in" = Returns expires_in /\
    timedelta_seconds expires_in = Returns delta /\
    datetime_add now delta = Returns expiry.

(** What [_save_tokens_to_storage] leaves in the store for a token pair. *)
Definition stored_after (access refresh : json_value) (expiry : Z)
    (s : TokenPersistence) : TokenPersistence :=
  if truthy access && truthy refresh then snd (save_tokens access refresh expiry s)
  else s.

(** The moment the scheduler wants to refresh: the expiry minus the
    threshold. *)
Definition refresh_due_at (c : ComdirectClient) (expiry : Z) : Z :=
  expiry - token_refresh_threshold c * second.

(** The threshold and the expiry are such that the scheduler's date
    arithmetic does not overflow. *)
Definition schedulable (c : ComdirectClient) (expiry : Z) : Prop :=
  timedelta_seconds (JNum (token_refresh_threshold c))
  = Returns (token_refresh_threshold c * second) /\
  datetime_add expiry (- (token_refresh_threshold c * second))
  = Returns (refresh_due_at c expiry).

Definition expiring_client : ComdirectClient :=
  {| reauth_callback := Some raising_reauth;
     tan_status_callback := None;
     token_refresh_threshold := 120;
     _token_storage := disk;
     _access_token := JStr "old-access"; _refresh_token := JStr "old-refresh";
     _token_expiry := Some (600 * second);
     _refresh_task := Some 0%nat;
     _bravado_client := Some BravadoClient;
     tasks := [Pending]; trace := [] |}.

Definition pass (now : Z) (cancelled : bool) (reply : httpx_outcome) : loop_round :=
  {| loop_now := now; cancelled_in_sleep := cancelled;
     refresh_reply := reply; refresh_now := now |}.

(** The client after the sleep of a scheduler pass, if the pass sleeps. *)
Definition after_nap (c : ComdirectClient) (expiry now : Z) : ComdirectClient :=
  if refresh_due_at c expiry - now >? 0
  then set_trace (trace c ++ [EvSleep (refresh_due_at c expiry - now)]) c
  else c.

(** What a scheduler pass does once it is awake. *)
Definition refresh_or_give_up (r : loop_round) : M flow :=
  try_except_cancelled
    (success <- refresh_token (refresh_reply r) (refresh_now r) ;;
     if negb success then
       _invoke_reauth_callback "automatic_refresh_failed" ;;;
       ret Leave
     else ret Continue)
    (ret Leave)
    (fun e => Some (sleep (10 * second) ;;; ret Continue)).

(** The reauth notifications in a trace, in order. *)
Definition reauth_reasons (t : list event) : list string :=
  flat_map (fun e => match e with EvReauth reason => [reason] | _ => [] end) t.

(** ** Vocabulary for invariants of whole runs *)

(** [m] keeps [I], however it ends. *)
Definition stable (I : ComdirectClient -> Prop) {A} (m : M A) : Prop :=
  hoare I m (fun _ c => I c).

Definition is_tan_note (e : event) : Prop :=
  exists status data, e = EvTanStatus status data.

Definition exchange : event := EvPost "cd_secondary".

Definition is_exchange (e : event) : bool :=
  match e with EvPost grant => String.eqb grant "cd_secondary" | _ => false end.

(** Since the trace [t0] the client has not sent the token exchange of
    step 5. *)
Definition not_exchanged_since (t0 : list event) (c : ComdirectClient) : Prop :=
  exists p, trace c = t0 ++ p /\ count is_exchange p = 0%nat.

(** Since the trace [t0] a TAN approval was announced, and no token
    exchange was sent before it. *)
Definition approved_since (t0 : list event) (c : ComdirectClient) : Prop :=
  exists p1 data p2,
    trace c = t0 ++ p1 ++ EvTanStatus "approved" data :: p2 /\
    count is_exchange p1 = 0%nat.

(** Steps 1 to 4b of [authenticate], everything before the token
    exchange. *)
Definition before_exchange (json_loads : string -> outcome json_value)
    (fuel : nat) (w : auth_world) : M json_value :=
  initial_token <- _step1_password_credentials (step1_reply w) ;;
  session_uuid <- _step2_session_status (step2_reply w) initial_token ;;
  challenge <- _step3_tan_challenge json_loads (step3_reply w) initial_token session_uuid ;;
  let '(tan_challenge_id, tan_type, tan_poll_url) := challenge in
  _step4_poll_tan_approval fuel (polling w) initial_token tan_poll_url tan_type ;;;
  _step4b_activate_session (step4b_reply w) initial_token session_uuid tan_challenge_id ;;;
  ret initial_token.

(** * Properties *)

(** ** Housekeeping lemmas *)

(** Synchronous calls are never cancelled. *)
Lemma subscript_not_cancelled d k : subscript d k <> Cancelled.
Proof. unfold subscript. repeat case_match; discriminate. Qed.

Lemma dict_get_not_cancelled d k : dict_get d k <> Cancelled.
Proof. unfold dict_get. repeat case_match; discriminate. Qed.

Lemma timedelta_seconds_not_cancelled v : timedelta_seconds v <> Cancelled.
Proof. unfold timedelta_seconds. repeat case_match; discriminate. Qed.

Lemma datetime_add_not_cancelled t d : datetime_add t d <> Cancelled.
Proof. unfold datetime_add. case_match; discriminate. Qed.

Lemma raise_for_status_not_cancelled r : raise_for_status r <> Cancelled.
Proof. unfold raise_for_status. case_match; discriminate. Qed.

Lemma save_tokens_not_cancelled a r e s : fst (save_tokens a r e s) <> Cancelled.
Proof. unfold save_tokens. repeat case_match; discriminate. Qed.

Lemma cancel_refresh_task_tokens c :
  _access_token (cancel_refresh_task c) = _access_token c /\
  _refresh_token (cancel_refresh_task c) = _refresh_token c /\
  _token_expiry (cancel_refresh_task c) = _token_expiry c.
Proof.
  unfold cancel_refresh_task.
  destruct (_refresh_task c) as [id|]; [|done].
  destruct (tasks c !! id) as [t|]; [|done].
  destruct (negb (done t)); done.
Qed.

Lemma cancel_refresh_task_frame c :
  _token_storage (cancel_refresh_task c) = _token_storage c /\
  trace (cancel_refresh_task c) = trace c /\
  _refresh_task (cancel_refresh_task c) = _refresh_task c /\
  reauth_callback (cancel_refresh_task c) = reauth_callback c /\
  tan_status_callback (cancel_refresh_task c) = tan_status_callback c.
Proof.
  unfold cancel_refresh_task.
  destruct (_refresh_task c) as [id|] eqn:E; [|done].
  destruct (tasks c !! id) as [t|]; [|done].
  destruct (negb (done t)); simpl; rewrite ?E; done.
Qed.

(** [cancel_refresh_task] asks the task the client refers to, if it is
    pending, to cancel, and touches no other task. *)
Lemma cancel_refresh_task_cancels c id :
  _refresh_task c = Some id -> tasks c !! id = Some Pending ->
  tasks (cancel_refresh_task c) !! id = Some Cancelling.
Proof.
  intros Hr Hp. unfold cancel_refresh_task, cancel. rewrite Hr, Hp. simpl.
  apply lookup_lt_Some in Hp.
  rewrite list_lookup_insert_eq by done. reflexivity.
Qed.

Lemma cancel_refresh_task_others c id :
  _refresh_task c <> Some id ->
  tasks (cancel_refresh_task c) !! id = tasks c !! id.
Proof.
  intros Hne. unfold cancel_refresh_task, cancel.
  destruct (_refresh_task c) as [rid|]; [|done].
  destruct (tasks c !! rid) as [t|] eqn:Et; [|done].
  destruct t; simpl; rewrite ?Et; try done.
  rewrite list_lookup_insert_ne by congruence. reflexivity.
Qed.

Lemma _clear_tokens_run c :
  _clear_tokens c = Some (Returns tt, cancel_refresh_task (set_tokens JNull JNull None c)).
Proof. reflexivity. Qed.

Lemma tokens_cleared_after_clear c :
  tokens_cleared (cancel_refresh_task (set_tokens JNull JNull None c)).
Proof.
  unfold tokens_cleared.
  destruct (cancel_refresh_task_tokens (set_tokens JNull JNull None c)) as (-> & -> & ->).
  done.
Qed.

(** The dispatchers return normally whatever the observer does. *)
Lemma _invoke_tan_status_callback_run status data c :
  _invoke_tan_status_callback status data c
  = Some (Returns tt, set_trace (trace c ++ [EvTanStatus status data]) c).
Proof.
  unfold _invoke_tan_status_callback, bind, emit, modify, gets, try_except; simpl.
  destruct (tan_status_callback c) as [f|]; [|done].
  destruct (f status data); done.
Qed.

Lemma _invoke_reauth_callback_run reason c :
  _invoke_reauth_callback reason c
  = Some (Returns tt,
          set_trace (trace c ++ [EvReauth reason])
            (cancel_refresh_task (set_tokens JNull JNull None c))).
Proof.
  unfold _invoke_reauth_callback, bind, emit, modify, gets, try_except.
  rewrite _clear_tokens_run; simpl.
  destruct (cancel_refresh_task_frame (set_tokens JNull JNull None c))
    as (_ & Ht & _ & Hr & _).
  rewrite Hr, Ht; simpl.
  destruct (reauth_callback c) as [f|]; [|done].
  destruct (f reason); done.
Qed.

(** ** The [api] property *)

(** C9. Whenever [is_authenticated()] is false, reading [api] raises
    [RuntimeError]: no client object is returned, and nothing is built or
    changed. *)
Theorem api_requires_authentication created c :
  is_authenticated c = false ->
  api created c
  = Some (Raises (error RuntimeError
            "Client not authenticated. Call authenticate() first before accessing API."),
          c).
Proof.
  intros H. unfold api, bind, gets. rewrite H. reflexivity.
Qed.

Lemma api_requires_authentication_witness :
  is_authenticated (new_client None None 120 disk) = false /\
  api (Returns BravadoClient) (new_client None None 120 disk)
  = Some (Raises (error RuntimeError
            "Client not authenticated. Call authenticate() first before accessing API."),
          new_client None None 120 disk).
Proof.
  split; [reflexivity|].
  apply (api_requires_authentication (Returns BravadoClient) (new_client None None 120 disk)).
  reflexivity.
Defined.

(** ** Failed authentication *)

(** The [except] clause of [authenticate]: clear, then re-raise. *)
Lemma authenticate_reraises json_loads fuel w c e c1 :
  authenticate_steps json_loads fuel w c = Some (Raises e, c1) ->
  authenticate json_loads fuel w c
  = Some (Raises e, cancel_refresh_task (set_tokens JNull JNull None c1)).
Proof.
  intros H. unfold authenticate, try_except. rewrite H.
  unfold bind. rewrite _clear_tokens_run. reflexivity.
Qed.

(** ** Refresh failures *)

Lemma count_app p (t u : list event) : count p (t ++ u) = (count p t + count p u)%nat.
Proof. unfold count. rewrite List.filter_app, length_app. reflexivity. Qed.

(** C3, as the code has it. When the refresh endpoint answers 401 to a
    call of [refresh_token()], the call hands exactly one [reauth_required]
    notification with reason "token_refresh_failed" to the dispatcher and
    returns [False]; handing it over clears the token pair in memory, so
    the caller is left without a refresh token, and asks the scheduler
    task to cancel: the task the client refers to, if it was pending, is
    cancelling afterwards, and no other task is touched.  The persisted
    file is not touched. *)
Theorem refresh_401_notifies_once_and_clears c r now :
  truthy (_refresh_token c) = true ->
  status_code r = 401 ->
  exists c',
    refresh_token (HttpxResponse r) now c = Some (Returns false, c') /\
    trace c' = trace c ++ [EvPost "refresh_token"; EvReauth "token_refresh_failed"] /\
    tokens_cleared c' /\
    _token_storage c' = _token_storage c /\
    _refresh_task c' = _refresh_task c /\
    (forall id, _refresh_task c = Some id -> tasks c !! id = Some Pending ->
       tasks c' !! id = Some Cancelling) /\
    (forall id, _refresh_task c <> Some id -> tasks c' !! id = tasks c !! id).
Proof.
  intros Ht Hs.
  unfold refresh_token, bind, gets, try_except, await_httpx, bind, emit, modify, ret.
  rewrite Ht; simpl. rewrite Hs; simpl.
  rewrite _invoke_reauth_callback_run; simpl.
  eexists; split; [reflexivity|]. simpl.
  remember (set_tokens _ _ _ _) as c0 eqn:E.
  destruct (cancel_refresh_task_frame c0) as (Hst & Htr & Hk & _).
  destruct (cancel_refresh_task_tokens c0) as (Ha & Hr & He).
  assert (Hk0 : _refresh_task c0 = _refresh_task c) by (subst c0; reflexivity).
  assert (Ht0 : tasks c0 = tasks c) by (subst c0; reflexivity).
  unfold tokens_cleared; simpl. rewrite Ha, Hr, He, Hst, Hk, Hk0.
  split; [subst c0; simpl; rewrite <- app_assoc; done|].
  split; [subst c0; done|].
  split; [subst c0; done|].
  split; [reflexivity|].
  split.
  - intros id Hid Hp. apply cancel_refresh_task_cancels; congruence.
  - intros id Hid. rewrite <- Ht0. apply cancel_refresh_task_others. congruence.
Qed.

Lemma refresh_401_notifies_once_and_clears_witness :
  tasks restored_client !! 0%nat = Some Pending /\
  exists c',
    refresh_token (ok 401 JNull) 77 restored_client = Some (Returns false, c') /\
    trace c' = trace restored_client
               ++ [EvPost "refresh_token"; EvReauth "token_refresh_failed"] /\
    tokens_cleared c' /\
    _token_storage c' = _token_storage restored_client /\
    tasks c' !! 0%nat = Some Cancelling.
Proof.
  split; [reflexivity|].
  destruct (refresh_401_notifies_once_and_clears restored_client
              {| status_code := 401; json := Returns JNull |} 77)
    as (c' & Hrun & Htrace & Hclr & Hstore & _ & Hcancel & _);
    [reflexivity|reflexivity|].
  exists c'. split; [exact Hrun|]. split; [exact Htrace|].
  split; [exact Hclr|]. split; [exact Hstore|].
  apply Hcancel; reflexivity.
Defined.

(** C3 as stated fails: after a 401 the client no longer holds the refresh
    token it held before the call. *)
Lemma refresh_401_keeps_no_refresh_token :
  _refresh_token restored_client = JStr "old-refresh" /\
  exists c',
    refresh_token (ok 401 JNull) 77 restored_client = Some (Returns false, c') /\
    _refresh_token c' = JNull /\
    _refresh_token c' <> _refresh_token restored_client.
Proof.
  split; [reflexivity|].
  eexists; split; [vm_compute; reflexivity|].
  split; [reflexivity|discriminate].
Qed.

(** C4. When the refresh POST times out or is answered with a non-2xx
    status other than 401, [refresh_token()] returns [False]; access token,
    refresh token, expiry and the persisted file are what they were, the
    scheduler task is untouched, and no reauth notification is emitted. *)
Theorem refresh_transient_failure_changes_nothing c reply now :
  transient_failure reply ->
  exists c',
    refresh_token reply now c = Some (Returns false, c') /\
    same_tokens c c' /\
    _token_storage c' = _token_storage c /\
    tasks c' = tasks c /\ _refresh_task c' = _refresh_task c /\
    count is_reauth (trace c') = count is_reauth (trace c).
Proof.
  intros H.
  unfold refresh_token, bind, gets, try_except, await_httpx, bind, emit, modify, ret.
  destruct (truthy (_refresh_token c)); simpl.
  2: { eexists; split; [reflexivity|]. unfold same_tokens; done. }
  destruct reply as [r|e|]; simpl in *.
  - destruct H as [Hs Hn].
    apply Z.eqb_neq in Hn. rewrite Hn.
    unfold store_token_response, bind, lift, raise_for_status. rewrite Hs. simpl.
    eexists; split; [reflexivity|]. simpl.
    unfold same_tokens; simpl. rewrite count_app; simpl. repeat split; try done; lia.
  - unfold raise, is_a. rewrite H; simpl.
    eexists; split; [reflexivity|]. simpl.
    unfold same_tokens; simpl. rewrite count_app; simpl. repeat split; try done; lia.
  - contradiction.
Qed.

Lemma refresh_transient_failure_changes_nothing_witness :
  exists c',
    refresh_token (ok 503 JNull) 77 restored_client = Some (Returns false, c') /\
    same_tokens restored_client c' /\
    _token_storage c' = _token_storage restored_client /\
    tasks c' = tasks restored_client /\
    _refresh_task c' = _refresh_task restored_client /\
    count is_reauth (trace c') = count is_reauth (trace restored_client).
Proof.
  apply (refresh_transient_failure_changes_nothing restored_client (ok 503 JNull) 77).
  split; [reflexivity|discriminate].
Defined.

(** ** Reading a run backwards *)

Lemma bind_returns {A B} (m : M A) (k : A -> M B) c b c' :
  bind m k c = Some (Returns b, c') ->
  exists a c1, m c = Some (Returns a, c1) /\ k a c1 = Some (Returns b, c').
Proof.
  unfold bind. destruct (m c) as [[[a|e|] c1]|]; intros H; try discriminate.
  exists a, c1. done.
Qed.

Lemma try_except_returns {A} (m : M A) handler c a c' :
  try_except m handler c = Some (Returns a, c') ->
  m c = Some (Returns a, c') \/
  exists e c1 h, m c = Some (Raises e, c1) /\ handler e = Some h /\
                 h c1 = Some (Returns a, c').
Proof.
  unfold try_except. destruct (m c) as [[[a0|e|] c1]|]; intros H; try discriminate.
  - left. done.
  - right. destruct (handler e) as [h|] eqn:E; [|discriminate].
    exists e, c1, h. done.
Qed.

Lemma lift_returns {A} (o : outcome A) c a c' :
  lift o c = Some (Returns a, c') -> o = Returns a /\ c' = c.
Proof.
  destruct o; simpl; unfold ret, raise, cancelled; intros H; inversion H; done.
Qed.

Lemma await_httpx_returns request reply c r c' :
  await_httpx request reply c = Some (Returns r, c') ->
  reply = HttpxResponse r /\ c' = set_trace (trace c ++ [request]) c.
Proof.
  unfold await_httpx, bind, emit, modify; simpl.
  destruct reply; unfold ret, raise, cancelled; intros H; inversion H; done.
Qed.

(** Saving never raises and never touches anything but the store. *)
Lemma _save_tokens_to_storage_run c :
  exists s, _save_tokens_to_storage c = Some (Returns tt, set_storage s c).
Proof.
  unfold _save_tokens_to_storage, bind, get.
  assert (Hid : c = set_storage (_token_storage c) c) by (destruct c; reflexivity).
  destruct (_token_expiry c) as [t|];
    [|exists (_token_storage c); unfold ret; congruence].
  destruct (truthy (_access_token c) && truthy (_refresh_token c));
    [|exists (_token_storage c); unfold ret; congruence].
  unfold try_except.
  destruct (save_tokens _ _ _ _) as [[[]|e|] s] eqn:E.
  - exists s. reflexivity.
  - unfold save_tokens in E.
    destruct (storage_path (_token_storage c)); [|discriminate].
    destruct (writable (_token_storage c)); [discriminate|].
    inversion E; subst. unfold is_a; simpl. exists (_token_storage c). reflexivity.
  - exfalso. eapply save_tokens_not_cancelled. rewrite E. reflexivity.
Qed.

Lemma _start_refresh_task_run c :
  exists c',
    _start_refresh_task true c = Some (Returns tt, c') /\
    same_tokens c c' /\
    _refresh_task c' = Some (length (tasks c)) /\
    tasks c' !! length (tasks c) = Some Pending.
Proof.
  unfold _start_refresh_task, bind, modify; simpl.
  eexists; split; [reflexivity|].
  destruct (cancel_refresh_task_tokens c) as (Ha & Hr & He).
  unfold same_tokens; simpl. rewrite Ha, Hr, He.
  assert (Hlen : length (tasks (cancel_refresh_task c)) = length (tasks c)).
  { unfold cancel_refresh_task, cancel.
    destruct (_refresh_task c) as [id|]; [|done].
    destruct (tasks c !! id) as [[]|]; simpl; rewrite ?length_insert; done. }
  rewrite Hlen.
  repeat split.
  rewrite lookup_app_r by lia. rewrite Hlen, Nat.sub_diag. reflexivity.
Qed.

(** One step back through a [bind] whose whole run returned. *)
Ltac back H :=
  let a := fresh "a" in
  let c1 := fresh "c" in
  let H1 := fresh "Hrun" in
  apply bind_returns in H; destruct H as (a & c1 & H1 & H);
  try match type of a with unit => destruct a end;
  first
    [ apply lift_returns in H1; destruct H1 as [H1 ?]; subst c1
    | apply await_httpx_returns in H1; destruct H1 as [H1 ?]; subst c1
    | unfold assign_access_token, assign_refresh_token, assign_token_expiry,
        modify in H1;
      injection H1 as ?; subst c1
    | idtac ].

(** What [store_token_response] has done when it returns. *)
Lemma store_token_response_returns r now c c' :
  store_token_response r now c = Some (Returns tt, c') ->
  exists data expires_in delta,
    is_success r = true /\
    json r = Returns data /\
    subscript data "access_token" = Returns (_access_token c') /\
    subscript data "refresh_token" = Returns (_refresh_token c') /\
    subscript data "expires_in" = Returns expires_in /\
    timedelta_seconds expires_in = Returns delta /\
    _token_expiry c' = Some (now + delta) /\
    tasks c' = tasks c /\ _refresh_task c' = _refresh_task c /\
    trace c' = trace c.
Proof.
  unfold store_token_response. intros H.
  do 10 back H.
  match type of H with _save_tokens_to_storage ?c0 = _ =>
    destruct (_save_tokens_to_storage_run c0) as (s & Hsave) end.
  rewrite Hsave in H. injection H as <-. simpl.
  match goal with Hx : datetime_add _ _ = _ |- _ =>
    unfold datetime_add in Hx; destruct (_ && _) in Hx; inversion Hx; subst end.
  match goal with Hs : raise_for_status _ = _ |- _ =>
    unfold raise_for_status in Hs; destruct (is_success r); [|discriminate] end.
  eexists _, _, _. repeat split; eassumption.
Qed.

Lemma _step5_secondary_token_returns reply now initial_token c c' :
  _step5_secondary_token reply now initial_token c = Some (Returns tt, c') ->
  exists r, reply = HttpxResponse r /\
    store_token_response r now (set_trace (trace c ++ [EvPost "cd_secondary"]) c)
    = Some (Returns tt, c').
Proof.
  unfold _step5_secondary_token. intros H.
  apply try_except_returns in H as [H|(e & c1 & h & _ & Hh & H)].
  - back H. eauto.
  - destruct (is_a e TimeoutException); [injection Hh as <-; discriminate|].
    destruct (is_a e HTTPStatusError); [injection Hh as <-; discriminate|].
    discriminate.
Qed.

Lemma authenticate_returns json_loads fuel w c c' :
  authenticate json_loads fuel w c = Some (Returns tt, c') ->
  authenticate_steps json_loads fuel w c = Some (Returns tt, c').
Proof.
  unfold authenticate. intros H.
  apply try_except_returns in H as [H|(e & c1 & h & _ & Hh & H)]; [done|].
  injection Hh as <-. unfold bind in H. rewrite _clear_tokens_run in H. discriminate.
Qed.

(** C2, as the code has it. After a successful return of [authenticate()]
    the access token and the refresh token are the values of the fields
    [access_token] and [refresh_token] of the step-5 response, the expiry
    is set and equals the clock reading of step 5 plus [expires_in]
    seconds, which is later than that reading exactly when [expires_in] is
    positive, and the task the client refers to as its refresh task is a
    pending task of the event loop. *)
Theorem authenticate_success_stores_pair_and_starts_scheduler json_loads fuel w c c' :
  authenticate json_loads fuel w c = Some (Returns tt, c') ->
  exists r data expires_in delta id,
    step5_reply w = HttpxResponse r /\
    json r = Returns data /\
    subscript data "access_token" = Returns (_access_token c') /\
    subscript data "refresh_token" = Returns (_refresh_token c') /\
    subscript data "expires_in" = Returns expires_in /\
    timedelta_seconds expires_in = Returns delta /\
    _token_expiry c' = Some (step5_now w + delta) /\
    (step5_now w < step5_now w + delta <-> positive_seconds expires_in = true) /\
    _refresh_task c' = Some id /\
    tasks c' !! id = Some Pending.
Proof.
  intros H. apply authenticate_returns in H.
  unfold authenticate_steps in H.
  do 3 back H.
  match type of H with context [match ?p with pair _ _ => _ end] =>
    destruct p as [[tan_challenge_id tan_type] tan_poll_url] end.
  do 3 back H.
  match goal with H5 : _step5_secondary_token _ _ _ _ = _ |- _ =>
    apply _step5_secondary_token_returns in H5 as (r & Hreply & Hstore) end.
  apply store_token_response_returns in Hstore
    as (data & ei & delta & _ & Hj & Ha & Hr & He & Hd & Hx & _).
  match type of H with _start_refresh_task true ?c5 = _ =>
    destruct (_start_refresh_task_run c5)
      as (c'' & Hstart & (Ha' & Hr' & Hx') & Hid & Hp);
    rewrite Hstart in H; injection H as <-;
    exists r, data, ei, delta, (length (tasks c5))
  end.
  rewrite Ha', Hr', Hx'. repeat split; try done.
  - intros Hlt. unfold timedelta_seconds in Hd.
    destruct ei as [|b|n| | |]; try discriminate; simpl;
      destruct (_ && _) in Hd; try discriminate; injection Hd as <-.
    + destruct b; [done|]. unfold second in Hlt. lia.
    + apply Z.ltb_lt. unfold second in Hlt. lia.
  - intros Hpos. unfold timedelta_seconds in Hd.
    destruct ei as [|b|n| | |]; try discriminate; simpl in Hpos;
      destruct (_ && _) in Hd; try discriminate; injection Hd as <-.
    + subst b. unfold second. lia.
    + apply Z.ltb_lt in Hpos. unfold second. lia.
Qed.

Lemma authenticate_success_stores_pair_and_starts_scheduler_witness :
  authenticate table_loads 5 approved_world restored_client
  = Some (Returns tt, approved_state) /\
  exists r data expires_in delta id,
    step5_reply approved_world = HttpxResponse r /\
    json r = Returns data /\
    subscript data "access_token" = Returns (_access_token approved_state) /\
    subscript data "refresh_token" = Returns (_refresh_token approved_state) /\
    subscript data "expires_in" = Returns expires_in /\
    timedelta_seconds expires_in = Returns delta /\
    _token_expiry approved_state = Some (step5_now approved_world + delta) /\
    (step5_now approved_world < step5_now approved_world + delta
     <-> positive_seconds expires_in = true) /\
    _refresh_task approved_state = Some id /\
    tasks approved_state !! id = Some Pending.
Proof.
  split; [vm_compute; reflexivity|].
  apply (authenticate_success_stores_pair_and_starts_scheduler
           table_loads 5 approved_world restored_client approved_state).
  vm_compute; reflexivity.
Defined.

(** C2 as stated fails: the server may answer [expires_in = 0], and then
    [authenticate()] returns with an expiry that is not in the future of
    the step-5 clock reading. *)
Lemma authenticate_success_with_expiry_not_in_future :
  exists c',
    authenticate table_loads 5 zero_lifetime_world restored_client
    = Some (Returns tt, c') /\
    _token_expiry c' = Some (step5_now zero_lifetime_world) /\
    ~ (exists t, _token_expiry c' = Some t /\ step5_now zero_lifetime_world < t).
Proof.
  eexists. split; [vm_compute; reflexivity|].
  split; [reflexivity|].
  intros (t & Ht & Hlt). simpl in Ht. injection Ht as <-.
  vm_compute in Hlt. discriminate.
Qed.

(** ** Polling for the TAN *)

Lemma set_trace_set_trace t u c : set_trace t (set_trace u c) = set_trace t c.
Proof. reflexivity. Qed.

Lemma reported_status_inv reply v :
  reported_status reply = Some v ->
  exists r data,
    reply = HttpxResponse r /\ status_code r = 200 /\
    json r = Returns data /\ dict_get data "status" = Returns v.
Proof.
  unfold reported_status. destruct reply as [r|e|]; [|discriminate..].
  destruct (status_code r =? 200) eqn:Es; [|discriminate].
  destruct (json r) as [data| |] eqn:Ej; [|discriminate..].
  destruct (dict_get data "status") as [v'| |] eqn:Ed; [|discriminate..].
  intros [= <-]. exists r, data. apply Z.eqb_eq in Es. repeat split; assumption.
Qed.

(** One pass of the loop body on a reply that reports a status. *)
Lemma poll_once_status w i access_token poll_url tan_type c v :
  reported_status (poll_reply w i) = Some v ->
  poll_once w i access_token poll_url tan_type c =
    let polled := trace c ++ [EvSleep (poll_interval * second); EvGet poll_url] in
    if eq_str v "AUTHENTICATED" then
      Some (Returns Leave,
            set_trace
              (polled ++
               [EvTanStatus "approved"
                  [("tan_type", tan_type);
                   ("elapsed_seconds",
                    JNum (Z.quot (wake_time w i - start_time w) second))]]) c)
    else if eq_str v "PENDING" then
      Some (Returns Continue, set_trace (polled ++ progress_note w i tan_type) c)
    else
      Some (Raises (error AuthenticationError "Unexpected TAN status: "),
            set_trace polled c).
Proof.
  intros H. apply reported_status_inv in H as (r & data & Hr & Hs & Hj & Hd).
  unfold poll_once, await_sleep, asleep, sleep, bind, emit, modify, try_except,
    await_httpx, bind, emit, modify, ret, lift.
  rewrite Hr; simpl. rewrite Hs; simpl. rewrite Hj; simpl. rewrite Hd; simpl.
  rewrite <- app_assoc; simpl.
  destruct (eq_str v "AUTHENTICATED").
  - rewrite _invoke_tan_status_callback_run. reflexivity.
  - destruct (eq_str v "PENDING"); [|reflexivity].
    unfold progress_note.
    destruct ((_ mod 10 =? 0) && _).
    + rewrite _invoke_tan_status_callback_run. reflexivity.
    + rewrite app_nil_r. reflexivity.
Qed.

(** One pass of the loop body on a reply that keeps the loop going. *)
Lemma poll_once_keeps_polling w i access_token poll_url tan_type c :
  keeps_polling (poll_reply w i) = true ->
  exists notes,
    poll_once w i access_token poll_url tan_type c
    = Some (Returns Continue,
            set_trace (trace c ++ [EvSleep (poll_interval * second); EvGet poll_url]
                       ++ notes) c) /\
    count (is_tan_status "timeout") notes = 0%nat /\
    count is_poll notes = 0%nat.
Proof.
  unfold keeps_polling. intros H.
  destruct (poll_reply w i) as [r|e|] eqn:Er; [| |discriminate].
  - destruct (status_code r =? 200) eqn:Es.
    + destruct (reported_status (HttpxResponse r)) as [v|] eqn:Ev; [|discriminate].
      rewrite <- Er in Ev.
      rewrite (poll_once_status _ _ _ _ _ _ _ Ev). simpl.
      destruct v as [| | |s| |]; try discriminate. simpl in H.
      apply String.eqb_eq in H. subst s. simpl.
      exists (progress_note w i tan_type).
      rewrite <- app_assoc. split; [reflexivity|].
      unfold progress_note. destruct (_ && _); split; reflexivity.
    + exists []. split; [|split; reflexivity].
      unfold poll_once, await_sleep, asleep, sleep, bind, emit, modify, try_except,
        await_httpx, bind, emit, modify, ret.
      rewrite Er; simpl. rewrite Es; simpl.
      rewrite <- app_assoc. reflexivity.
  - exists []. split; [|split; reflexivity].
    unfold poll_once, await_sleep, asleep, sleep, bind, emit, modify, try_except,
      await_httpx, bind, emit, modify, raise.
    rewrite Er; simpl. rewrite H. unfold ret.
    rewrite <- app_assoc. reflexivity.
Qed.

Lemma progress_note_is_silent w i tan_type :
  List.filter is_sleep_or_poll (progress_note w i tan_type) = [] /\
  count (is_tan_status "approved") (progress_note w i tan_type) = 0%nat /\
  count (is_tan_status "timeout") (progress_note w i tan_type) = 0%nat /\
  count is_poll (progress_note w i tan_type) = 0%nat.
Proof. unfold progress_note. destruct (_ && _); repeat split; reflexivity. Qed.

(** C5. Let the first three polls of step 4 be answered 200 with status
    PENDING, PENDING, AUTHENTICATED.  Step 4 ends; the three replies are
    received, that is, three polls are made, exactly when the loop test
    finds budget left before each of them; and whenever they are received
    step 4 returns normally, what it did in between is sleep one second
    and poll, three times over, and it emitted exactly one "approved"
    notification.  On a clock that advances, the third request leaves at
    least two seconds after the first. *)
Theorem tan_approved_on_third_poll w fuel access_token poll_url tan_type c :
  (3 <= fuel)%nat ->
  reported_status (poll_reply w 0) = Some (JStr "PENDING") ->
  reported_status (poll_reply w 1) = Some (JStr "PENDING") ->
  reported_status (poll_reply w 2) = Some (JStr "AUTHENTICATED") ->
  exists o c' produced,
    _step4_poll_tan_approval fuel w access_token poll_url tan_type c = Some (o, c') /\
    trace c' = trace c ++ produced /\
    (within_budget w 0 /\ within_budget w 1 /\ within_budget w 2
     <-> count is_poll produced = 3%nat) /\
    (count is_poll produced = 3%nat ->
     o = Returns tt /\
     List.filter is_sleep_or_poll produced
     = [EvSleep (poll_interval * second); EvGet poll_url;
        EvSleep (poll_interval * second); EvGet poll_url;
        EvSleep (poll_interval * second); EvGet poll_url] /\
     count (is_tan_status "approved") produced = 1%nat) /\
    (clock_advances w -> 2 * second <= wake_time w 2 - guard_time w 1).
Proof.
  intros Hfuel R0 R1 R2.
  destruct fuel as [|[|[|fuel]]]; try lia. clear Hfuel.
  destruct (progress_note_is_silent w 0 tan_type) as (F0 & A0 & _ & P0).
  destruct (progress_note_is_silent w 1 tan_type) as (F1 & A1 & _ & P1).
  assert (Hclock : clock_advances w -> 2 * second <= wake_time w 2 - guard_time w 1).
  { intros (_ & Hclock).
    pose proof (Hclock 1%nat) as [H1 H1'].
    pose proof (Hclock 2%nat) as [H2 _].
    unfold poll_interval, second in *. lia. }
  unfold within_budget, _step4_poll_tan_approval, bind.
  rewrite _invoke_tan_status_callback_run.
  cbn [poll_loop]. unfold bind.
  destruct (guard_time w 0 - start_time w <? timeout * second) eqn:G0.
  2: { rewrite _invoke_tan_status_callback_run. unfold raise.
       apply Z.ltb_ge in G0.
       eexists _, _, _. split; [reflexivity|].
       split; [cbn [trace set_trace]; rewrite <- !app_assoc; reflexivity|].
       split; [|split; [discriminate|exact Hclock]].
       split; [lia|discriminate]. }
  rewrite (poll_once_status _ _ _ _ _ _ _ R0).
  cbn [eq_str String.eqb Ascii.eqb Bool.eqb]. cbv zeta. cbn [poll_loop]. unfold bind.
  destruct (guard_time w 1 - start_time w <? timeout * second) eqn:G1.
  2: { rewrite _invoke_tan_status_callback_run. unfold raise.
       apply Z.ltb_ge in G1.
       eexists _, _, _. split; [reflexivity|].
       split; [cbn [trace set_trace]; rewrite <- !app_assoc; reflexivity|].
       rewrite !count_app, P0.
       split; [|split; [discriminate|exact Hclock]].
       split; [lia|discriminate]. }
  rewrite (poll_once_status _ _ _ _ _ _ _ R1).
  cbn [eq_str String.eqb Ascii.eqb Bool.eqb]. cbv zeta. cbn [poll_loop]. unfold bind.
  destruct (guard_time w 2 - start_time w <? timeout * second) eqn:G2.
  2: { rewrite _invoke_tan_status_callback_run. unfold raise.
       apply Z.ltb_ge in G2.
       eexists _, _, _. split; [reflexivity|].
       split; [cbn [trace set_trace]; rewrite <- !app_assoc; reflexivity|].
       rewrite !count_app, P0, P1.
       split; [|split; [discriminate|exact Hclock]].
       split; [lia|discriminate]. }
  rewrite (poll_once_status _ _ _ _ _ _ _ R2).
  cbn [eq_str String.eqb Ascii.eqb Bool.eqb]. cbv zeta. unfold ret.
  apply Z.ltb_lt in G0, G1, G2.
  eexists _, _, _. split; [reflexivity|].
  split; [cbn [trace set_trace]; rewrite <- !app_assoc; reflexivity|].
  split.
  { rewrite !count_app, P0, P1. split; [reflexivity|done]. }
  split; [|exact Hclock].
  intros _. split; [reflexivity|]. split.
  - rewrite !List.filter_app, F0, F1. reflexivity.
  - rewrite !count_app, A0, A1. reflexivity.
Qed.

Lemma tan_approved_on_third_poll_witness :
  exists o c' produced,
    _step4_poll_tan_approval 3 (ticking approve_third)
      (JStr "restricted") (JStr "/api/session/poll") (JStr "P_TAN_PUSH") restored_client
    = Some (o, c') /\
    trace c' = trace restored_client ++ produced /\
    (within_budget (ticking approve_third) 0 /\
     within_budget (ticking approve_third) 1 /\
     within_budget (ticking approve_third) 2
     <-> count is_poll produced = 3%nat) /\
    (count is_poll produced = 3%nat ->
     o = Returns tt /\
     List.filter is_sleep_or_poll produced
     = [EvSleep (poll_interval * second); EvGet (JStr "/api/session/poll");
        EvSleep (poll_interval * second); EvGet (JStr "/api/session/poll");
        EvSleep (poll_interval * second); EvGet (JStr "/api/session/poll")] /\
     count (is_tan_status "approved") produced = 1%nat) /\
    (clock_advances (ticking approve_third) ->
     2 * second <= wake_time (ticking approve_third) 2
                   - guard_time (ticking approve_third) 1).
Proof.
  apply (tan_approved_on_third_poll (ticking approve_third) 3
           (JStr "restricted") (JStr "/api/session/poll") (JStr "P_TAN_PUSH")
           restored_client);
    first [ lia | reflexivity ].
Defined.

(** With [n] seconds of the budget left at the loop test of pass [i], the
    loop makes at most [n] more polls and then gives up. *)
Lemma poll_loop_gives_up w access_token poll_url tan_type :
  clock_advances w ->
  (forall i, within_budget w i -> keeps_polling (poll_reply w i) = true) ->
  forall (n i fuel : nat) c,
    (n < fuel)%nat ->
    (timeout - Z.of_nat n) * second <= guard_time w i - start_time w ->
    exists produced,
      poll_loop fuel w i access_token poll_url tan_type c
      = Some (Raises (error TANTimeoutError "TAN approval timed out after 60 seconds"),
              set_trace (trace c ++ produced ++ [timeout_note tan_type]) c) /\
      count (is_tan_status "timeout") produced = 0%nat /\
      (count is_poll produced <= n)%nat.
Proof.
  intros [_ Hclock] Hreplies.
  induction n as [|n IH]; intros i fuel c Hfuel Hguard.
  - destruct fuel as [|fuel]; [lia|]. cbn [poll_loop].
    assert (E : (guard_time w i - start_time w <? timeout * second) = false).
    { apply Z.ltb_ge. simpl in Hguard. unfold timeout in *. lia. }
    rewrite E. unfold bind. rewrite _invoke_tan_status_callback_run. unfold raise.
    exists []. split; [reflexivity|]. split; [reflexivity|unfold count; simpl; lia].
  - destruct fuel as [|fuel]; [lia|]. cbn [poll_loop].
    destruct (guard_time w i - start_time w <? timeout * second) eqn:E.
    + apply Z.ltb_lt in E.
      destruct (poll_once_keeps_polling w i access_token poll_url tan_type c
                  (Hreplies i E)) as (notes & Hrun & Hn1 & Hn2).
      unfold bind. rewrite Hrun.
      destruct (Hclock i) as [Hsleep Hnext].
      edestruct (IH (S i) fuel
                   (set_trace (trace c ++ [EvSleep (poll_interval * second); EvGet poll_url]
                               ++ notes) c))
        as (produced & Hloop & Hp1 & Hp2).
      { lia. }
      { unfold poll_interval, second, timeout in *. lia. }
      rewrite Hloop.
      exists ([EvSleep (poll_interval * second); EvGet poll_url] ++ notes ++ produced).
      split.
      { cbn [trace set_trace]. rewrite set_trace_set_trace.
        rewrite <- !app_assoc. reflexivity. }
      rewrite !count_app, Hn1, Hn2, Hp1. simpl. split; [reflexivity|lia].
    + unfold bind. rewrite _invoke_tan_status_callback_run. unfold raise.
      exists []. split; [reflexivity|]. split; [reflexivity|unfold count; simpl; lia].
Qed.

(** C6, as the code has it. Let steps 1 to 3 of [authenticate()] have
    succeeded, let the clock advance, and let every poll made within the
    60-second budget be answered in a way that keeps the loop polling
    (status PENDING, a response other than 200, or a timeout of the single
    request).  Then, given fuel for 61 passes, [authenticate()] raises the
    [TANTimeoutError] of step 4 with the token pair cleared; step 4 makes
    at most 60 polls; it emits exactly one "timeout" notification, and that
    notification is the last thing that happens: no poll follows the loop
    test that found the budget used up. *)
Theorem tan_timeout_ends_authentication json_loads fuel w c
    initial_token session_uuid challenge_id tan_type poll_url c3 :
  reach_polling json_loads w c
  = Some (Returns (initial_token, session_uuid, (challenge_id, tan_type, poll_url)), c3) ->
  clock_advances (polling w) ->
  (forall i, within_budget (polling w) i ->
             keeps_polling (poll_reply (polling w) i) = true) ->
  (61 <= fuel)%nat ->
  exists c' produced,
    authenticate json_loads fuel w c
    = Some (Raises (error TANTimeoutError "TAN approval timed out after 60 seconds"), c') /\
    trace c' = trace c3 ++ produced ++ [timeout_note tan_type] /\
    count (is_tan_status "timeout") produced = 0%nat /\
    (count is_poll produced <= 60)%nat /\
    tokens_cleared c'.
Proof.
  intros Hsteps Hclock Hreplies Hfuel.
  unfold reach_polling in Hsteps. do 3 back Hsteps.
  injection Hsteps as -> -> -> ->.
  pose (c4 := set_trace
                (trace c3 ++
                 [EvTanStatus "pending"
                    [("tan_type", tan_type); ("timeout_seconds", JNum timeout);
                     ("elapsed_seconds", JNum 0)]]) c3).
  destruct (poll_loop_gives_up (polling w) initial_token poll_url tan_type Hclock Hreplies
              60 0%nat fuel c4) as (produced & Hloop & Hp1 & Hp2).
  { lia. }
  { destruct Hclock as [H0 _]. unfold timeout. simpl. lia. }
  assert (Hraise :
    authenticate_steps json_loads fuel w c
    = Some (Raises (error TANTimeoutError "TAN approval timed out after 60 seconds"),
            set_trace (trace c4 ++ produced ++ [timeout_note tan_type]) c4)).
  { unfold authenticate_steps, bind.
    rewrite Hrun, Hrun0, Hrun1.
    unfold _step4_poll_tan_approval, bind.
    rewrite _invoke_tan_status_callback_run. fold c4. rewrite Hloop. reflexivity. }
  apply authenticate_reraises in Hraise.
  eexists _,
    ([EvTanStatus "pending"
        [("tan_type", tan_type); ("timeout_seconds", JNum timeout);
         ("elapsed_seconds", JNum 0)]] ++ produced).
  split; [exact Hraise|].
  split.
  { match goal with |- trace (cancel_refresh_task ?x) = _ =>
      destruct (cancel_refresh_task_frame x) as (_ & -> & _) end.
    subst c4. simpl. rewrite <- !app_assoc. reflexivity. }
  split; [rewrite count_app, Hp1; reflexivity|].
  split; [rewrite count_app; simpl; lia|apply tokens_cleared_after_clear].
Qed.

Lemma tan_timeout_ends_authentication_witness :
  exists c' produced,
    authenticate table_loads 61 never_approved_world restored_client
    = Some (Raises (error TANTimeoutError "TAN approval timed out after 60 seconds"), c') /\
    trace c' = trace polling_reached_state ++ produced
               ++ [timeout_note (JStr "P_TAN_PUSH")] /\
    count (is_tan_status "timeout") produced = 0%nat /\
    (count is_poll produced <= 60)%nat /\
    tokens_cleared c'.
Proof.
  apply (tan_timeout_ends_authentication table_loads 61 never_approved_world
           restored_client (JStr "restricted") (JStr "session-1") (JStr "4711")
           (JStr "P_TAN_PUSH") (JStr "/api/session/poll") polling_reached_state).
  - vm_compute; reflexivity.
  - split; [simpl; unfold second; lia|].
    intros i; simpl. unfold poll_interval, second. lia.
  - intros i _. reflexivity.
  - lia.
Defined.

(** C6 as stated fails: a poll answered with a status that is neither
    AUTHENTICATED nor PENDING ends step 4 with an [AuthenticationError],
    and no "timeout" notification is emitted. *)
Lemma unexpected_status_is_not_a_timeout :
  (forall i, reported_status (poll_reply (polling rejected_world) i)
             <> Some (JStr "AUTHENTICATED")) /\
  exists c',
    authenticate table_loads 61 rejected_world restored_client
    = Some (Raises (error AuthenticationError "Unexpected TAN status: "), c') /\
    count (is_tan_status "timeout") (trace c') = 0%nat.
Proof.
  split; [intros i; simpl; discriminate|].
  eexists. split; [vm_compute; reflexivity|]. vm_compute; reflexivity.
Qed.

(** ** The TAN challenge *)



(** ** Observers *)

Lemma alike_inv c1 c2 :
  alike c1 c2 -> exists r t, c2 = set_callbacks r t c1.
Proof.
  destruct c1, c2. unfold alike, set_callbacks; simpl.
  intros [= -> -> -> -> -> -> -> -> ->]. eexists _, _. reflexivity.
Qed.

(** Functions on the client that neither read nor write the observers. *)
Ltac blind_to_observers :=
  let c1 := fresh "c" in
  let c2 := fresh "c" in
  let H := fresh "H" in
  let r := fresh "r" in
  let t := fresh "t" in
  intros c1 c2 H; apply alike_inv in H as (r & t & ->);
  destruct c1;
  unfold alike, cancel_refresh_task, create_task, finish, is_authenticated;
  cbv beta; simpl;
  repeat case_match; reflexivity.

Lemma alike_cancel_refresh_task c1 c2 :
  alike c1 c2 -> alike (cancel_refresh_task c1) (cancel_refresh_task c2).
Proof. revert c1 c2. unfold cancel_refresh_task. blind_to_observers. Qed.

Lemma respects_ret {A} (a : A) : respects (ret a).
Proof. intros c1 c2 H. simpl. done. Qed.

Lemma respects_raise {A} e : respects (@raise A e).
Proof. intros c1 c2 H. simpl. done. Qed.

Lemma respects_cancelled {A} : respects (@cancelled A).
Proof. intros c1 c2 H. simpl. done. Qed.

Lemma respects_out_of_fuel {A} : respects (@out_of_fuel A).
Proof. intros c1 c2 H. exact I. Qed.

Lemma respects_lift {A} (o : outcome A) : respects (lift o).
Proof.
  destruct o; [apply respects_ret|apply respects_raise|apply respects_cancelled].
Qed.

Lemma respects_bind {A B} (m : M A) (k : A -> M B) :
  respects m -> (forall a, respects (k a)) -> respects (bind m k).
Proof.
  intros Hm Hk c1 c2 H. unfold bind.
  specialize (Hm c1 c2 H). unfold same_run in Hm.
  destruct (m c1) as [[o1 c1']|], (m c2) as [[o2 c2']|]; try done.
  destruct Hm as [<- Hc]. destruct o1 as [a|e|]; [apply Hk; exact Hc|done..].
Qed.

Lemma respects_try_except {A} (m : M A) handler :
  respects m ->
  (forall e, match handler e with Some h => respects h | None => True end) ->
  respects (try_except m handler).
Proof.
  intros Hm Hh c1 c2 H. unfold try_except.
  specialize (Hm c1 c2 H). unfold same_run in Hm.
  destruct (m c1) as [[o1 c1']|], (m c2) as [[o2 c2']|]; try done.
  destruct Hm as [<- Hc]. destruct o1 as [a|e|]; [done| |done].
  specialize (Hh e). destruct (handler e) as [h|]; [apply Hh; exact Hc|done].
Qed.

Lemma respects_try_except_cancelled {A} (m : M A) on_cancel handler :
  respects m ->
  respects on_cancel ->
  (forall e, match handler e with Some h => respects h | None => True end) ->
  respects (try_except_cancelled m on_cancel handler).
Proof.
  intros Hm Hc Hh c1 c2 H. unfold try_except_cancelled.
  specialize (Hm c1 c2 H). unfold same_run in Hm.
  destruct (m c1) as [[o1 c1']|], (m c2) as [[o2 c2']|]; try done.
  destruct Hm as [<- Hc']. destruct o1 as [a|e|]; [done| |apply Hc; exact Hc'].
  specialize (Hh e). destruct (handler e) as [h|]; [apply Hh; exact Hc'|done].
Qed.

Lemma respects_modify f :
  (forall c1 c2, alike c1 c2 -> alike (f c1) (f c2)) -> respects (modify f).
Proof. intros Hf c1 c2 H. simpl. split; [done|apply Hf; exact H]. Qed.

Lemma respects_gets {A} (f : ComdirectClient -> A) :
  (forall c1 c2, alike c1 c2 -> f c1 = f c2) -> respects (gets f).
Proof. intros Hf c1 c2 H. simpl. split; [f_equal; apply Hf; exact H|exact H]. Qed.

Lemma respects_emit e : respects (emit e).
Proof. apply respects_modify. blind_to_observers. Qed.

(** The two dispatchers: whatever the observers do. *)
Lemma respects_tan_status_callback status data :
  respects (_invoke_tan_status_callback status data).
Proof.
  intros c1 c2 H. rewrite !_invoke_tan_status_callback_run. simpl.
  split; [done|]. revert c1 c2 H. blind_to_observers.
Qed.

Lemma alike_set_tokens a r e c1 c2 :
  alike c1 c2 -> alike (set_tokens a r e c1) (set_tokens a r e c2).
Proof. revert c1 c2. blind_to_observers. Qed.

Lemma alike_emitted ev c1 c2 :
  alike c1 c2 ->
  alike (set_trace (trace c1 ++ ev) c1) (set_trace (trace c2 ++ ev) c2).
Proof. revert c1 c2. blind_to_observers. Qed.

Lemma respects_reauth_callback reason : respects (_invoke_reauth_callback reason).
Proof.
  intros c1 c2 H. rewrite !_invoke_reauth_callback_run. simpl.
  split; [done|].
  destruct (cancel_refresh_task_frame (set_tokens JNull JNull None c1)) as (_ & T1 & _).
  destruct (cancel_refresh_task_frame (set_tokens JNull JNull None c2)) as (_ & T2 & _).
  simpl in T1, T2. rewrite <- T1, <- T2.
  apply alike_emitted, alike_cancel_refresh_task, alike_set_tokens, H.
Qed.

Lemma respects_save_tokens_to_storage : respects _save_tokens_to_storage.
Proof.
  intros c1 c2 H. apply alike_inv in H as (r & t & ->).
  unfold _save_tokens_to_storage, bind, get, try_except; simpl.
  destruct (_token_expiry c1) as [expiry|]; [|simpl; done].
  destruct (truthy (_access_token c1) && truthy (_refresh_token c1)); [|simpl; done].
  destruct (save_tokens _ _ _ _) as [[[]|e|] s]; simpl.
  - split; [done|]. destruct c1; reflexivity.
  - destruct (is_a e TokenStorageError); simpl; (split; [done|]); destruct c1; reflexivity.
  - split; [done|]. destruct c1; reflexivity.
Qed.

Create HintDb respects discriminated.

#[local] Hint Resolve respects_ret respects_raise respects_cancelled
  respects_out_of_fuel respects_lift
  respects_emit respects_tan_status_callback respects_reauth_callback
  respects_save_tokens_to_storage : respects.

(** Walks through a computation built from the monad's operations. *)
Ltac respects_step :=
  lazymatch goal with
  | |- respects (bind _ _) => apply respects_bind; [|intros ?]
  | |- respects (try_except _ _) => apply respects_try_except; [|intros ?]
  | |- respects (try_except_cancelled _ _ _) =>
      apply respects_try_except_cancelled; [| |intros ?]
  | |- respects (modify _) => apply respects_modify; blind_to_observers
  | |- respects (gets _) => apply respects_gets; blind_to_observers
  | |- respects (sleep _) => apply respects_emit
  | |- respects (await_httpx _ _) => unfold await_httpx
  | |- respects (await_bravado _ _) => unfold await_bravado
  | |- respects (await_sleep _ _) => unfold await_sleep
  | |- respects (assign_access_token _) => unfold assign_access_token
  | |- respects (assign_refresh_token _) => unfold assign_refresh_token
  | |- respects (assign_token_expiry _) => unfold assign_token_expiry
  | |- respects (match ?x with _ => _ end) => destruct x
  | |- match (match ?x with _ => _ end) with _ => _ end => destruct x
  | |- match Some _ with _ => _ end => cbv iota beta
  | |- match None with _ => _ end => exact I
  | |- True => exact I
  | |- _ => solve [auto with respects]
  end.

Ltac respects_walk := repeat respects_step.

Lemma respects_clear_tokens : respects _clear_tokens.
Proof. unfold _clear_tokens. respects_walk. Qed.

Lemma respects_start_refresh_task running : respects (_start_refresh_task running).
Proof. unfold _start_refresh_task. respects_walk. Qed.

Lemma respects_store_token_response r now : respects (store_token_response r now).
Proof. unfold store_token_response. respects_walk. Qed.

#[local] Hint Resolve respects_clear_tokens respects_start_refresh_task
  respects_store_token_response : respects.

Lemma respects_step1 reply : respects (_step1_password_credentials reply).
Proof. unfold _step1_password_credentials. respects_walk. Qed.

Lemma respects_step2 reply t : respects (_step2_session_status reply t).
Proof. unfold _step2_session_status. respects_walk. Qed.

Lemma respects_step3 json_loads reply t s :
  respects (_step3_tan_challenge json_loads reply t s).
Proof. unfold _step3_tan_challenge. respects_walk. Qed.

Lemma respects_poll_once w i t u ty : respects (poll_once w i t u ty).
Proof. unfold poll_once. respects_walk. Qed.

#[local] Hint Resolve respects_poll_once : respects.

Lemma respects_poll_loop fuel w : forall i t u ty, respects (poll_loop fuel w i t u ty).
Proof.
  induction fuel as [|fuel IH]; intros i t u ty; cbn [poll_loop];
    [apply respects_out_of_fuel|].
  respects_walk; apply IH.
Qed.

Lemma respects_step4 fuel w t u ty : respects (_step4_poll_tan_approval fuel w t u ty).
Proof. unfold _step4_poll_tan_approval. respects_walk; apply respects_poll_loop. Qed.

Lemma respects_step4b reply t s ch : respects (_step4b_activate_session reply t s ch).
Proof. unfold _step4b_activate_session. respects_walk. Qed.

Lemma respects_step5 reply now t : respects (_step5_secondary_token reply now t).
Proof. unfold _step5_secondary_token. respects_walk. Qed.

#[local] Hint Resolve respects_step1 respects_step2 respects_step3 respects_step4
  respects_step4b respects_step5 : respects.

Lemma respects_authenticate json_loads fuel w : respects (authenticate json_loads fuel w).
Proof. unfold authenticate, authenticate_steps. respects_walk. Qed.

Lemma respects_refresh_token reply now : respects (refresh_token reply now).
Proof. unfold refresh_token. respects_walk. Qed.

#[local] Hint Resolve respects_refresh_token : respects.

Lemma respects_loop_once r : respects (loop_once r).
Proof. unfold loop_once. respects_walk. Qed.

Lemma respects_token_refresh_loop fuel w :
  forall i, respects (_token_refresh_loop fuel w i).
Proof.
  induction fuel as [|fuel IH]; intros i; cbn [_token_refresh_loop];
    [apply respects_out_of_fuel|].
  apply respects_bind; [apply respects_loop_once|].
  intros []; [apply IH|apply respects_ret].
Qed.

(** C8. Take any client and register any observers on it, raising or
    not, and any other observers, for instance ones that always return.
    Then [authenticate()], [refresh_token()] and the scheduler loop end
    the same way on both clients: the same return value or the same
    exception, and final clients that agree on everything but the
    observers, the token pair included.  What an observer raises never
    reaches the caller. *)
Theorem observers_cannot_change_the_outcome json_loads c
    reauth reauth' tan_status tan_status' :
  (forall fuel w,
     same_run (authenticate json_loads fuel w (set_callbacks reauth tan_status c))
              (authenticate json_loads fuel w (set_callbacks reauth' tan_status' c))) /\
  (forall reply now,
     same_run (refresh_token reply now (set_callbacks reauth tan_status c))
              (refresh_token reply now (set_callbacks reauth' tan_status' c))) /\
  (forall fuel w i,
     same_run (_token_refresh_loop fuel w i (set_callbacks reauth tan_status c))
              (_token_refresh_loop fuel w i (set_callbacks reauth' tan_status' c))).
Proof.
  assert (H : alike (set_callbacks reauth tan_status c)
                    (set_callbacks reauth' tan_status' c)) by reflexivity.
  split; [|split].
  - intros fuel w. apply respects_authenticate, H.
  - intros reply now. apply respects_refresh_token, H.
  - intros fuel w i. apply respects_token_refresh_loop, H.
Qed.

Lemma observers_cannot_change_the_outcome_witness :
  same_run
    (authenticate table_loads 5 approved_world restored_client)
    (authenticate table_loads 5 approved_world
       (set_callbacks (Some quiet_reauth) (Some quiet_tan_status) restored_client)) /\
  authenticate table_loads 5 approved_world restored_client
  = Some (Returns tt, approved_state) /\
  same_run
    (refresh_token (ok 401 JNull) 77 restored_client)
    (refresh_token (ok 401 JNull) 77
       (set_callbacks (Some quiet_reauth) (Some quiet_tan_status) restored_client)).
Proof.
  destruct (observers_cannot_change_the_outcome table_loads restored_client
              (Some raising_reauth) (Some quiet_reauth)
              (Some raising_tan_status) (Some quiet_tan_status))
    as (Hauth & Hrefresh & _).
  split; [exact (Hauth 5%nat approved_world)|].
  split; [vm_compute; reflexivity|].
  exact (Hrefresh (ok 401 JNull) 77).
Defined.

(** ** The scheduler task *)

Lemma hoare_bind {A B} P (m : M A) (k : A -> M B) R Q :
  hoare P m R ->
  (forall a, hoare (R (Returns a)) (k a) Q) ->
  (forall e c, R (Raises e) c -> Q (Raises e) c) ->
  (forall c, R Cancelled c -> Q Cancelled c) ->
  hoare P (bind m k) Q.
Proof.
  intros Hm Hk He Hc c o c' HP. unfold bind.
  destruct (m c) as [[[a|e|] c1]|] eqn:E; [| | |discriminate].
  - intros H. eapply Hk; [|exact H]. eapply Hm; eauto.
  - intros [= <- <-]. apply He. eapply Hm; eauto.
  - intros [= <- <-]. apply Hc. eapply Hm; eauto.
Qed.

Lemma hoare_weaken {A} (P P' : ComdirectClient -> Prop) (m : M A)
    (Q Q' : outcome A -> ComdirectClient -> Prop) :
  hoare P' m Q' ->
  (forall c, P c -> P' c) ->
  (forall o c, Q' o c -> Q o c) ->
  hoare P m Q.
Proof. intros H HP HQ c o c' Hc Hrun. apply HQ. eapply H; eauto. Qed.

Lemma keeps_ret {A} (a : A) : keeps (ret a).
Proof. intros c o c' H [= <- <-]. exact H. Qed.

Lemma keeps_raise {A} e : keeps (@raise A e).
Proof. intros c o c' H [= <- <-]. exact H. Qed.

Lemma keeps_out_of_fuel {A} : keeps (@out_of_fuel A).
Proof. intros c o c' H. discriminate. Qed.

Lemma keeps_cancelled {A} : keeps (@cancelled A).
Proof. intros c o c' H [= <- <-]. exact H. Qed.

Lemma keeps_lift {A} (o : outcome A) : keeps (lift o).
Proof. destruct o; [apply keeps_ret|apply keeps_raise|apply keeps_cancelled]. Qed.

Lemma keeps_bind {A B} (m : M A) (k : A -> M B) :
  keeps m -> (forall a, keeps (k a)) -> keeps (bind m k).
Proof.
  intros Hm Hk. eapply hoare_bind; [exact Hm|exact Hk| |].
  - intros e c H; exact H.
  - intros c H; exact H.
Qed.

Lemma keeps_try_except {A} (m : M A) handler :
  keeps m ->
  (forall e, match handler e with Some h => keeps h | None => True end) ->
  keeps (try_except m handler).
Proof.
  intros Hm Hh c o c' HP. unfold try_except.
  destruct (m c) as [[[a|e|] c1]|] eqn:E; [| | |discriminate].
  - intros [= <- <-]. eapply Hm; eauto.
  - specialize (Hh e). destruct (handler e) as [h|].
    + intros H. eapply Hh; [|exact H]. eapply Hm; eauto.
    + intros [= <- <-]. eapply Hm; eauto.
  - intros [= <- <-]. eapply Hm; eauto.
Qed.

Lemma keeps_try_except_cancelled {A} (m : M A) on_cancel handler :
  keeps m ->
  keeps on_cancel ->
  (forall e, match handler e with Some h => keeps h | None => True end) ->
  keeps (try_except_cancelled m on_cancel handler).
Proof.
  intros Hm Hc Hh c o c' HP. unfold try_except_cancelled.
  destruct (m c) as [[[a|e|] c1]|] eqn:E; [| | |discriminate].
  - intros [= <- <-]. eapply Hm; eauto.
  - specialize (Hh e). destruct (handler e) as [h|].
    + intros H. eapply Hh; [|exact H]. eapply Hm; eauto.
    + intros [= <- <-]. eapply Hm; eauto.
  - intros H. eapply Hc; [|exact H]. eapply Hm; eauto.
Qed.

Lemma keeps_modify f :
  (forall c, scheduler_invariant c -> scheduler_invariant (f c)) -> keeps (modify f).
Proof. intros Hf c o c' H [= <- <-]. apply Hf, H. Qed.

Lemma keeps_gets {A} (f : ComdirectClient -> A) : keeps (gets f).
Proof. intros c o c' H [= <- <-]. exact H. Qed.

(** The invariant reads three fields only. *)
Lemma scheduler_invariant_ext c c' :
  tasks c' = tasks c -> _refresh_task c' = _refresh_task c ->
  (_token_expiry c' = None -> _token_expiry c = None) ->
  scheduler_invariant c -> scheduler_invariant c'.
Proof.
  intros Ht Hr He [H1 H2]. split.
  - intros id. rewrite Ht, Hr. apply H1.
  - intros Hn id. rewrite Ht. apply H2, He, Hn.
Qed.

Lemma keeps_emit e : keeps (emit e).
Proof.
  apply keeps_modify. intros c. apply scheduler_invariant_ext; simpl; auto.
Qed.

(** What [cancel()] on the client's task leaves pending. *)
Lemma cancel_refresh_task_pending c id :
  tasks (cancel_refresh_task c) !! id = Some Pending ->
  tasks c !! id = Some Pending /\ _refresh_task c <> Some id.
Proof.
  unfold cancel_refresh_task, cancel.
  destruct (_refresh_task c) as [rid|] eqn:Er; [|done].
  destruct (tasks c !! rid) as [t|] eqn:Et.
  - destruct t; simpl; rewrite ?Et; intros H.
    + destruct (decide (rid = id)) as [->|Hne].
      * apply lookup_lt_Some in Et.
        rewrite list_lookup_insert_eq in H by done. discriminate.
      * rewrite list_lookup_insert_ne in H by done. split; [done|congruence].
    + split; [done|]. intros [= ->]. congruence.
    + split; [done|]. intros [= ->]. congruence.
  - intros H. split; [done|]. intros [= ->]. congruence.
Qed.

Lemma cancel_refresh_task_leaves_none_alive c :
  one_scheduler c -> forall id, tasks (cancel_refresh_task c) !! id <> Some Pending.
Proof.
  intros H id Hp. apply cancel_refresh_task_pending in Hp as [Hp Hne].
  apply Hne, H, Hp.
Qed.

Lemma scheduler_invariant_cancel c :
  scheduler_invariant c -> scheduler_invariant (cancel_refresh_task c).
Proof.
  intros [H1 H2]. split.
  - intros id Hp. exfalso. eapply cancel_refresh_task_leaves_none_alive; eauto.
  - intros _ id. apply cancel_refresh_task_leaves_none_alive, H1.
Qed.

Lemma scheduler_invariant_clear c :
  one_scheduler c ->
  scheduler_invariant (cancel_refresh_task (set_tokens JNull JNull None c)).
Proof.
  intros H1.
  assert (H : forall id,
    tasks (cancel_refresh_task (set_tokens JNull JNull None c)) !! id <> Some Pending).
  { apply cancel_refresh_task_leaves_none_alive. exact H1. }
  split.
  - intros id Hp. exfalso. exact (H id Hp).
  - intros _. exact H.
Qed.

Lemma scheduler_invariant_finish id c :
  scheduler_invariant c -> scheduler_invariant (finish id c).
Proof.
  assert (Hp : forall j, tasks (finish id c) !! j = Some Pending ->
                         tasks c !! j = Some Pending).
  { intros j. unfold finish; simpl. destruct (decide (id = j)) as [->|Hne].
    - intros H. assert (Hlt : (j < length (tasks c))%nat).
      { apply lookup_lt_Some in H. rewrite length_insert in H. exact H. }
      rewrite list_lookup_insert_eq in H by done. discriminate.
    - rewrite list_lookup_insert_ne by done. done. }
  intros [H1 H2]. split.
  - intros j Hj. apply Hp in Hj. simpl. apply H1, Hj.
  - intros Hn j Hj. apply Hp in Hj. exact (H2 Hn j Hj).
Qed.

(** Spawning the scheduler task when an expiry is set. *)
Lemma scheduler_invariant_start c :
  one_scheduler c -> _token_expiry c <> None ->
  scheduler_invariant (create_task (cancel_refresh_task c)).
Proof.
  intros H1 He.
  pose proof (cancel_refresh_task_leaves_none_alive c H1) as Hnone.
  split.
  - intros id Hp. unfold create_task in *; simpl in *.
    destruct (decide (id < length (tasks (cancel_refresh_task c)))%nat) as [Hlt|Hge].
    + rewrite lookup_app_l in Hp by done. exfalso. exact (Hnone id Hp).
    + apply lookup_lt_Some in Hp as Hlen. rewrite length_app in Hlen. simpl in Hlen.
      f_equal. lia.
  - intros Hn. exfalso. apply He.
    unfold create_task in Hn; simpl in Hn.
    destruct (cancel_refresh_task_tokens c) as (_ & _ & <-). exact Hn.
Qed.

Lemma keeps_clear_tokens : keeps _clear_tokens.
Proof.
  intros c o c' [H1 _]. rewrite _clear_tokens_run. intros [= <- <-].
  apply scheduler_invariant_clear, H1.
Qed.

Lemma keeps_tan_status_callback status data :
  keeps (_invoke_tan_status_callback status data).
Proof.
  intros c o c' H. rewrite _invoke_tan_status_callback_run. intros [= <- <-].
  revert H. apply scheduler_invariant_ext; simpl; auto.
Qed.

Lemma keeps_reauth_callback reason : keeps (_invoke_reauth_callback reason).
Proof.
  intros c o c' [H1 _]. rewrite _invoke_reauth_callback_run. intros [= <- <-].
  generalize (scheduler_invariant_clear c H1).
  apply scheduler_invariant_ext; simpl; auto.
Qed.

Lemma keeps_save_tokens_to_storage : keeps _save_tokens_to_storage.
Proof.
  intros c o c' H. destruct (_save_tokens_to_storage_run c) as (s & ->).
  intros [= <- <-]. revert H. apply scheduler_invariant_ext; simpl; auto.
Qed.

Create HintDb keeps discriminated.

#[local] Hint Resolve keeps_ret keeps_raise keeps_cancelled keeps_out_of_fuel
  keeps_lift keeps_gets
  keeps_emit keeps_clear_tokens keeps_tan_status_callback keeps_reauth_callback
  keeps_save_tokens_to_storage : keeps.

(** Assignments that leave the tasks alone and do not erase the expiry. *)
Ltac keeps_assignment :=
  let c := fresh "c" in
  intros c;
  first
    [ apply scheduler_invariant_cancel
    | apply scheduler_invariant_finish
    | apply scheduler_invariant_ext; simpl; solve [auto | discriminate] ].

Ltac keeps_step :=
  lazymatch goal with
  | |- keeps (bind _ _) => apply keeps_bind; [|intros ?]
  | |- keeps (try_except _ _) => apply keeps_try_except; [|intros ?]
  | |- keeps (try_except_cancelled _ _ _) =>
      apply keeps_try_except_cancelled; [| |intros ?]
  | |- keeps (modify _) => apply keeps_modify; keeps_assignment
  | |- keeps (sleep _) => apply keeps_emit
  | |- keeps (await_httpx _ _) => unfold await_httpx
  | |- keeps (await_bravado _ _) => unfold await_bravado
  | |- keeps (await_sleep _ _) => unfold await_sleep
  | |- keeps (assign_access_token _) => unfold assign_access_token
  | |- keeps (assign_refresh_token _) => unfold assign_refresh_token
  | |- keeps (assign_token_expiry _) => unfold assign_token_expiry
  | |- keeps (match ?x with _ => _ end) => destruct x
  | |- match (match ?x with _ => _ end) with _ => _ end => destruct x
  | |- match Some _ with _ => _ end => cbv iota beta
  | |- match None with _ => _ end => exact I
  | |- True => exact I
  | |- _ => solve [auto with keeps]
  end.

Ltac keeps_walk := repeat keeps_step.

Lemma keeps_store_token_response r now : keeps (store_token_response r now).
Proof. unfold store_token_response. keeps_walk. Qed.

#[local] Hint Resolve keeps_store_token_response : keeps.

Lemma keeps_step1 reply : keeps (_step1_password_credentials reply).
Proof. unfold _step1_password_credentials. keeps_walk. Qed.

Lemma keeps_step2 reply t : keeps (_step2_session_status reply t).
Proof. unfold _step2_session_status. keeps_walk. Qed.

Lemma keeps_step3 json_loads reply t s : keeps (_step3_tan_challenge json_loads reply t s).
Proof. unfold _step3_tan_challenge. keeps_walk. Qed.

Lemma keeps_poll_once w i t u ty : keeps (poll_once w i t u ty).
Proof. unfold poll_once. keeps_walk. Qed.

#[local] Hint Resolve keeps_poll_once : keeps.

Lemma keeps_poll_loop fuel w : forall i t u ty, keeps (poll_loop fuel w i t u ty).
Proof.
  induction fuel as [|fuel IH]; intros i t u ty; cbn [poll_loop];
    [apply keeps_out_of_fuel|].
  keeps_walk; apply IH.
Qed.

Lemma keeps_step4 fuel w t u ty : keeps (_step4_poll_tan_approval fuel w t u ty).
Proof. unfold _step4_poll_tan_approval. keeps_walk; apply keeps_poll_loop. Qed.

Lemma keeps_step4b reply t s ch : keeps (_step4b_activate_session reply t s ch).
Proof. unfold _step4b_activate_session. keeps_walk. Qed.

Lemma keeps_step5 reply now t : keeps (_step5_secondary_token reply now t).
Proof. unfold _step5_secondary_token. keeps_walk. Qed.

#[local] Hint Resolve keeps_step1 keeps_step2 keeps_step3 keeps_step4
  keeps_step4b keeps_step5 : keeps.

(** Step 5 returns only with an expiry in place. *)
Lemma step5_sets_expiry reply now t :
  hoare scheduler_invariant (_step5_secondary_token reply now t)
    (fun o c => scheduler_invariant c /\
                (forall a, o = Returns a -> _token_expiry c <> None)).
Proof.
  intros c o c' H Hrun. split; [eapply keeps_step5; eauto|].
  intros [] ->.
  apply _step5_secondary_token_returns in Hrun as (r & _ & Hs).
  apply store_token_response_returns in Hs
    as (data & ei & delta & _ & _ & _ & _ & _ & _ & Hx & _).
  rewrite Hx. discriminate.
Qed.

Lemma start_after_expiry running :
  hoare (fun c => scheduler_invariant c /\ _token_expiry c <> None)
    (_start_refresh_task running) (fun _ c => scheduler_invariant c).
Proof.
  intros c o c' [H He]. unfold _start_refresh_task, bind, modify; simpl.
  destruct running.
  - intros [= <- <-]. apply scheduler_invariant_start; [apply H|assumption].
  - unfold raise. intros [= <- <-]. apply scheduler_invariant_cancel, H.
Qed.

Lemma keeps_authenticate_steps json_loads fuel w :
  keeps (authenticate_steps json_loads fuel w).
Proof.
  unfold authenticate_steps.
  do 3 (apply keeps_bind; [auto with keeps|intros ?]).
  match goal with |- keeps (match ?p with pair _ _ => _ end) =>
    destruct p as [[tan_challenge_id tan_type] tan_poll_url] end.
  do 2 (apply keeps_bind; [auto with keeps|intros ?]).
  eapply hoare_bind; [apply step5_sets_expiry| | |].
  - intros ?. eapply hoare_weaken; [apply start_after_expiry| |].
    + intros c [H He]. split; [exact H|]. eapply He. reflexivity.
    + intros o c H; exact H.
  - intros e c [H _]. exact H.
  - intros c [H _]. exact H.
Qed.

Lemma keeps_authenticate json_loads fuel w : keeps (authenticate json_loads fuel w).
Proof.
  unfold authenticate.
  apply keeps_try_except; [apply keeps_authenticate_steps|].
  intros e; simpl; keeps_walk.
Qed.

Lemma keeps_refresh_token reply now : keeps (refresh_token reply now).
Proof. unfold refresh_token. keeps_walk. Qed.

#[local] Hint Resolve keeps_refresh_token keeps_authenticate : keeps.

Lemma keeps_loop_once r : keeps (loop_once r).
Proof. unfold loop_once. keeps_walk. Qed.

Lemma keeps_restore running :
  hoare (fun c => scheduler_invariant c) (_restore_tokens_from_storage running)
    (fun _ c => scheduler_invariant c).
Proof.
  unfold _restore_tokens_from_storage.
  apply keeps_try_except; [|intros e; keeps_walk].
  apply keeps_bind; [auto with keeps|intros storage].
  apply keeps_bind; [auto with keeps|intros [[[a r] e]|]]; [|auto with keeps].
  eapply hoare_bind with
    (R := fun _ c => scheduler_invariant c /\ _token_expiry c <> None).
  - intros c o c' H [= <- <-]. split; [|simpl; discriminate].
    revert H. apply scheduler_invariant_ext; simpl; auto. discriminate.
  - intros _. apply start_after_expiry.
  - intros e0 c [H _]. exact H.
  - intros c [H _]. exact H.
Qed.

Lemma keeps_run json_loads op : keeps (run json_loads op).
Proof.
  destruct op; unfold run, ignore, close; keeps_walk.
  apply keeps_loop_once.
Qed.

Lemma scheduler_invariant_new reauth tan_status threshold storage :
  scheduler_invariant (new_client reauth tan_status threshold storage).
Proof.
  split.
  - intros id H. simpl in H. rewrite lookup_nil in H. discriminate.
  - intros _ id H. simpl in H. rewrite lookup_nil in H. discriminate.
Qed.

(** C10. In every state a client can reach (construction with restore,
    then any sequence of [authenticate()], [refresh_token()], [close()],
    passes of the scheduler loop and deliveries of cancellations) at most
    one scheduler task is alive, namely the one [_refresh_task] refers to,
    and none is alive while the expiry is [None].  From such a state
    [_start_refresh_task] leaves exactly the task it spawns alive, and
    [_clear_tokens], and with it every reauth notification and every
    failed [authenticate()], leaves no task alive. *)
Theorem at_most_one_scheduler_task json_loads c :
  reachable json_loads c ->
  one_scheduler c /\
  no_scheduler_without_tokens c /\
  (forall running c', _start_refresh_task running c = Some (Returns tt, c') ->
     forall id, tasks c' !! id = Some Pending <-> id = length (tasks c)) /\
  (forall c', _clear_tokens c = Some (Returns tt, c') ->
     tokens_cleared c' /\ forall id, tasks c' !! id <> Some Pending) /\
  (forall reason c', _invoke_reauth_callback reason c = Some (Returns tt, c') ->
     tokens_cleared c' /\ forall id, tasks c' !! id <> Some Pending) /\
  (forall fuel w e c', authenticate json_loads fuel w c = Some (Raises e, c') ->
     tokens_cleared c' /\ forall id, tasks c' !! id <> Some Pending).
Proof.
  intros Hreach.
  assert (Hinv : scheduler_invariant c).
  { induction Hreach as [running reauth tan_status threshold storage o c Hrun
                        |op c o c' Hreach IH Hen Hrun].
    - eapply keeps_restore; [|exact Hrun]. apply scheduler_invariant_new.
    - eapply keeps_run; [exact IH|exact Hrun]. }
  destruct Hinv as [H1 H2].
  split; [exact H1|]. split; [exact H2|].
  split; [|split; [|split]].
  - intros running c'. unfold _start_refresh_task, bind, modify; simpl.
    destruct running; [|discriminate]. intros [= <-].
    pose proof (cancel_refresh_task_leaves_none_alive c H1) as Hnone.
    assert (Hlen : length (tasks (cancel_refresh_task c)) = length (tasks c)).
    { unfold cancel_refresh_task, cancel.
      destruct (_refresh_task c) as [id|]; [|done].
      destruct (tasks c !! id) as [[]|]; simpl; rewrite ?length_insert; done. }
    intros id. unfold create_task; simpl. split.
    + intros Hp.
      destruct (decide (id < length (tasks (cancel_refresh_task c)))%nat) as [Hlt|Hge].
      * rewrite lookup_app_l in Hp by done. exfalso. exact (Hnone id Hp).
      * apply lookup_lt_Some in Hp as Hl. rewrite length_app in Hl. simpl in Hl. lia.
    + intros ->. rewrite lookup_app_r by lia. rewrite Hlen, Nat.sub_diag. reflexivity.
  - intros c'. rewrite _clear_tokens_run. intros [= <-].
    split; [apply tokens_cleared_after_clear|].
    apply cancel_refresh_task_leaves_none_alive. exact H1.
  - intros reason c'. rewrite _invoke_reauth_callback_run. intros [= <-].
    split.
    + destruct (tokens_cleared_after_clear c) as (Ha & Hr & He).
      unfold tokens_cleared; simpl. done.
    + simpl. apply cancel_refresh_task_leaves_none_alive. exact H1.
  - intros fuel w e c'. unfold authenticate, try_except.
    destruct (authenticate_steps json_loads fuel w c) as [[[[]|e1|] c1]|] eqn:E;
      [intros [=]| |discriminate..].
    unfold bind. rewrite _clear_tokens_run. simpl. intros [= <- <-].
    split; [apply tokens_cleared_after_clear|].
    apply cancel_refresh_task_leaves_none_alive.
    assert (Hk : scheduler_invariant c1); [|exact (proj1 Hk)].
    eapply keeps_authenticate_steps; [|exact E]. split; assumption.
Qed.

Lemma at_most_one_scheduler_task_witness :
  reachable table_loads approved_state /\
  one_scheduler approved_state /\
  tasks approved_state = [Cancelling; Pending] /\
  _refresh_task approved_state = Some 1%nat.
Proof.
  assert (R : reachable table_loads approved_state).
  { apply (reachable_step table_loads (OpAuthenticate 5 approved_world)
             restored_client (Returns tt) approved_state).
    - apply (reachable_new table_loads true (Some raising_reauth) (Some raising_tan_status)
               120 disk (Returns tt) restored_client).
      vm_compute; reflexivity.
    - exact I.
    - vm_compute; reflexivity. }
  split; [exact R|].
  split; [exact (proj1 (at_most_one_scheduler_task table_loads approved_state R))|].
  split; reflexivity.
Defined.

(** * Properties of the rest of the client *)

(** ** Strings *)

Lemma append_nil (t : string) : String.append "" t = t.
Proof. reflexivity. Qed.

Lemma append_cons (a : Ascii.ascii) (s t : string) :
  String.append (String a s) t = String a (String.append s t).
Proof. reflexivity. Qed.

Lemma string_length_append (s t : string) :
  String.length (String.append s t) = (String.length s + String.length t)%nat.
Proof.
  induction s as [|a s IH]; [reflexivity|].
  rewrite append_cons. simpl. rewrite IH. reflexivity.
Qed.

Lemma string_append_assoc (s t u : string) :
  String.append (String.append s t) u = String.append s (String.append t u).
Proof.
  induction s as [|a s IH]; [reflexivity|].
  rewrite !append_cons, IH. reflexivity.
Qed.

Lemma string_length_prefix (n : nat) (s : string) :
  (n <= String.length s)%nat -> String.length (String.substring 0 n s) = n.
Proof.
  revert s. induction n as [|n IH]; intros s H.
  - destruct s; reflexivity.
  - destruct s as [|a s]; simpl in *; [lia|]. rewrite IH; [reflexivity|lia].
Qed.

Lemma substring_all (s : string) :
  String.substring 0 (String.length s) s = s.
Proof. induction s as [|a s IH]; simpl; [reflexivity|rewrite IH; reflexivity]. Qed.

Lemma substring_skip_append (s t : string) (n : nat) :
  String.substring (String.length s) n (String.append s t) = String.substring 0 n t.
Proof.
  induction s as [|a s IH]; [reflexivity|].
  rewrite append_cons. simpl. exact IH.
Qed.

Lemma last_chars_append (s t : string) :
  last_chars (String.length t) (String.append s t) = t.
Proof.
  unfold last_chars. rewrite string_length_append.
  replace (String.length s + String.length t - String.length t)%nat
    with (String.length s) by lia.
  rewrite substring_skip_append. apply substring_all.
Qed.

(** ** [sanitize_token] *)

(** X1. With a prefix length that is not negative, every token no
    longer than the prefix, the empty token included, is shown as three
    stars; a token longer than the prefix is shown as its first
    [prefix_length] characters followed by three dots, so two such tokens
    with the same prefix are shown alike, whatever follows. *)
Theorem sanitize_token_shows_the_prefix_only (t1 t2 : string) (k : Z) :
  0 <= k ->
  (Z.of_nat (String.length t2) <= k -> sanitize_token t2 k = "***") /\
  (k < Z.of_nat (String.length t1) ->
     sanitize_token t1 k = String.append (String.substring 0 (Z.to_nat k) t1) "..." /\
     String.length (sanitize_token t1 k) = (Z.to_nat k + 3)%nat /\
     (k < Z.of_nat (String.length t2) ->
      String.substring 0 (Z.to_nat k) t1 = String.substring 0 (Z.to_nat k) t2 ->
      sanitize_token t1 k = sanitize_token t2 k)).
Proof.
  intros Hk.
  assert (Hshow : forall t, k < Z.of_nat (String.length t) ->
            sanitize_token t k = String.append (String.substring 0 (Z.to_nat k) t) "...").
  { intros t Ht. unfold sanitize_token, slice_to.
    destruct t as [|a t]; [simpl in Ht; lia|].
    replace (String.eqb (String a t) "") with false by reflexivity.
    replace (Z.of_nat (String.length (String a t)) <=? k) with false
      by (symmetry; apply Z.leb_gt; exact Ht).
    replace (0 <=? k) with true by (symmetry; apply Z.leb_le; exact Hk).
    reflexivity. }
  split.
  - intros H2. unfold sanitize_token.
    replace (Z.of_nat (String.length t2) <=? k) with true
      by (symmetry; apply Z.leb_le; exact H2).
    rewrite orb_true_r. reflexivity.
  - intros H1. split; [exact (Hshow t1 H1)|]. split.
    + rewrite (Hshow t1 H1), string_length_append, string_length_prefix by lia.
      reflexivity.
    + intros H2 Hsame. rewrite (Hshow t1 H1), (Hshow t2 H2), Hsame. reflexivity.
Qed.

Lemma sanitize_token_shows_the_prefix_only_witness :
  sanitize_token "0123456789abcdef" 8 = sanitize_token "01234567-another-token" 8 /\
  sanitize_token "0123456789abcdef" 8 = "01234567..." /\
  sanitize_token "abc" 8 = "***" /\
  sanitize_token "" 8 = "***".
Proof.
  destruct (sanitize_token_shows_the_prefix_only
              "0123456789abcdef" "01234567-another-token" 8) as (_ & Hlong); [lia|].
  destruct Hlong as (Hshow & _ & Hsame); [simpl; lia|].
  split; [apply Hsame; [simpl; lia|reflexivity]|].
  split; [exact Hshow|].
  split.
  - apply (sanitize_token_shows_the_prefix_only "0123456789abcdef" "abc" 8);
      [lia|simpl; lia].
  - apply (sanitize_token_shows_the_prefix_only "0123456789abcdef" "" 8);
      [lia|simpl; lia].
Defined.

(** ** Request and session identifiers *)

Lemma pretty_N_go_append (x : N) (s : string) :
  pretty.pretty_N_go x s = String.append (pretty.pretty_N_go x "") s.
Proof.
  revert s. induction (N.lt_wf_0 x) as [x _ IH]; intros s.
  destruct (decide (x = 0%N)) as [->|Hx].
  - rewrite !pretty.pretty_N_go_0. reflexivity.
  - rewrite (pretty.pretty_N_go_step x s) by lia.
    rewrite (pretty.pretty_N_go_step x "") by lia.
    rewrite IH by (apply N.div_lt; lia).
    rewrite (IH (x `div` 10)%N) with (s := String _ "") by (apply N.div_lt; lia).
    rewrite string_append_assoc. reflexivity.
Qed.

Lemma pretty_N_go_digits (n : nat) :
  forall (x : N) (s : string),
    (10 ^ N.of_nat n <= x)%N ->
    pretty.pretty_N_go x s
    = pretty.pretty_N_go (x / 10 ^ N.of_nat (S n))%N
        (String.append (fixed_digits (S n) x) s).
Proof.
  induction n as [|n IH]; intros x s Hx.
  - simpl in Hx. rewrite pretty.pretty_N_go_step by lia.
    simpl. rewrite N.pow_1_r. reflexivity.
  - assert (Hpow : (10 ^ N.of_nat (S n) = 10 * 10 ^ N.of_nat n)%N).
    { rewrite Nat2N.inj_succ, N.pow_succ_r'. reflexivity. }
    assert (Hpos : (0 < 10 ^ N.of_nat n)%N) by (apply N.neq_0_lt_0, N.pow_nonzero; lia).
    rewrite pretty.pretty_N_go_step by lia.
    rewrite IH.
    2: { apply N.div_le_lower_bound; lia. }
    cbn [fixed_digits]. rewrite !string_append_assoc, !append_cons, !append_nil.
    f_equal. rewrite N.Div0.div_div. f_equal.
    rewrite (Nat2N.inj_succ (S n)), N.pow_succ_r'. reflexivity.
Qed.

Lemma fixed_digits_length (n : nat) (x : N) : String.length (fixed_digits n x) = n.
Proof.
  revert x. induction n as [|n IH]; intros x; simpl; [reflexivity|].
  rewrite string_length_append, IH. simpl. lia.
Qed.

Lemma fixed_digits_mod (n : nat) :
  forall x : N, fixed_digits n (x mod 10 ^ N.of_nat n)%N = fixed_digits n x.
Proof.
  induction n as [|n IH]; intros x; [reflexivity|].
  assert (Hpow : (10 ^ N.of_nat (S n) = 10 * 10 ^ N.of_nat n)%N).
  { rewrite Nat2N.inj_succ, N.pow_succ_r'. reflexivity. }
  assert (Hpos : (10 ^ N.of_nat n <> 0)%N) by (apply N.pow_nonzero; lia).
  cbn [fixed_digits]. rewrite Hpow. f_equal.
  - rewrite <- (IH (x / 10)%N). f_equal.
    rewrite N.Div0.mod_mul_r. 
    rewrite (N.mul_comm 10), N.div_add by lia.
    rewrite N.div_small by (apply N.mod_lt; lia). reflexivity.
  - f_equal. f_equal.
    rewrite N.Div0.mod_mul_r.
    rewrite (N.mul_comm 10), N.Div0.mod_add, N.Div0.mod_mod. reflexivity.
Qed.

Lemma append_nil_r (s : string) : String.append s "" = s.
Proof.
  induction s as [|a s IH]; [reflexivity|]. rewrite append_cons, IH. reflexivity.
Qed.

Lemma request_id_digits (now_ms : Z) :
  10 ^ 8 <= now_ms ->
  _generate_request_id now_ms = fixed_digits 9 (Z.to_N now_ms).
Proof.
  intros H. destruct now_ms as [|p|p]; try lia.
  unfold _generate_request_id, pretty.pretty, pretty.pretty_Z, pretty.pretty_positive,
    pretty.pretty, pretty.pretty_N.
  destruct (decide (N.pos p = 0%N)) as [E|_]; [discriminate|].
  rewrite (pretty_N_go_digits 8) by (change (10 ^ N.of_nat 8)%N with 100000000%N; lia).
  rewrite pretty_N_go_append, append_nil_r.
  rewrite <- (fixed_digits_length 9 (N.pos p)) at 1.
  rewrite last_chars_append. reflexivity.
Qed.

(** X2. From the second day of 1970 on (a millisecond timestamp of at
    least 10^8), the request id is a string of exactly nine decimal
    digits, namely the timestamp modulo 10^9 padded with zeros; so request
    ids repeat every 10^9 milliseconds. *)
Theorem request_id_is_the_last_nine_digits (now_ms : Z) :
  10 ^ 8 <= now_ms ->
  _generate_request_id now_ms = fixed_digits 9 (Z.to_N (now_ms mod 10 ^ 9)) /\
  String.length (_generate_request_id now_ms) = 9%nat /\
  _generate_request_id (now_ms + 10 ^ 9) = _generate_request_id now_ms.
Proof.
  intros H.
  assert (Hmod : forall x, 0 <= x ->
            fixed_digits 9 (Z.to_N (x mod 10 ^ 9)) = fixed_digits 9 (Z.to_N x)).
  { intros x Hx. rewrite Z2N.inj_mod by lia.
    change (Z.to_N (10 ^ 9)) with (10 ^ N.of_nat 9)%N.
    apply fixed_digits_mod. }
  rewrite (request_id_digits now_ms H).
  split; [symmetry; apply Hmod; lia|].
  split; [apply fixed_digits_length|].
  rewrite request_id_digits by lia.
  rewrite <- (Hmod (now_ms + 10 ^ 9)) by lia.
  rewrite <- (Hmod now_ms) by lia.
  f_equal. f_equal.
  rewrite <- (Z.mul_1_l (10 ^ 9)) at 1. apply Z.mod_add. lia.
Qed.

Lemma request_id_is_the_last_nine_digits_witness :
  _generate_request_id 1762243200123 = "243200123" /\
  _generate_request_id (1762243200123 + 10 ^ 9) = _generate_request_id 1762243200123.
Proof.
  destruct (request_id_is_the_last_nine_digits 1762243200123) as (Hd & _ & Hwrap).
  - lia.
  - split; [rewrite Hd; vm_compute; reflexivity|exact Hwrap].
Defined.

Lemma session_ids_of_a_set_id (uuids : list string) (s : string) :
  s <> "" -> session_ids uuids (Some s) = repeat s (length uuids).
Proof.
  intros Hs. induction uuids as [|u rest IH]; [reflexivity|].
  simpl. destruct (String.eqb s "") eqn:E.
  - apply String.eqb_eq in E. contradiction.
  - rewrite IH. reflexivity.
Qed.

(** X3. The session id is created at the first call and stays the same
    from then on: whatever [uuid4] would give at later calls, all calls
    return one and the same id, the stored one if there is one, the first
    generated one otherwise.  (An empty id counts as none.) *)
Theorem session_id_is_stable (u : string) (rest : list string)
    (session_id : option string) :
  u <> "" ->
  exists s,
    session_ids (u :: rest) session_id = repeat s (S (length rest)) /\
    s <> "" /\
    (forall s0, session_id = Some s0 -> s0 <> "" -> s = s0) /\
    (session_id = None \/ session_id = Some "" -> s = u).
Proof.
  intros Hu. cbn [session_ids]. unfold _get_session_id.
  destruct session_id as [s0|].
  - destruct (String.eqb s0 "") eqn:E.
    + apply String.eqb_eq in E. subst s0. exists u.
      rewrite session_ids_of_a_set_id by exact Hu.
      split; [reflexivity|]. split; [exact Hu|].
      split; [intros s0 [= <-] Hne; contradiction|reflexivity].
    + apply String.eqb_neq in E. exists s0.
      rewrite session_ids_of_a_set_id by exact E.
      split; [reflexivity|]. split; [exact E|].
      split; [intros s1 [= <-] _; reflexivity|].
      intros [H|H]; [discriminate|]. injection H as ->. contradiction.
  - exists u. rewrite session_ids_of_a_set_id by exact Hu.
    split; [reflexivity|]. split; [exact Hu|].
    split; [intros s0 H; discriminate|reflexivity].
Qed.

Lemma session_id_is_stable_witness :
  exists s,
    session_ids ["uuid-1"; "uuid-2"; "uuid-3"] None = repeat s 3 /\
    s <> "" /\
    (forall s0, None = Some s0 -> s0 <> "" -> s = s0) /\
    (@None string = None \/ None = Some "" -> s = "uuid-1").
Proof.
  apply (session_id_is_stable "uuid-1" ["uuid-2"; "uuid-3"] None). discriminate.
Defined.

(** ** The header adapter *)

Lemma update_from_custom config (h : header_dict) (k : string) :
  match config with
  | NoConfig => h
  | DictConfig custom_headers => update_from custom_headers h
  | ObjectConfig config_headers => update_from config_headers h
  end k
  = match custom_headers_of config k with Some v => Some v | None => h k end.
Proof.
  destruct config as [|[[c|]|]|[[c|]|]]; reflexivity.
Qed.

Lemma request_lookup json_dumps headers access_token uuid4 now_ms session_id config k :
  fst (request json_dumps headers access_token uuid4 now_ms session_id config) k
  = match custom_headers_of config k with
    | Some v => Some v
    | None =>
        if String.eqb k "x-http-request-info" then
          Some (fst (_get_request_info_header json_dumps uuid4 now_ms session_id))
        else if String.eqb k "Authorization" && has_token access_token then
          Some (bearer access_token)
        else
          match headers k with
          | Some v => Some v
          | None => if String.eqb k "Accept" then Some "application/json" else None
          end
    end.
Proof.
  unfold request.
  destruct (_get_request_info_header json_dumps uuid4 now_ms session_id)
    as [info session_id'] eqn:Einfo.
  cbn [fst].
  set (h1 := match access_token with
             | Some t => if String.eqb t "" then headers
                         else set_header "Authorization" (String.append "Bearer " t) headers
             | None => headers
             end).
  assert (H1 : forall k', h1 k' = if String.eqb k' "Authorization" && has_token access_token
                                  then Some (bearer access_token) else headers k').
  { intros k'. subst h1. destruct access_token as [t|]; simpl.
    - destruct (String.eqb t ""); simpl; [rewrite andb_false_r; reflexivity|].
      unfold set_header. rewrite andb_true_r. reflexivity.
    - rewrite andb_false_r. reflexivity. }
  clearbody h1.
  set (h3 := match config with
             | NoConfig => set_header "x-http-request-info" info h1
             | DictConfig c => update_from c (set_header "x-http-request-info" info h1)
             | ObjectConfig c => update_from c (set_header "x-http-request-info" info h1)
             end).
  assert (H3 : forall k', h3 k' = match custom_headers_of config k' with
                                  | Some v => Some v
                                  | None => set_header "x-http-request-info" info h1 k'
                                  end).
  { intros k'. subst h3. apply update_from_custom. }
  clearbody h3.
  assert (Hacc : h3 "Accept" = match custom_headers_of config "Accept" with
                               | Some v => Some v
                               | None => headers "Accept"
                               end).
  { rewrite H3. destruct (custom_headers_of config "Accept"); [reflexivity|].
    unfold set_header. simpl. rewrite H1. reflexivity. }
  assert (Hk : h3 k = match custom_headers_of config k with
                      | Some v => Some v
                      | None =>
                          if String.eqb k "x-http-request-info" then Some info
                          else if String.eqb k "Authorization" && has_token access_token
                               then Some (bearer access_token)
                               else headers k
                      end).
  { rewrite H3. destruct (custom_headers_of config k); [reflexivity|].
    unfold set_header. destruct (String.eqb k "x-http-request-info"); [reflexivity|].
    apply H1. }
  destruct (h3 "Accept") as [a|] eqn:Ea; cbn [fst].
  - rewrite Hk. destruct (custom_headers_of config k) eqn:Ec; [reflexivity|].
    destruct (String.eqb k "x-http-request-info"); [reflexivity|].
    destruct (String.eqb k "Authorization" && has_token access_token); [reflexivity|].
    destruct (headers k) as [v|] eqn:Eh; [reflexivity|].
    destruct (String.eqb k "Accept") eqn:Eacc; [|reflexivity].
    apply String.eqb_eq in Eacc. subst k. rewrite Ec, Eh in Hacc. discriminate.
  - unfold set_header at 1.
    destruct (String.eqb k "Accept") eqn:Eacc.
    + apply String.eqb_eq in Eacc. subst k.
      destruct (custom_headers_of config "Accept"); [discriminate|].
      simpl. rewrite <- Hacc. reflexivity.
    + rewrite Hk. destruct (custom_headers_of config k); [reflexivity|].
      destruct (String.eqb k "x-http-request-info"); [reflexivity|].
      destruct (String.eqb k "Authorization" && has_token access_token); [reflexivity|].
      destruct (headers k); reflexivity.
Qed.

(** X4. Per-request headers win: whatever header the request
    configuration supplies is passed on with the supplied value, also
    under the names [Authorization] and [x-http-request-info], so it
    replaces the bearer token and the request correlation; and a header
    of the caller that is neither supplied that way nor one of
    [Authorization], [x-http-request-info] and [Accept] is passed on
    unchanged. *)
Theorem request_custom_headers_win json_dumps headers access_token uuid4 now_ms
    session_id config k :
  (forall v, custom_headers_of config k = Some v ->
     fst (request json_dumps headers access_token uuid4 now_ms session_id config) k
     = Some v) /\
  (custom_headers_of config k = None ->
   k <> "Authorization" -> k <> "x-http-request-info" -> k <> "Accept" ->
   fst (request json_dumps headers access_token uuid4 now_ms session_id config) k
   = headers k).
Proof.
  rewrite request_lookup. split.
  - intros v ->. reflexivity.
  - intros -> Ha Hi Hacc.
    apply String.eqb_neq in Ha, Hi, Hacc. rewrite Ha, Hi, Hacc. simpl.
    destruct (headers k); reflexivity.
Qed.

(** X5. Without per-request headers of these names, [request] always
    sends the request correlation header and an [Accept] header
    ([application/json] unless the caller set one); it sends
    [Authorization: Bearer <token>] when there is a non-empty access
    token, overwriting the caller's, and otherwise adds no
    [Authorization] header of its own. *)
Theorem request_injects_headers json_dumps headers access_token uuid4 now_ms
    session_id config :
  custom_headers_of config "Authorization" = None ->
  custom_headers_of config "x-http-request-info" = None ->
  custom_headers_of config "Accept" = None ->
  let sent := fst (request json_dumps headers access_token uuid4 now_ms session_id config) in
  sent "x-http-request-info"
  = Some (fst (_get_request_info_header json_dumps uuid4 now_ms session_id)) /\
  sent "Accept"
  = Some (match headers "Accept" with Some v => v | None => "application/json" end) /\
  (has_token access_token = true -> sent "Authorization" = Some (bearer access_token)) /\
  (has_token access_token = false -> sent "Authorization" = headers "Authorization").
Proof.
  intros Ha Hi Hacc sent. subst sent. rewrite !request_lookup, Ha, Hi, Hacc. simpl.
  split; [reflexivity|].
  split; [destruct (headers "Accept"); reflexivity|].
  split; intros ->; [reflexivity|].
  destruct (headers "Authorization"); reflexivity.
Qed.

Lemma request_custom_headers_win_witness :
  fst (request show_request_info caller_headers (Some "token") "uuid-1" 1762243200123
         None activation_config) "Authorization" = Some "Bearer other" /\
  fst (request show_request_info caller_headers (Some "token") "uuid-1" 1762243200123
         None activation_config) "x-once-authentication-info" = Some "challenge 4711".
Proof.
  split.
  - exact (proj1 (request_custom_headers_win show_request_info caller_headers
                    (Some "token") "uuid-1" 1762243200123 None activation_config
                    "Authorization") "Bearer other" eq_refl).
  - exact (proj1 (request_custom_headers_win show_request_info caller_headers
                    (Some "token") "uuid-1" 1762243200123 None activation_config
                    "x-once-authentication-info") "challenge 4711" eq_refl).
Defined.

Lemma request_injects_headers_witness :
  fst (request show_request_info caller_headers (Some "token") "uuid-1" 1762243200123
         None NoConfig) "Authorization" = Some "Bearer token" /\
  fst (request show_request_info caller_headers (Some "") "uuid-1" 1762243200123
         None NoConfig) "Authorization" = Some "Basic caller" /\
  fst (request show_request_info caller_headers None "uuid-1" 1762243200123
         None NoConfig) "x-http-request-info" = Some "uuid-1/243200123".
Proof.
  split; [|split].
  - apply (request_injects_headers show_request_info caller_headers (Some "token")
             "uuid-1" 1762243200123 None NoConfig); reflexivity.
  - apply (request_injects_headers show_request_info caller_headers (Some "")
             "uuid-1" 1762243200123 None NoConfig); reflexivity.
  - exact (proj1 (request_injects_headers show_request_info caller_headers None
                    "uuid-1" 1762243200123 None NoConfig eq_refl eq_refl eq_refl)).
Defined.

(** ** The steps of [authenticate], one by one *)

Lemma subscript_error_class d k e :
  subscript d k = Raises e -> class_of e = KeyError \/ class_of e = TypeError.
Proof.
  unfold subscript. destruct d; try (intros [= <-]; right; reflexivity).
  destruct (assoc k members); [discriminate|]. intros [= <-]. left. reflexivity.
Qed.

(** X6. Step 1 sends exactly one request and changes nothing else.  It
    returns a token only when the response is 2xx and its JSON body has
    the member [access_token], and then returns that member.  A timeout
    comes out as [NetworkTimeoutError] and every response that is not 2xx
    as [AuthenticationError]; but a 2xx response whose body lacks the
    member comes out as the raw [KeyError] or [TypeError] of the lookup. *)
Theorem step1_outcomes reply c :
  exists o,
    _step1_password_credentials reply c
    = Some (o, set_trace (trace c ++ [EvPost "password"]) c) /\
    (forall t, o = Returns t ->
       exists r data, reply = HttpxResponse r /\ is_success r = true /\
                      json r = Returns data /\
                      subscript data "access_token" = Returns t) /\
    (forall e, reply = HttpxRaises e -> class_of e = TimeoutException ->
       exists e', o = Raises e' /\ class_of e' = NetworkTimeoutError) /\
    (forall r, reply = HttpxResponse r -> is_success r = false ->
       exists e', o = Raises e' /\ class_of e' = AuthenticationError) /\
    (forall r data e, reply = HttpxResponse r -> is_success r = true ->
       json r = Returns data -> subscript data "access_token" = Raises e ->
       o = Raises e).
Proof.
  unfold _step1_password_credentials, try_except, await_httpx, bind, emit, modify, ret.
  destruct reply as [r|e|]; simpl.
  3: { unfold cancelled. eexists. split; [reflexivity|].
       split; [intros t [=]|]. split; [intros e [=]|].
       split; [intros r [=]|intros r data e [=]]. }
  - destruct (status_code r =? 401) eqn:E401.
    + apply Z.eqb_eq in E401.
      assert (Hs : is_success r = false).
      { unfold is_success. rewrite E401. reflexivity. }
      unfold raise; simpl. eexists. split; [reflexivity|].
      split; [intros t [=]|]. split; [intros e [=]|].
      split; [intros r' [= <-] _; eexists; split; reflexivity|].
      intros r' data e [= <-] Hs'. congruence.
    + unfold lift, raise_for_status.
      destruct (is_success r) eqn:Hs; simpl.
      * destruct (json r) as [data|ej|] eqn:Ej; simpl.
        3: { unfold cancelled. eexists. split; [reflexivity|].
             split; [intros t [=]|]. split; [intros e [=]|].
             split; [intros r' [= <-] Hf; congruence|].
             intros r' data' e [= <-] _; congruence. }
        -- destruct (subscript data "access_token") as [t|ek|] eqn:Ek; simpl.
           3: { exfalso. exact (subscript_not_cancelled _ _ Ek). }
           ++ eexists. split; [reflexivity|].
              split; [intros t' [= <-]; exists r, data; done|].
              split; [intros e [=]|].
              split; [intros r' [= <-] Hf; congruence|].
              intros r' data' e [= <-] _ Hj Hk. congruence.
           ++ assert (Hc : is_a ek TimeoutException = false /\
                           is_a ek HTTPStatusError = false).
              { unfold is_a.
                destruct (subscript_error_class _ _ _ Ek) as [-> | ->]; done. }
              destruct Hc as [-> ->].
              eexists. split; [reflexivity|].
              split; [intros t [=]|]. split; [intros e [=]|].
              split; [intros r' [= <-] Hf; congruence|].
              intros r' data' e [= <-] _ Hj Hk. congruence.
        -- destruct (is_a ej TimeoutException) eqn:T1;
             [|destruct (is_a ej HTTPStatusError) eqn:T2];
             (eexists; split; [reflexivity|];
              split; [intros t [=]|]; split; [intros e [=]|];
              split; [intros r' [= <-] Hf; congruence|];
              intros r' data' e [= <-] _; congruence).
      * unfold is_a; simpl.
        eexists. split; [reflexivity|].
        split; [intros t [=]|]. split; [intros e [=]|].
        split; [intros r' [= <-] _; eexists; split; reflexivity|].
        intros r' data e [= <-] Hf. congruence.
  - unfold raise; simpl.
    destruct (is_a e TimeoutException) eqn:T1.
    + eexists. split; [reflexivity|].
      split; [intros t [=]|].
      split; [intros e' [= <-] _; eexists; split; reflexivity|].
      split; [intros r [=]|intros r data e' [=]].
    + assert (Hnot : class_of e <> TimeoutException).
      { unfold is_a in T1. apply bool_decide_eq_false in T1. exact T1. }
      destruct (is_a e HTTPStatusError);
        (eexists; split; [reflexivity|];
         split; [intros t [=]|];
         split; [intros e' [= <-] Hc; contradiction|];
         split; [intros r [=]|intros r data e' [=]]).
Qed.

Lemma step1_outcomes_witness :
  exists e,
    _step1_password_credentials (ok 200 (JObj [])) restored_client
    = Some (Raises e,
            set_trace (trace restored_client ++ [EvPost "password"]) restored_client) /\
    class_of e = KeyError.
Proof.
  destruct (step1_outcomes (ok 200 (JObj [])) restored_client)
    as (o & Hrun & _ & _ & _ & Hraw).
  pose proof (Hraw _ _ _ eq_refl eq_refl eq_refl eq_refl) as Ho.
  rewrite Ho in Hrun. eexists. split; [exact Hrun | reflexivity].
Defined.

(** X7. Steps 2 and 3 raise nothing but [AuthenticationError]: an HTTP
    error of the call, an empty session list, a missing header, a header
    that is not JSON or lacks a member, all are wrapped.  Step 2 returns
    the identifier of the first session; neither step changes anything
    but the trace. *)
Theorem steps_2_and_3_raise_only_authentication_errors json_loads reply2 reply3
    access_token session_uuid c :
  (exists o c',
     _step2_session_status reply2 access_token c = Some (o, c') /\
     c' = set_trace (trace c') c /\
     (forall e, o = Raises e -> class_of e = AuthenticationError) /\
     (forall v, o = Returns v ->
        exists s rest, reply2 = BravadoReturns (Some (s :: rest)) /\ v = identifier s)) /\
  (exists o c',
     _step3_tan_challenge json_loads reply3 access_token session_uuid c = Some (o, c') /\
     c' = set_trace (trace c') c /\
     (forall e, o = Raises e -> class_of e = AuthenticationError)).
Proof.
  split.
  - unfold _step2_session_status, try_except, await_bravado, bind, emit, modify, ret, raise.
    destruct reply2 as [[[|s rest]|]|e]; simpl.
    + eexists _, _. split; [reflexivity|]. split; [reflexivity|].
      split; [intros e [= <-]; reflexivity|intros v [=]].
    + eexists _, _. split; [reflexivity|]. split; [reflexivity|].
      split; [intros e [=]|intros v [= <-]; eauto].
    + eexists _, _. split; [reflexivity|]. split; [reflexivity|].
      split; [intros e [= <-]; reflexivity|intros v [=]].
    + destruct (is_a e HTTPError); [destruct (bool_decide _)|];
        (eexists _, _; split; [reflexivity|]; split; [reflexivity|];
         split; [intros e' [= <-]; reflexivity|intros v [=]]).
  - unfold _step3_tan_challenge, try_except, await_bravado, bind, emit, modify, ret,
      raise, lift.
    unfold cancelled.
    destruct reply3 as [raw|e]; simpl.
    2: { destruct (is_a e HTTPError);
           (eexists _, _; split; [reflexivity|]; split; [reflexivity|];
            intros e' [= <-]; reflexivity). }
    destruct (headers_get raw "x-once-authentication-info") as [h|]; simpl.
    2: { eexists _, _. split; [reflexivity|]. split; [reflexivity|].
         intros e' [= <-]. reflexivity. }
    destruct (String.eqb h ""); simpl.
    { eexists _, _. split; [reflexivity|]. split; [reflexivity|].
      intros e' [= <-]. reflexivity. }
    destruct (json_loads h) as [auth_info|e1|]; simpl.
    2: { destruct (is_a e1 HTTPError);
           (eexists _, _; split; [reflexivity|]; split; [reflexivity|];
            intros e' [= <-]; reflexivity). }
    2: { eexists _, _. split; [reflexivity|]. split; [reflexivity|].
         intros e' [=]. }
    destruct (subscript auth_info "id") as [cid|e1|]; simpl.
    2: { destruct (is_a e1 HTTPError);
           (eexists _, _; split; [reflexivity|]; split; [reflexivity|];
            intros e' [= <-]; reflexivity). }
    2: { eexists _, _. split; [reflexivity|]. split; [reflexivity|].
         intros e' [=]. }
    destruct (subscript auth_info "typ") as [typ|e1|]; simpl.
    2: { destruct (is_a e1 HTTPError);
           (eexists _, _; split; [reflexivity|]; split; [reflexivity|];
            intros e' [= <-]; reflexivity). }
    2: { eexists _, _. split; [reflexivity|]. split; [reflexivity|].
         intros e' [=]. }
    destruct (subscript auth_info "link") as [link|e1|]; simpl.
    2: { destruct (is_a e1 HTTPError);
           (eexists _, _; split; [reflexivity|]; split; [reflexivity|];
            intros e' [= <-]; reflexivity). }
    2: { eexists _, _. split; [reflexivity|]. split; [reflexivity|].
         intros e' [=]. }
    destruct (subscript link "href") as [href|e1|]; simpl.
    2: { destruct (is_a e1 HTTPError);
           (eexists _, _; split; [reflexivity|]; split; [reflexivity|];
            intros e' [= <-]; reflexivity). }
    2: { eexists _, _. split; [reflexivity|]. split; [reflexivity|].
         intros e' [=]. }
    rewrite _invoke_tan_status_callback_run. simpl.
    eexists _, _. split; [reflexivity|]. split; [reflexivity|].
    intros e' [=].
Qed.

Lemma steps_2_and_3_raise_only_authentication_errors_witness :
  exists e c',
    _step2_session_status (BravadoReturns (Some [])) (JStr "restricted") restored_client
    = Some (Raises e, c') /\
    class_of e = AuthenticationError.
Proof.
  destruct (proj1 (steps_2_and_3_raise_only_authentication_errors table_loads
                     (BravadoReturns (Some [])) (BravadoReturns headerless_response)
                     (JStr "restricted") (JStr "session-1") restored_client))
    as (o & c' & Hrun & _ & Hcls & _).
  assert (Ho : exists e, o = Raises e).
  { vm_compute in Hrun. injection Hrun as <- _. eexists. reflexivity. }
  destruct Ho as (e & ->).
  exists e, c'. split; [exact Hrun | exact (Hcls e eq_refl)].
Defined.

(** X8. Step 4b raises nothing but [SessionActivationError], with the
    message about the header format exactly for an HTTP error of status
    422; step 5 turns a timeout into [NetworkTimeoutError] and every
    response that is not 2xx, 401 included, into [AuthenticationError],
    and in both cases leaves the token pair and the persisted file as
    they were. *)
Theorem steps_4b_and_5_failures reply4b reply5 now access_token session_uuid
    challenge_id c :
  (exists o,
     _step4b_activate_session reply4b access_token session_uuid challenge_id c
     = Some (o, set_trace (trace c ++ [EvBravado "sessionV1PatchSession"]) c) /\
     (forall e, o = Raises e -> class_of e = SessionActivationError) /\
     (forall e, reply4b = BravadoRaises e -> class_of e = HTTPError ->
        status_of e = Some 422 ->
        o = Raises (error_from SessionActivationError
                      "Session activation failed: incorrect header format" e))) /\
  (forall e, reply5 = HttpxRaises e -> class_of e = TimeoutException ->
     _step5_secondary_token reply5 now access_token c
     = Some (Raises (error_from NetworkTimeoutError "Token exchange timed out" e),
             set_trace (trace c ++ [EvPost "cd_secondary"]) c)) /\
  (forall r, reply5 = HttpxResponse r -> is_success r = false ->
     _step5_secondary_token reply5 now access_token c
     = Some (Raises (error_from AuthenticationError "Token exchange failed: "
                       (Exn HTTPStatusError "" (Some (status_code r)) None)),
             set_trace (trace c ++ [EvPost "cd_secondary"]) c)).
Proof.
  split; [|split].
  - unfold _step4b_activate_session, try_except, await_bravado, bind, emit, modify,
      ret, raise.
    destruct reply4b as [[]|e]; simpl.
    + eexists. split; [reflexivity|]. split; [intros e [=]|intros e [=]].
    + destruct (is_a e HTTPError) eqn:Eh.
      * destruct (bool_decide (status_of e = Some 422)) eqn:E422.
        -- eexists. split; [reflexivity|].
           split; [intros e' [= <-]; reflexivity|].
           intros e' [= <-] _ _. reflexivity.
        -- eexists. split; [reflexivity|].
           split; [intros e' [= <-]; reflexivity|].
           intros e' [= <-] _ Hs. apply bool_decide_eq_false in E422. contradiction.
      * eexists. split; [reflexivity|].
        split; [intros e' [= <-]; reflexivity|].
        intros e' [= <-] Hc _. unfold is_a in Eh. apply bool_decide_eq_false in Eh.
        contradiction.
  - intros e -> Hc.
    unfold _step5_secondary_token, try_except, await_httpx, bind, emit, modify, raise.
    simpl. unfold is_a. rewrite Hc. reflexivity.
  - intros r -> Hs.
    unfold _step5_secondary_token, try_except, await_httpx, bind, emit, modify, ret.
    simpl. unfold store_token_response, bind, lift, raise_for_status. rewrite Hs.
    reflexivity.
Qed.

Lemma steps_4b_and_5_failures_witness :
  _step4b_activate_session (BravadoRaises (Exn HTTPError "" (Some 422) None))
    (JStr "restricted") (JStr "session-1") (JStr "4711") restored_client
  = Some (Raises (error_from SessionActivationError
                    "Session activation failed: incorrect header format"
                    (Exn HTTPError "" (Some 422) None)),
          set_trace (trace restored_client ++ [EvBravado "sessionV1PatchSession"])
            restored_client).
Proof.
  destruct (proj1 (steps_4b_and_5_failures
                     (BravadoRaises (Exn HTTPError "" (Some 422) None))
                     (token_reply 600) 0
                     (JStr "restricted") (JStr "session-1") (JStr "4711")
                     restored_client))
    as (o & Hrun & _ & H422).
  rewrite (H422 _ eq_refl eq_refl eq_refl) in Hrun. exact Hrun.
Defined.

(** ** Refreshing *)

Lemma _save_tokens_to_storage_stores c a r expiry :
  _access_token c = a -> _refresh_token c = r -> _token_expiry c = Some expiry ->
  _save_tokens_to_storage c
  = Some (Returns tt, set_storage (stored_after a r expiry (_token_storage c)) c).
Proof.
  intros <- <- He. unfold _save_tokens_to_storage, stored_after, bind, get.
  rewrite He.
  assert (Hid : c = set_storage (_token_storage c) c) by (destruct c; reflexivity).
  destruct (truthy (_access_token c) && truthy (_refresh_token c));
    [|unfold ret; congruence].
  unfold try_except, save_tokens.
  destruct (storage_path (_token_storage c)) as [p|]; simpl; [|reflexivity].
  destruct (writable (_token_storage c)); simpl; reflexivity.
Qed.

Lemma refresh_token_complete c reply now access refresh expiry :
  truthy (_refresh_token c) = true ->
  complete_reply reply now access refresh expiry ->
  refresh_token reply now c
  = Some (Returns true,
          set_storage (stored_after access refresh expiry (_token_storage c))
            (set_tokens access refresh (Some expiry)
               (set_trace (trace c ++ [EvPost "refresh_token"]) c))).
Proof.
  intros Ht (r & data & ei & delta & -> & H401 & Hs & Hj & Ha & Hr & He & Hd & Hx).
  apply Z.eqb_neq in H401.
  unfold refresh_token, bind, gets, try_except, await_httpx, bind, emit, modify, ret.
  rewrite Ht; simpl. rewrite H401.
  unfold store_token_response, bind, lift, raise_for_status.
  rewrite Hs; simpl. rewrite Hj; simpl. rewrite Ha; simpl.
  rewrite Hr; simpl. rewrite He; simpl. rewrite Hd; simpl. rewrite Hx; simpl.
  erewrite _save_tokens_to_storage_stores by reflexivity.
  reflexivity.
Qed.

(** X9. A refresh that is answered 2xx with a complete token pair
    returns [True]; the access token, the refresh token and the expiry
    are replaced together by the response's values and the clock reading
    plus [expires_in]; the new pair is handed to the store if neither
    token is empty; one request is sent, no notification is emitted and
    the scheduler task is left alone. *)
Theorem refresh_success_replaces_the_pair c reply now access refresh expiry :
  truthy (_refresh_token c) = true ->
  complete_reply reply now access refresh expiry ->
  exists c',
    refresh_token reply now c = Some (Returns true, c') /\
    _access_token c' = access /\ _refresh_token c' = refresh /\
    _token_expiry c' = Some expiry /\
    _token_storage c' = stored_after access refresh expiry (_token_storage c) /\
    trace c' = trace c ++ [EvPost "refresh_token"] /\
    tasks c' = tasks c /\ _refresh_task c' = _refresh_task c.
Proof.
  intros Ht Hreply.
  rewrite (refresh_token_complete c reply now access refresh expiry Ht Hreply).
  eexists. split; [reflexivity|]. repeat split; reflexivity.
Qed.

Lemma refresh_success_replaces_the_pair_witness :
  exists c',
    refresh_token (token_reply 600) (77 * second) restored_client
    = Some (Returns true, c') /\
    _access_token c' = JStr "new-access" /\ _refresh_token c' = JStr "new-refresh" /\
    _token_expiry c' = Some (677 * second) /\
    _token_storage c'
    = stored_after (JStr "new-access") (JStr "new-refresh") (677 * second)
        (_token_storage restored_client) /\
    trace c' = trace restored_client ++ [EvPost "refresh_token"] /\
    tasks c' = tasks restored_client /\ _refresh_task c' = _refresh_task restored_client.
Proof.
  apply (refresh_success_replaces_the_pair restored_client (token_reply 600)
           (77 * second) (JStr "new-access") (JStr "new-refresh") (677 * second)).
  - reflexivity.
  - eexists _, _, _, _. repeat split; try reflexivity. discriminate.
Defined.

(** X10. A 2xx refresh response that has an access token but no refresh
    token makes [refresh_token()] raise the lookup's error instead of
    returning [False], with the access token already replaced and the
    refresh token and the expiry still the old ones; nothing is stored
    and nothing is notified. *)
Theorem refresh_malformed_reply_replaces_half_the_pair c r now data access e :
  truthy (_refresh_token c) = true ->
  status_code r <> 401 -> is_success r = true ->
  json r = Returns data ->
  subscript data "access_token" = Returns access ->
  subscript data "refresh_token" = Raises e ->
  refresh_token (HttpxResponse r) now c
  = Some (Raises e,
          set_tokens access (_refresh_token c) (_token_expiry c)
            (set_trace (trace c ++ [EvPost "refresh_token"]) c)).
Proof.
  intros Ht H401 Hs Hj Ha Hr.
  apply Z.eqb_neq in H401.
  assert (Hc : is_a e TimeoutException = false /\ is_a e HTTPStatusError = false).
  { unfold is_a. destruct (subscript_error_class _ _ _ Hr) as [-> | ->]; done. }
  destruct Hc as [Hc1 Hc2].
  unfold refresh_token, bind, gets, try_except, await_httpx, bind, emit, modify, ret.
  rewrite Ht; simpl. rewrite H401.
  unfold store_token_response, bind, lift, raise_for_status.
  rewrite Hs; simpl. rewrite Hj; simpl. rewrite Ha; simpl.
  rewrite Hr; simpl. rewrite Hc1, Hc2. reflexivity.
Qed.

Lemma refresh_malformed_reply_replaces_half_the_pair_witness :
  exists c',
    refresh_token (ok 200 (JObj [("access_token", JStr "new-access")])) 77 restored_client
    = Some (Raises (error KeyError "refresh_token"), c') /\
    _access_token c' = JStr "new-access" /\
    _refresh_token c' = JStr "old-refresh" /\
    _token_expiry c' = Some 1000.
Proof.
  eexists. split.
  - apply (refresh_malformed_reply_replaces_half_the_pair restored_client
             {| status_code := 200;
                json := Returns (JObj [("access_token", JStr "new-access")]) |}
             77 (JObj [("access_token", JStr "new-access")]) (JStr "new-access")
             (error KeyError "refresh_token"));
      first [reflexivity | discriminate].
  - repeat split; reflexivity.
Defined.

(** ** One pass of the scheduler *)

Lemma loop_once_awake c r expiry :
  _token_expiry c = Some expiry ->
  schedulable c expiry ->
  cancelled_in_sleep r = false \/ refresh_due_at c expiry <= loop_now r ->
  loop_once r c = refresh_or_give_up r (after_nap c expiry (loop_now r)).
Proof.
  intros He [Hd Hx] Hawake.
  unfold loop_once, refresh_or_give_up, after_nap, try_except_cancelled, bind, gets, lift.
  rewrite He. cbv beta iota. rewrite Hd. cbv beta iota. unfold ret at 1. cbv beta iota.
  rewrite Hx. unfold ret at 1. cbv beta iota zeta.
  change (refresh_due_at c expiry - loop_now r >? 0)
    with (refresh_due_at c expiry - loop_now r >? 0).
  destruct (refresh_due_at c expiry - loop_now r >? 0) eqn:Enap.
  - destruct Hawake as [Hc|Hdue]; [|apply Z.gtb_lt in Enap; lia].
    unfold await_sleep, sleep, bind, emit, modify, ret, cancelled; simpl.
    rewrite Hc. reflexivity.
  - unfold ret; simpl. reflexivity.
Qed.

Lemma after_nap_frame c expiry now :
  _access_token (after_nap c expiry now) = _access_token c /\
  _refresh_token (after_nap c expiry now) = _refresh_token c /\
  _token_expiry (after_nap c expiry now) = _token_expiry c /\
  _token_storage (after_nap c expiry now) = _token_storage c /\
  reauth_reasons (trace (after_nap c expiry now)) = reauth_reasons (trace c).
Proof.
  unfold after_nap. destruct (_ >? 0); simpl; repeat split; try reflexivity.
  unfold reauth_reasons. rewrite flat_map_app. simpl. apply app_nil_r.
Qed.

Lemma reauth_reasons_app t u :
  reauth_reasons (t ++ u) = reauth_reasons t ++ reauth_reasons u.
Proof. apply flat_map_app. Qed.

(** X11. A scheduler pass whose refresh fails ends the loop with the
    token pair cleared.  If the failure is a 401, the observer is notified
    twice, first of [token_refresh_failed], then of
    [automatic_refresh_failed]; if it is a timeout or another status that
    is not 2xx, once, of [automatic_refresh_failed]. *)
Theorem scheduler_gives_up_after_a_failed_refresh c r expiry :
  _token_expiry c = Some expiry ->
  schedulable c expiry ->
  cancelled_in_sleep r = false \/ refresh_due_at c expiry <= loop_now r ->
  truthy (_refresh_token c) = true ->
  (forall resp, refresh_reply r = HttpxResponse resp -> status_code resp = 401 ->
     exists c',
       loop_once r c = Some (Returns Leave, c') /\ tokens_cleared c' /\
       reauth_reasons (trace c')
       = reauth_reasons (trace c) ++ ["token_refresh_failed"; "automatic_refresh_failed"]) /\
  (transient_failure (refresh_reply r) ->
     exists c',
       loop_once r c = Some (Returns Leave, c') /\ tokens_cleared c' /\
       reauth_reasons (trace c')
       = reauth_reasons (trace c) ++ ["automatic_refresh_failed"]).
Proof.
  intros He Hs Hawake Ht.
  rewrite (loop_once_awake c r expiry He Hs Hawake).
  destruct (after_nap_frame c expiry (loop_now r)) as (_ & Hr & _ & _ & Hn).
  remember (after_nap c expiry (loop_now r)) as c0 eqn:E0. clear E0.
  rewrite <- Hr in Ht. rewrite <- Hn. clear Hr Hn.
  split.
  - intros resp Hreply H401.
    unfold refresh_or_give_up, refresh_token, try_except_cancelled, try_except, bind, gets,
      await_httpx,
      bind, emit, modify, ret.
    rewrite Ht, Hreply; simpl. rewrite H401; simpl.
    rewrite !_invoke_reauth_callback_run; simpl.
    rewrite !_invoke_reauth_callback_run; simpl.
    eexists. split; [reflexivity|]. split.
    + match goal with |- tokens_cleared (set_trace _ (cancel_refresh_task ?x)) =>
        destruct (cancel_refresh_task_tokens x) as (Ha & Hb & Hc) end.
      unfold tokens_cleared; simpl. rewrite Ha, Hb, Hc. done.
    + simpl.
      repeat match goal with |- context [trace (cancel_refresh_task ?x)] =>
        let H := fresh in
        destruct (cancel_refresh_task_frame x) as (_ & H & _); rewrite H; clear H; simpl
      end.
      rewrite !reauth_reasons_app. simpl. rewrite <- !app_assoc. reflexivity.
  - intros Htrans.
    unfold refresh_or_give_up, refresh_token, try_except_cancelled, try_except, bind, gets,
      await_httpx,
      bind, emit, modify, ret.
    rewrite Ht; simpl.
    destruct (refresh_reply r) as [resp|e|]; simpl in *; [| |contradiction].
    + destruct Htrans as [Hfail Hn]. apply Z.eqb_neq in Hn. rewrite Hn.
      unfold store_token_response, bind, lift, raise_for_status. rewrite Hfail. simpl.
      rewrite _invoke_reauth_callback_run; simpl.
      eexists. split; [reflexivity|]. split.
      * match goal with |- tokens_cleared (set_trace _ (cancel_refresh_task ?x)) =>
          destruct (cancel_refresh_task_tokens x) as (Ha & Hb & Hc) end.
        unfold tokens_cleared; simpl. rewrite Ha, Hb, Hc. done.
      * simpl.
        repeat match goal with |- context [trace (cancel_refresh_task ?x)] =>
          let H := fresh in
          destruct (cancel_refresh_task_frame x) as (_ & H & _); rewrite H; clear H; simpl
        end.
        rewrite !reauth_reasons_app. simpl. rewrite <- !app_assoc. reflexivity.
    + unfold raise, is_a. rewrite Htrans; simpl.
      rewrite _invoke_reauth_callback_run; simpl.
      eexists. split; [reflexivity|]. split.
      * match goal with |- tokens_cleared (set_trace _ (cancel_refresh_task ?x)) =>
          destruct (cancel_refresh_task_tokens x) as (Ha & Hb & Hc) end.
        unfold tokens_cleared; simpl. rewrite Ha, Hb, Hc. done.
      * simpl.
        repeat match goal with |- context [trace (cancel_refresh_task ?x)] =>
          let H := fresh in
          destruct (cancel_refresh_task_frame x) as (_ & H & _); rewrite H; clear H; simpl
        end.
        rewrite !reauth_reasons_app. simpl. rewrite <- !app_assoc. reflexivity.
Qed.

Lemma scheduler_gives_up_after_a_failed_refresh_witness :
  exists c',
    loop_once (pass (500 * second) false (ok 401 JNull)) expiring_client
    = Some (Returns Leave, c') /\ tokens_cleared c' /\
    reauth_reasons (trace c')
    = reauth_reasons (trace expiring_client)
      ++ ["token_refresh_failed"; "automatic_refresh_failed"].
Proof.
  refine (proj1 (scheduler_gives_up_after_a_failed_refresh expiring_client
                   (pass (500 * second) false (ok 401 JNull)) (600 * second)
                   eq_refl _ _ eq_refl)
            {| status_code := 401; json := Returns JNull |} eq_refl eq_refl).
  - split; reflexivity.
  - left. reflexivity.
Defined.

(** X12. While the moment to refresh (the expiry minus the threshold)
    lies ahead, a scheduler pass sleeps exactly until then; if the task is
    cancelled during that sleep the pass ends the loop without sending a
    request, emitting a notification or touching the token pair. *)
Theorem scheduler_cancelled_in_its_sleep c r expiry :
  _token_expiry c = Some expiry ->
  schedulable c expiry ->
  loop_now r < refresh_due_at c expiry ->
  cancelled_in_sleep r = true ->
  loop_once r c
  = Some (Returns Leave,
          set_trace (trace c ++ [EvSleep (refresh_due_at c expiry - loop_now r)]) c).
Proof.
  intros He [Hd Hx] Hahead Hc.
  unfold loop_once, try_except_cancelled, bind, gets, lift.
  rewrite He. cbv beta iota. rewrite Hd. cbv beta iota. unfold ret at 1. cbv beta iota.
  rewrite Hx. unfold ret at 1. cbv beta iota zeta.
  replace (refresh_due_at c expiry - loop_now r >? 0) with true
    by (symmetry; apply Z.gtb_lt; lia).
  unfold await_sleep, sleep, bind, emit, modify, ret, cancelled; simpl.
  rewrite Hc. reflexivity.
Qed.

Lemma scheduler_cancelled_in_its_sleep_witness :
  loop_once (pass (100 * second) true (ok 401 JNull)) expiring_client
  = Some (Returns Leave,
          set_trace (trace expiring_client ++ [EvSleep (380 * second)]) expiring_client).
Proof.
  apply (scheduler_cancelled_in_its_sleep expiring_client
           (pass (100 * second) true (ok 401 JNull)) (600 * second)).
  - reflexivity.
  - split; reflexivity.
  - reflexivity.
  - reflexivity.
Defined.



(** ** One pass of the polling loop, whatever the reply *)

Lemma poll_once_shape w i access_token poll_url tan_type c :
  exists o polled notes,
    poll_once w i access_token poll_url tan_type c
    = Some (o, set_trace (trace c ++ EvSleep (poll_interval * second) :: polled
                          ++ notes) c) /\
    (polled = [EvGet poll_url] \/ polled = [] /\ notes = []) /\
    Forall is_tan_note notes /\
    (o = Returns Leave ->
     polled = [EvGet poll_url] /\ exists data, notes = [EvTanStatus "approved" data]).
Proof.
  assert (Hquiet : forall o : outcome flow, o <> Returns Leave ->
            exists o' polled notes,
              Some (o, set_trace ((trace c ++ [EvSleep (poll_interval * second)])
                                  ++ [EvGet poll_url]) c)
              = Some (o', set_trace (trace c ++ EvSleep (poll_interval * second)
                                     :: polled ++ notes) c) /\
              (polled = [EvGet poll_url] \/ polled = [] /\ notes = []) /\
              Forall is_tan_note notes /\
              (o' = Returns Leave ->
               polled = [EvGet poll_url] /\
               exists data, notes = [EvTanStatus "approved" data])).
  { intros o Ho. exists o, [EvGet poll_url], []. rewrite <- app_assoc.
    split; [reflexivity|]. split; [left; reflexivity|].
    split; [constructor|]. intros ->. contradiction. }
  unfold poll_once, await_sleep, asleep, sleep, try_except, await_httpx, bind, emit,
    modify, lift.
  cbn [trace set_trace].
  destruct (poll_reply w i) as [r|e|]; unfold ret, raise, cancelled;
    cbn [trace set_trace].
  2: { destruct (is_a e TimeoutException); apply Hquiet; discriminate. }
  2: { destruct (cancelled_asleep w i); [|apply Hquiet; discriminate].
       exists Cancelled, [], []. split; [reflexivity|].
       split; [right; split; reflexivity|]. split; [constructor|intros [=]]. }
  destruct (status_code r =? 200); [|apply Hquiet; discriminate].
  destruct (json r) as [data|e|].
  2: { destruct (is_a e TimeoutException); apply Hquiet; discriminate. }
  2: { apply Hquiet; discriminate. }
  destruct (dict_get data "status") as [status|e|].
  2: { destruct (is_a e TimeoutException); apply Hquiet; discriminate. }
  2: { apply Hquiet; discriminate. }
  destruct (eq_str status "AUTHENTICATED").
  { rewrite _invoke_tan_status_callback_run. cbn [trace set_trace].
    eexists _, [EvGet poll_url], [_]. rewrite <- !app_assoc.
    split; [reflexivity|]. split; [left; reflexivity|].
    split; [repeat constructor; eexists _, _; reflexivity|].
    intros _. split; [reflexivity|]. eexists. reflexivity. }
  destruct (eq_str status "PENDING").
  2: { cbn. apply Hquiet; discriminate. }
  destruct ((_ mod 10 =? 0) && _).
  - rewrite _invoke_tan_status_callback_run. cbn [trace set_trace].
    eexists _, [EvGet poll_url], [_]. rewrite <- !app_assoc.
    split; [reflexivity|]. split; [left; reflexivity|].
    split; [repeat constructor; eexists _, _; reflexivity|intros [=]].
  - apply Hquiet; discriminate.
Qed.

Lemma tan_notes_count (p : event -> bool) notes :
  (forall status data, p (EvTanStatus status data) = false) ->
  Forall is_tan_note notes -> count p notes = 0%nat.
Proof.
  intros Hp H. induction H as [|e notes (status & data & ->) _ IH]; [reflexivity|].
  unfold count in *. simpl. rewrite Hp. exact IH.
Qed.

(** What one pass adds to the trace holds at most one poll and no token
    exchange. *)
Lemma poll_once_counts poll_url polled notes :
  polled = [EvGet poll_url] \/ polled = [] /\ notes = [] ->
  Forall is_tan_note notes ->
  (count is_poll (EvSleep (poll_interval * second) :: polled ++ notes) <= 1)%nat /\
  count is_exchange (EvSleep (poll_interval * second) :: polled ++ notes) = 0%nat.
Proof.
  intros Hp Hn.
  assert (H1 : count is_poll notes = 0%nat)
    by (apply tan_notes_count; [reflexivity|exact Hn]).
  assert (H2 : count is_exchange notes = 0%nat)
    by (apply tan_notes_count; [reflexivity|exact Hn]).
  change (EvSleep (poll_interval * second) :: polled ++ notes)
    with ([EvSleep (poll_interval * second)] ++ polled ++ notes).
  rewrite !count_app, H1, H2.
  destruct Hp as [->|[-> _]]; unfold count; simpl; lia.
Qed.

Lemma poll_loop_ends w access_token poll_url tan_type :
  clock_advances w ->
  forall (n i fuel : nat) c,
    (n < fuel)%nat ->
    (timeout - Z.of_nat n) * second <= guard_time w i - start_time w ->
    exists o p,
      poll_loop fuel w i access_token poll_url tan_type c
      = Some (o, set_trace (trace c ++ p) c) /\
      (count is_poll p <= n)%nat.
Proof.
  intros [_ Hclock].
  induction n as [|n IH]; intros i fuel c Hfuel Hguard;
    (destruct fuel as [|fuel]; [lia|]); cbn [poll_loop].
  - replace (guard_time w i - start_time w <? timeout * second) with false
      by (symmetry; apply Z.ltb_ge; simpl in Hguard; unfold timeout in *; lia).
    unfold bind. rewrite _invoke_tan_status_callback_run. unfold raise.
    eexists _, [_]. split; [reflexivity|]. unfold count; simpl; lia.
  - destruct (guard_time w i - start_time w <? timeout * second) eqn:E.
    + destruct (poll_once_shape w i access_token poll_url tan_type c)
        as (o1 & polled & notes & Hrun & Hpolled & Hnotes & _).
      unfold bind. rewrite Hrun.
      destruct (poll_once_counts poll_url polled notes Hpolled Hnotes) as [Hn _].
      remember (EvSleep (poll_interval * second) :: polled ++ notes) as pass eqn:Epass.
      clear Epass.
      destruct o1 as [[]|e|].
      4: { eexists _, _. split; [reflexivity|]. lia. }
      * destruct (Hclock i) as [Hsleep Hnext].
        edestruct (IH (S i) fuel (set_trace (trace c ++ pass) c))
          as (o & p & Hloop & Hp).
        { lia. }
        { apply Z.ltb_lt in E. unfold poll_interval, second, timeout in *. lia. }
        rewrite Hloop. cbn [trace set_trace]. rewrite set_trace_set_trace.
        eexists o, _. rewrite <- !app_assoc. split; [reflexivity|].
        rewrite !count_app. lia.
      * unfold ret. eexists _, _. split; [reflexivity|]. lia.
      * eexists _, _. split; [reflexivity|]. lia.
    + unfold bind. rewrite _invoke_tan_status_callback_run. unfold raise.
      eexists _, [_]. split; [reflexivity|]. unfold count; simpl; lia.
Qed.

(** X14. On a clock that advances, step 4 always ends, whatever the
    server answers: given fuel for 61 passes it returns, raises or is
    cancelled in a poll after at most 60 polls, and it changes nothing of
    the client but the trace. *)
Theorem polling_always_ends w fuel access_token poll_url tan_type c :
  clock_advances w ->
  (61 <= fuel)%nat ->
  exists o p,
    _step4_poll_tan_approval fuel w access_token poll_url tan_type c
    = Some (o, set_trace (trace c ++ p) c) /\
    (count is_poll p <= 60)%nat.
Proof.
  intros Hclock Hfuel.
  unfold _step4_poll_tan_approval, bind. rewrite _invoke_tan_status_callback_run.
  edestruct (poll_loop_ends w access_token poll_url tan_type Hclock 60 0%nat fuel)
    as (o & p & Hloop & Hp).
  { lia. }
  { destruct Hclock as [H0 _]. unfold timeout. simpl. lia. }
  rewrite Hloop. cbn [trace set_trace]. rewrite set_trace_set_trace.
  eexists o, _. rewrite <- app_assoc. split; [reflexivity|].
  rewrite count_app. unfold count at 1; simpl. exact Hp.
Qed.

Lemma polling_always_ends_witness :
  exists o p,
    _step4_poll_tan_approval 61 (ticking (fun _ => ok 503 JNull))
      (JStr "restricted") (JStr "/api/session/poll") (JStr "P_TAN_PUSH") restored_client
    = Some (o, set_trace (trace restored_client ++ p) restored_client) /\
    (count is_poll p <= 60)%nat.
Proof.
  apply (polling_always_ends (ticking (fun _ => ok 503 JNull)) 61
           (JStr "restricted") (JStr "/api/session/poll") (JStr "P_TAN_PUSH")
           restored_client).
  - split; [simpl; unfold second; lia|].
    intros i; simpl. unfold poll_interval, second. lia.
  - lia.
Defined.

(** ** Invariants of whole runs *)

Section Stable.

Variable I : ComdirectClient -> Prop.
Variable good : event -> Prop.

Hypothesis I_ext :
  forall c c', trace c' = trace c -> _token_storage c' = _token_storage c -> I c -> I c'.
Hypothesis I_emit :
  forall e c, good e -> I c -> I (set_trace (trace c ++ [e]) c).
Hypothesis good_quiet :
  forall e, is_exchange e = false -> is_reauth e = false -> good e.

Lemma stable_ret {A} (a : A) : stable I (ret a).
Proof using Type. intros c o c' H [= <- <-]. exact H. Qed.

Lemma stable_raise {A} e : stable I (@raise A e).
Proof using Type. intros c o c' H [= <- <-]. exact H. Qed.

Lemma stable_cancelled {A} : stable I (@cancelled A).
Proof using Type. intros c o c' H [= <- <-]. exact H. Qed.

Lemma stable_out_of_fuel {A} : stable I (@out_of_fuel A).
Proof using Type. intros c o c' H. discriminate. Qed.

Lemma stable_lift {A} (o : outcome A) : stable I (lift o).
Proof using Type.
  destruct o; [apply stable_ret|apply stable_raise|apply stable_cancelled].
Qed.

Lemma stable_gets {A} (f : ComdirectClient -> A) : stable I (gets f).
Proof using Type. intros c o c' H [= <- <-]. exact H. Qed.

Lemma stable_bind {A B} (m : M A) (k : A -> M B) :
  stable I m -> (forall a, stable I (k a)) -> stable I (bind m k).
Proof using Type.
  intros Hm Hk. eapply hoare_bind; [exact Hm|exact Hk| |].
  - intros e c H; exact H.
  - intros c H; exact H.
Qed.

Lemma stable_try_except {A} (m : M A) handler :
  stable I m ->
  (forall e, match handler e with Some h => stable I h | None => True end) ->
  stable I (try_except m handler).
Proof using Type.
  intros Hm Hh c o c' HP. unfold try_except.
  destruct (m c) as [[[a|e|] c1]|] eqn:E; [| | |discriminate].
  - intros [= <- <-]. eapply Hm; eauto.
  - specialize (Hh e). destruct (handler e) as [h|].
    + intros H. eapply Hh; [|exact H]. eapply Hm; eauto.
    + intros [= <- <-]. eapply Hm; eauto.
  - intros [= <- <-]. eapply Hm; eauto.
Qed.

Lemma stable_modify f :
  (forall c, trace (f c) = trace c /\ _token_storage (f c) = _token_storage c) ->
  stable I (modify f).
Proof using I_ext.
  intros Hf c o c' H [= <- <-]. destruct (Hf c) as [Ht Hs]. eapply I_ext; eauto.
Qed.

Lemma stable_emit e : good e -> stable I (emit e).
Proof using I_emit. intros He c o c' H [= <- <-]. apply I_emit; assumption. Qed.

Lemma stable_tan_status_callback status data :
  stable I (_invoke_tan_status_callback status data).
Proof using I_emit good_quiet.
  intros c o c' H. rewrite _invoke_tan_status_callback_run. intros [= <- <-].
  apply I_emit; [apply good_quiet; reflexivity|exact H].
Qed.

Lemma stable_cancel_refresh_task : stable I (modify cancel_refresh_task).
Proof using I_ext.
  apply stable_modify. intros c.
  destruct (cancel_refresh_task_frame c) as (Hs & Ht & _). split; assumption.
Qed.

Lemma stable_clear_tokens : stable I _clear_tokens.
Proof using I_ext.
  unfold _clear_tokens. apply stable_bind; [|intros _; apply stable_cancel_refresh_task].
  apply stable_modify. intros c. split; reflexivity.
Qed.

Lemma stable_start_refresh_task running : stable I (_start_refresh_task running).
Proof using I_ext.
  unfold _start_refresh_task.
  apply stable_bind; [apply stable_cancel_refresh_task|intros _].
  destruct running; [|apply stable_raise].
  apply stable_modify. intros c. split; reflexivity.
Qed.

(** Walks through a computation that emits only events that are neither
    the token exchange nor a reauth notification. *)
Ltac stable_step :=
  lazymatch goal with
  | |- stable _ (bind _ _) => apply stable_bind; [|intros ?]
  | |- stable _ (try_except _ _) => apply stable_try_except; [|intros ?]
  | |- stable _ (ret _) => apply stable_ret
  | |- stable _ (raise _) => apply stable_raise
  | |- stable _ cancelled => apply stable_cancelled
  | |- stable _ (lift _) => apply stable_lift
  | |- stable _ (gets _) => apply stable_gets
  | |- stable _ out_of_fuel => apply stable_out_of_fuel
  | |- stable _ (emit _) => apply stable_emit; apply good_quiet; reflexivity
  | |- stable _ (sleep _) => unfold sleep
  | |- stable _ (await_sleep _ _) => unfold await_sleep
  | |- stable _ (await_httpx _ _) => unfold await_httpx
  | |- stable _ (await_bravado _ _) => unfold await_bravado
  | |- stable _ (_invoke_tan_status_callback _ _) => apply stable_tan_status_callback
  | |- stable _ (match ?x with _ => _ end) => destruct x
  | |- match (match ?x with _ => _ end) with _ => _ end => destruct x
  | |- match Some _ with _ => _ end => cbv iota beta
  | |- match None with _ => _ end => exact Logic.I
  | |- True => exact Logic.I
  end.

Ltac stable_walk := repeat stable_step.

Lemma stable_step1 reply : stable I (_step1_password_credentials reply).
Proof using I_emit good_quiet. unfold _step1_password_credentials. stable_walk. Qed.

Lemma stable_step2 reply t : stable I (_step2_session_status reply t).
Proof using I_emit good_quiet. unfold _step2_session_status. stable_walk. Qed.

Lemma stable_step3 json_loads reply t s :
  stable I (_step3_tan_challenge json_loads reply t s).
Proof using I_emit good_quiet. unfold _step3_tan_challenge. stable_walk. Qed.

Lemma stable_poll_once w i t u ty : stable I (poll_once w i t u ty).
Proof using I_emit good_quiet. unfold poll_once. stable_walk. Qed.

Lemma stable_poll_loop fuel w : forall i t u ty, stable I (poll_loop fuel w i t u ty).
Proof using I_emit good_quiet.
  induction fuel as [|fuel IH]; intros i t u ty; cbn [poll_loop];
    [apply stable_out_of_fuel|].
  destruct (_ <? _).
  - apply stable_bind; [apply stable_poll_once|].
    intros []; [apply IH|apply stable_ret].
  - stable_walk.
Qed.

Lemma stable_step4 fuel w t u ty : stable I (_step4_poll_tan_approval fuel w t u ty).
Proof using I_emit good_quiet.
  unfold _step4_poll_tan_approval.
  apply stable_bind; [apply stable_tan_status_callback|intros _; apply stable_poll_loop].
Qed.

Lemma stable_step4b reply t s ch : stable I (_step4b_activate_session reply t s ch).
Proof using I_emit good_quiet. unfold _step4b_activate_session. stable_walk. Qed.

Lemma stable_before_exchange json_loads fuel w :
  stable I (before_exchange json_loads fuel w).
Proof using I_emit good_quiet.
  unfold before_exchange.
  apply stable_bind; [apply stable_step1|intros initial_token].
  apply stable_bind; [apply stable_step2|intros session_uuid].
  apply stable_bind; [apply stable_step3|intros [[cid ty] url]].
  apply stable_bind; [apply stable_step4|intros _].
  apply stable_bind; [apply stable_step4b|intros _].
  apply stable_ret.
Qed.

End Stable.

Lemma bind_run {A B} (m : M A) (k : A -> M B) c o c' :
  bind m k c = Some (o, c') ->
  (exists e, m c = Some (Raises e, c') /\ o = Raises e) \/
  (m c = Some (Cancelled, c') /\ o = Cancelled) \/
  (exists a c1, m c = Some (Returns a, c1) /\ k a c1 = Some (o, c')).
Proof.
  unfold bind. destruct (m c) as [[[a|e|] c1]|]; [| | |discriminate].
  - intros H. right. right. eauto.
  - intros [= <- <-]. left. eauto.
  - intros [= <- <-]. right. left. eauto.
Qed.

Lemma authenticate_steps_split json_loads fuel w c :
  authenticate_steps json_loads fuel w c
  = bind (before_exchange json_loads fuel w)
      (fun initial_token =>
         _step5_secondary_token (step5_reply w) (step5_now w) initial_token ;;;
         _start_refresh_task true) c.
Proof.
  unfold authenticate_steps, before_exchange, bind.
  destruct (_step1_password_credentials _ c) as [[[tok| |] c1]|]; [|reflexivity..].
  destruct (_step2_session_status _ _ c1) as [[[sid| |] c2]|]; [|reflexivity..].
  destruct (_step3_tan_challenge _ _ _ _ c2) as [[[[[cid ty] url]| |] c3]|];
    [|reflexivity..].
  destruct (_step4_poll_tan_approval _ _ _ _ _ c3) as [[[[]| |] c4]|]; [|reflexivity..].
  destruct (_step4b_activate_session _ _ _ _ c4) as [[[[]| |] c5]|]; reflexivity.
Qed.

Lemma authenticate_run json_loads fuel w c o c' :
  authenticate json_loads fuel w c = Some (o, c') ->
  exists c1,
    trace c' = trace c1 /\ _token_storage c' = _token_storage c1 /\
    ((o = Returns tt /\ c' = c1 /\
      authenticate_steps json_loads fuel w c = Some (Returns tt, c1)) \/
     (exists e, o = Raises e /\
                authenticate_steps json_loads fuel w c = Some (Raises e, c1)) \/
     (o = Cancelled /\ c' = c1 /\
      authenticate_steps json_loads fuel w c = Some (Cancelled, c1))).
Proof.
  unfold authenticate, try_except.
  destruct (authenticate_steps json_loads fuel w c) as [[[[]|e|] c1]|];
    [| | |discriminate].
  - intros [= <- <-]. exists c1. split; [reflexivity|]. split; [reflexivity|].
    left. done.
  - unfold bind. rewrite _clear_tokens_run. intros [= <- <-]. exists c1.
    destruct (cancel_refresh_task_frame (set_tokens JNull JNull None c1))
      as (Hs & Ht & _).
    split; [exact Ht|]. split; [exact Hs|]. right. left. eauto.
  - intros [= <- <-]. exists c1. split; [reflexivity|]. split; [reflexivity|].
    right. right. done.
Qed.

Lemma store_token_response_run r now c o c' :
  store_token_response r now c = Some (o, c') ->
  trace c' = trace c /\
  (forall e, o = Raises e -> _token_storage c' = _token_storage c) /\
  (o = Cancelled -> c' = c).
Proof.
  unfold store_token_response, bind, lift, assign_access_token, assign_refresh_token,
    assign_token_expiry, modify.
  destruct (raise_for_status r) as [[]|e0|] eqn:E0; unfold ret, raise, cancelled.
  2: { intros [= <- <-]. repeat split; reflexivity. }
  2: { exfalso. exact (raise_for_status_not_cancelled _ E0). }
  destruct (json r) as [data|e1|].
  2: { intros [= <- <-]. repeat split; reflexivity. }
  2: { intros [= <- <-]. repeat split; reflexivity. }
  destruct (subscript data "access_token") as [a|e2|] eqn:E2.
  2: { intros [= <- <-]. repeat split; reflexivity. }
  2: { exfalso. exact (subscript_not_cancelled _ _ E2). }
  destruct (subscript data "refresh_token") as [rt|e3|] eqn:E3.
  2: { intros [= <- <-]. repeat split; try reflexivity. intros [=]. }
  2: { exfalso. exact (subscript_not_cancelled _ _ E3). }
  destruct (subscript data "expires_in") as [ei|e4|] eqn:E4.
  2: { intros [= <- <-]. repeat split; try reflexivity. intros [=]. }
  2: { exfalso. exact (subscript_not_cancelled _ _ E4). }
  destruct (timedelta_seconds ei) as [delta|e5|] eqn:E5.
  2: { intros [= <- <-]. repeat split; try reflexivity. intros [=]. }
  2: { exfalso. exact (timedelta_seconds_not_cancelled _ E5). }
  destruct (datetime_add now delta) as [x|e6|] eqn:E6.
  2: { intros [= <- <-]. repeat split; try reflexivity. intros [=]. }
  2: { exfalso. exact (datetime_add_not_cancelled _ _ E6). }
  match goal with |- _save_tokens_to_storage ?x = _ -> _ =>
    destruct (_save_tokens_to_storage_run x) as (s & ->) end.
  intros [= <- <-]. split; [reflexivity|]. split; [intros e [=]|intros [=]].
Qed.

Lemma _step5_secondary_token_run reply now initial_token c o c' :
  _step5_secondary_token reply now initial_token c = Some (o, c') ->
  trace c' = trace c ++ [exchange] /\
  (forall e, o = Raises e -> _token_storage c' = _token_storage c) /\
  (o = Cancelled -> c' = set_trace (trace c ++ [exchange]) c).
Proof.
  unfold _step5_secondary_token, try_except, await_httpx, bind, emit, modify.
  cbn [trace set_trace].
  destruct reply as [r|e0|]; unfold ret, raise, cancelled.
  - destruct (store_token_response r now _) as [[[[]|e1|] c1]|] eqn:E;
      [| | |discriminate].
    + apply store_token_response_run in E as (Ht & _ & _).
      intros [= <- <-]. split; [exact Ht|]. split; [intros e [=]|intros [=]].
    + apply store_token_response_run in E as (Ht & Hs & _).
      specialize (Hs e1 eq_refl).
      destruct (is_a e1 TimeoutException); [|destruct (is_a e1 HTTPStatusError)];
        intros [= <- <-];
        (split; [exact Ht|]; split; [intros; exact Hs|intros [=]]).
    + apply store_token_response_run in E as (Ht & _ & Hc).
      intros [= <- <-]. split; [exact Ht|]. split; [intros e [=]|].
      intros _. exact (Hc eq_refl).
  - destruct (is_a e0 TimeoutException); [|destruct (is_a e0 HTTPStatusError)];
      intros [= <- <-];
      (split; [reflexivity|]; split; [intros; reflexivity|intros [=]]).
  - intros [= <- <-]. split; [reflexivity|]. split; [intros e [=]|reflexivity].
Qed.

Lemma _start_refresh_task_frame c :
  exists c',
    _start_refresh_task true c = Some (Returns tt, c') /\
    trace c' = trace c /\ _token_storage c' = _token_storage c.
Proof.
  unfold _start_refresh_task, bind, modify. eexists. split; [reflexivity|].
  destruct (cancel_refresh_task_frame c) as (Hs & Ht & _). simpl. done.
Qed.

(** ** Failed and cancelled authentication *)

(** Steps 1 to 4b change nothing of the client but the trace. *)
Lemma before_exchange_frame json_loads fuel w c o c' :
  before_exchange json_loads fuel w c = Some (o, c') ->
  c' = set_trace (trace c') c.
Proof.
  intros H.
  assert (Hst : stable (fun c0 => c0 = set_trace (trace c0) c)
                  (before_exchange json_loads fuel w)).
  { apply (stable_before_exchange _ (fun _ => True)).
    - intros e c0 _ H0. cbn [trace set_trace].
      rewrite <- (set_trace_set_trace _ (trace c0) c), <- H0. reflexivity.
    - intros; exact Logic.I. }
  eapply Hst; [|exact H]. destruct c; reflexivity.
Qed.

(** C1, as the code has it. When one of the steps of [authenticate()]
    raises an exception of the [Exception] hierarchy, [authenticate()]
    raises that same exception to its caller, and afterwards access
    token, refresh token and expiry are all [None], whatever the client
    held before and whatever the failing step had already assigned.  When
    instead the run is cancelled while a step waits for a reply, the
    cancellation passes the [except Exception] clause: [authenticate()]
    ends cancelled with nothing cleared, the client being what it was
    before the call but for the trace of what it did. *)
Theorem authenticate_failure_clears_tokens json_loads fuel w c o c1 :
  authenticate_steps json_loads fuel w c = Some (o, c1) ->
  (forall e, o = Raises e ->
     exists c',
       authenticate json_loads fuel w c = Some (Raises e, c') /\
       tokens_cleared c') /\
  (o = Cancelled ->
     authenticate json_loads fuel w c = Some (Cancelled, c1) /\
     c1 = set_trace (trace c1) c).
Proof.
  intros H. split.
  - intros e ->.
    exists (cancel_refresh_task (set_tokens JNull JNull None c1)).
    split; [apply authenticate_reraises, H|apply tokens_cleared_after_clear].
  - intros ->. split.
    + unfold authenticate, try_except. rewrite H. reflexivity.
    + rewrite authenticate_steps_split in H.
      apply bind_run in H as [(e & _ & [=])|[(H & _)|(tok & c2 & Hrun & H)]].
      * eapply before_exchange_frame, H.
      * apply before_exchange_frame in Hrun.
        apply bind_run in H as [(e & _ & [=])|[(H & _)|([] & c3 & _ & H)]].
        -- apply _step5_secondary_token_run in H as (_ & _ & Hc).
           rewrite (Hc eq_refl). cbn [trace set_trace].
           rewrite Hrun at 2. reflexivity.
        -- destruct (_start_refresh_task_frame c3) as (c4 & Hstart & _).
           rewrite Hstart in H. discriminate.
Qed.

Lemma authenticate_failure_clears_tokens_witness :
  _access_token half_a_pair_state = JStr "new-access" /\
  authenticate_steps table_loads 5 half_a_pair restored_client
  = Some (Raises (error KeyError "refresh_token"), half_a_pair_state) /\
  exists c',
    authenticate table_loads 5 half_a_pair restored_client
    = Some (Raises (error KeyError "refresh_token"), c') /\
    tokens_cleared c'.
Proof.
  split; [reflexivity|].
  split; [vm_compute; reflexivity|].
  refine (proj1 (authenticate_failure_clears_tokens table_loads 5 half_a_pair
                   restored_client (Raises (error KeyError "refresh_token"))
                   half_a_pair_state _) _ eq_refl).
  vm_compute; reflexivity.
Defined.

(** C1 as stated fails: the [CancelledError] that leaves a step when the
    task is cancelled in one of its [await]s is not an [Exception]; it
    passes the [except] clause of [authenticate()], and the pair the
    client held before the call is still there.  So it is when the task
    is cancelled in the token exchange of step 5, and when it is cancelled
    in a sleep of the polling loop of step 4. *)
Lemma cancelled_authentication_keeps_the_pair :
  (exists c',
     authenticate_steps table_loads 5 cancelled_world restored_client
     = Some (Cancelled, c') /\
     authenticate table_loads 5 cancelled_world restored_client = Some (Cancelled, c') /\
     _access_token c' = JStr "old-access" /\
     _refresh_token c' = JStr "old-refresh" /\
     _token_expiry c' = Some 1000 /\
     ~ tokens_cleared c') /\
  (exists c',
     authenticate table_loads 5 cancelled_waiting_world restored_client
     = Some (Cancelled, c') /\
     List.filter is_sleep_or_poll (trace c')
     = [EvSleep (poll_interval * second); EvGet (JStr "/api/session/poll");
        EvSleep (poll_interval * second)] /\
     _access_token c' = JStr "old-access" /\
     _refresh_token c' = JStr "old-refresh" /\
     _token_expiry c' = Some 1000 /\
     ~ tokens_cleared c').
Proof.
  split.
  - eexists. split; [vm_compute; reflexivity|].
    split; [vm_compute; reflexivity|].
    split; [reflexivity|]. split; [reflexivity|]. split; [reflexivity|].
    intros (H & _). discriminate H.
  - eexists. split; [vm_compute; reflexivity|].
    split; [reflexivity|].
    split; [reflexivity|]. split; [reflexivity|]. split; [reflexivity|].
    intros (H & _). discriminate H.
Qed.

(** X15. A failed [authenticate()] leaves the persisted token file as
    it was: the pair is cleared in memory only, so a pair stored earlier
    is still there for the next start to restore. *)
Theorem failed_authentication_keeps_the_file json_loads fuel w c e c' :
  authenticate json_loads fuel w c = Some (Raises e, c') ->
  _token_storage c' = _token_storage c.
Proof.
  intros H.
  apply authenticate_run in H as (c1 & _ & -> & [(Ho & _)|[(e' & _ & H)|(Ho & _)]]);
    [discriminate| |discriminate].
  rewrite authenticate_steps_split in H.
  assert (Hbefore : stable (fun c0 => _token_storage c0 = _token_storage c)
                      (before_exchange json_loads fuel w)).
  { apply (stable_before_exchange _ (fun _ => True)).
    - intros ev c0 _ H0. exact H0.
    - intros; exact Logic.I. }
  apply bind_run in H as [(e0 & H & _)|[(_ & [=])|(tok & c2 & Hrun & H)]].
  - eapply Hbefore; [reflexivity|exact H].
  - assert (H2 : _token_storage c2 = _token_storage c)
      by (eapply Hbefore; [reflexivity|exact Hrun]).
    apply bind_run in H as [(e0 & H & _)|[(_ & [=])|([] & c3 & _ & H)]].
    + apply _step5_secondary_token_run in H as (_ & Hs & _).
      rewrite (Hs e0 eq_refl). exact H2.
    + destruct (_start_refresh_task_frame c3) as (c4 & Hstart & _).
      rewrite Hstart in H. discriminate.
Qed.

Lemma failed_authentication_keeps_the_file_witness :
  exists c',
    authenticate table_loads 61 rejected_world restored_client
    = Some (Raises (error AuthenticationError "Unexpected TAN status: "), c') /\
    _token_storage c' = disk /\ tokens_cleared c'.
Proof.
  assert (H : exists c',
    authenticate table_loads 61 rejected_world restored_client
    = Some (Raises (error AuthenticationError "Unexpected TAN status: "), c') /\
    tokens_cleared c').
  { eexists. split; [vm_compute; reflexivity|]. repeat split. }
  destruct H as (c' & Hrun & Hclr). exists c'.
  split; [exact Hrun|]. split; [|exact Hclr].
  exact (failed_authentication_keeps_the_file table_loads 61 rejected_world
           restored_client _ c' Hrun).
Defined.

Lemma not_exchanged_since_emit t0 e c :
  is_exchange e = false ->
  not_exchanged_since t0 c -> not_exchanged_since t0 (set_trace (trace c ++ [e]) c).
Proof.
  intros He (p & Ht & Hp). exists (p ++ [e]). cbn [trace set_trace].
  rewrite Ht, <- app_assoc. split; [reflexivity|].
  rewrite count_app, Hp. unfold count; simpl. rewrite He. reflexivity.
Qed.

Lemma approved_since_emit t0 e c :
  approved_since t0 c -> approved_since t0 (set_trace (trace c ++ [e]) c).
Proof.
  intros (p1 & data & p2 & Ht & Hp). exists p1, data, (p2 ++ [e]).
  cbn [trace set_trace]. rewrite Ht, <- !app_assoc. split; [reflexivity|exact Hp].
Qed.

Lemma approved_since_ext t0 c c' :
  trace c' = trace c -> approved_since t0 c -> approved_since t0 c'.
Proof. intros Ht (p1 & data & p2 & H & Hp). exists p1, data, p2. rewrite Ht. done. Qed.

Lemma poll_loop_returns_after_approval t0 fuel w access_token poll_url tan_type :
  forall i c c',
    poll_loop fuel w i access_token poll_url tan_type c = Some (Returns tt, c') ->
    not_exchanged_since t0 c -> approved_since t0 c'.
Proof.
  induction fuel as [|fuel IH]; intros i c c'; cbn [poll_loop]; [discriminate|].
  destruct (_ <? _).
  2: { unfold bind. rewrite _invoke_tan_status_callback_run. discriminate. }
  destruct (poll_once_shape w i access_token poll_url tan_type c)
    as (o1 & polled & notes & Hrun & Hpolled & Hnotes & Hleave).
  unfold bind. rewrite Hrun. intros H (p & Ht & Hp).
  destruct (poll_once_counts poll_url polled notes Hpolled Hnotes) as [_ Hn].
  destruct o1 as [[]|e|]; [| |discriminate..].
  - eapply IH; [exact H|].
    exists (p ++ EvSleep (poll_interval * second) :: polled ++ notes).
    cbn [trace set_trace]. rewrite Ht, <- !app_assoc. split; [reflexivity|].
    rewrite count_app, Hp, Hn. reflexivity.
  - injection H as <-. destruct (Hleave eq_refl) as (-> & data & ->).
    exists (p ++ [EvSleep (poll_interval * second); EvGet poll_url]), data, [].
    cbn [trace set_trace]. rewrite Ht, <- !app_assoc. split; [reflexivity|].
    rewrite count_app, Hp. reflexivity.
Qed.

Lemma before_exchange_returns_after_approval json_loads fuel w c initial_token c' :
  before_exchange json_loads fuel w c = Some (Returns initial_token, c') ->
  approved_since (trace c) c'.
Proof.
  assert (Hemit : forall e c0, is_exchange e = false ->
            not_exchanged_since (trace c) c0 ->
            not_exchanged_since (trace c) (set_trace (trace c0 ++ [e]) c0))
    by (intros; apply not_exchanged_since_emit; assumption).
  assert (Hq : forall e, is_exchange e = false -> is_reauth e = false ->
                         is_exchange e = false) by auto.
  assert (H0 : not_exchanged_since (trace c) c).
  { exists []. rewrite app_nil_r. done. }
  unfold before_exchange. intros H.
  apply bind_run in H as [(e & _ & [=])|[(_ & [=])|(tok & c1 & H1 & H)]].
  apply bind_run in H as [(e & _ & [=])|[(_ & [=])|(sid & c2 & H2 & H)]].
  apply bind_run in H as [(e & _ & [=])|[(_ & [=])|([[cid ty] url] & c3 & H3 & H)]].
  apply bind_run in H as [(e & _ & [=])|[(_ & [=])|([] & c4 & H4 & H)]].
  apply bind_run in H as [(e & _ & [=])|[(_ & [=])|([] & c5 & H5 & H)]].
  injection H as <- <-.
  assert (N3 : not_exchanged_since (trace c) c3).
  { eapply (stable_step3 _ _ Hemit Hq); [|exact H3].
    eapply (stable_step2 _ _ Hemit Hq); [|exact H2].
    eapply (stable_step1 _ _ Hemit Hq); [|exact H1]. exact H0. }
  assert (A4 : approved_since (trace c) c4).
  { unfold _step4_poll_tan_approval, bind in H4.
    rewrite _invoke_tan_status_callback_run in H4.
    eapply poll_loop_returns_after_approval; [exact H4|].
    apply not_exchanged_since_emit; [reflexivity|exact N3]. }
  eapply (stable_step4b (approved_since (trace c)) (fun _ => True)); [| |exact A4|exact H5].
  - intros e c0 _. apply approved_since_emit.
  - intros; exact Logic.I.
Qed.

Lemma reauth_reasons_emit l e c :
  is_reauth e = false ->
  reauth_reasons (trace c) = l ->
  reauth_reasons (trace (set_trace (trace c ++ [e]) c)) = l.
Proof.
  intros He <-. cbn [trace set_trace]. rewrite reauth_reasons_app.
  destruct e; try discriminate; simpl; apply app_nil_r.
Qed.

(** X16. In every run of [authenticate()], however it ends, the token
    exchange of step 5 is sent only after a TAN approval has been
    announced: either the run sends no exchange at all, or an "approved"
    notification precedes the first one.  And [authenticate()] never emits
    a reauth notification, not even when it fails and clears the pair. *)
Theorem no_token_exchange_without_approval json_loads fuel w c o c' :
  authenticate json_loads fuel w c = Some (o, c') ->
  exists p,
    trace c' = trace c ++ p /\
    reauth_reasons p = [] /\
    (count is_exchange p = 0%nat \/
     exists p1 data p2,
       p = p1 ++ EvTanStatus "approved" data :: p2 /\ count is_exchange p1 = 0%nat).
Proof.
  intros H. apply authenticate_run in H as (c1 & Ht & _ & H).
  assert (Hsteps : exists o1, authenticate_steps json_loads fuel w c = Some (o1, c1)).
  { destruct H as [(_ & _ & H)|[(e & _ & H)|(_ & _ & H)]]; eauto. }
  clear H. destruct Hsteps as (o1 & H). rewrite Ht. clear Ht c' o.
  rewrite authenticate_steps_split in H.
  assert (Hquiet : stable (fun c0 => reauth_reasons (trace c0) = reauth_reasons (trace c))
                     (before_exchange json_loads fuel w)).
  { apply (stable_before_exchange _ (fun e => is_reauth e = false)).
    - intros e c0 He H0. apply reauth_reasons_emit; assumption.
    - auto. }
  assert (Hnone : stable (not_exchanged_since (trace c))
                    (before_exchange json_loads fuel w)).
  { apply (stable_before_exchange _ (fun e => is_exchange e = false)).
    - intros e c0 He H0. apply not_exchanged_since_emit; assumption.
    - auto. }
  assert (H0 : not_exchanged_since (trace c) c).
  { exists []. rewrite app_nil_r. done. }
  assert (Hreasons : forall p, reauth_reasons (trace c ++ p) = reauth_reasons (trace c) ->
                               reauth_reasons p = []).
  { intros p Hp. rewrite reauth_reasons_app in Hp.
    rewrite <- (app_nil_r (reauth_reasons (trace c))) in Hp at 2.
    apply app_inv_head in Hp. exact Hp. }
  apply bind_run in H as [(e & H & _)|[(H & _)|(tok & c2 & Hrun & H)]].
  - destruct (Hnone _ _ _ H0 H) as (p & Hp & Hcount).
    exists p. split; [exact Hp|]. split; [|left; exact Hcount].
    apply Hreasons. rewrite <- Hp. eapply Hquiet; [reflexivity|exact H].
  - destruct (Hnone _ _ _ H0 H) as (p & Hp & Hcount).
    exists p. split; [exact Hp|]. split; [|left; exact Hcount].
    apply Hreasons. rewrite <- Hp. eapply Hquiet; [reflexivity|exact H].
  - pose proof (before_exchange_returns_after_approval _ _ _ _ _ _ Hrun)
      as (p1 & data & p2 & Hp & Hcount).
    assert (Hq2 : reauth_reasons (trace c2) = reauth_reasons (trace c))
      by (eapply Hquiet; [reflexivity|exact Hrun]).
    assert (Ht1 : trace c1 = trace c2 ++ [exchange]).
    { apply bind_run in H as [(e & H & _)|[(H & _)|([] & c3 & H3 & H)]].
      - apply _step5_secondary_token_run in H as [H _]. exact H.
      - apply _step5_secondary_token_run in H as [H _]. exact H.
      - apply _step5_secondary_token_run in H3 as [H3 _].
        destruct (_start_refresh_task_frame c3) as (c4 & Hstart & Ht4 & _).
        rewrite Hstart in H. injection H as _ <-. rewrite Ht4. exact H3. }
    exists (p1 ++ EvTanStatus "approved" data :: p2 ++ [exchange]).
    split; [rewrite Ht1, Hp, <- !app_assoc; reflexivity|].
    split; [|right; exists p1, data, (p2 ++ [exchange]); done].
    apply Hreasons.
    replace (trace c ++ p1 ++ EvTanStatus "approved" data :: p2 ++ [exchange])
      with (trace c2 ++ [exchange])
      by (rewrite Hp, <- !app_assoc; reflexivity).
    rewrite reauth_reasons_app, Hq2. simpl. apply app_nil_r.
Qed.

Lemma no_token_exchange_without_approval_witness :
  exists p,
    trace approved_state = trace restored_client ++ p /\
    reauth_reasons p = [] /\
    (count is_exchange p = 0%nat \/
     exists p1 data p2,
       p = p1 ++ EvTanStatus "approved" data :: p2 /\ count is_exchange p1 = 0%nat).
Proof.
  apply (no_token_exchange_without_approval table_loads 5 approved_world
           restored_client (Returns tt) approved_state).
  vm_compute; reflexivity.
Defined.

(** X17. A scheduler pass whose refresh succeeds keeps the loop going
    with the pair replaced, emitting no notification; what it did is
    sleep until the moment to refresh, if that lay ahead, and send one
    request. *)
Theorem scheduler_pass_refreshes c r expiry access refresh expiry' :
  _token_expiry c = Some expiry ->
  schedulable c expiry ->
  cancelled_in_sleep r = false \/ refresh_due_at c expiry <= loop_now r ->
  truthy (_refresh_token c) = true ->
  complete_reply (refresh_reply r) (refresh_now r) access refresh expiry' ->
  exists c',
    loop_once r c = Some (Returns Continue, c') /\
    _access_token c' = access /\ _refresh_token c' = refresh /\
    _token_expiry c' = Some expiry' /\
    reauth_reasons (trace c') = reauth_reasons (trace c) /\
    trace c' = trace (after_nap c expiry (loop_now r)) ++ [EvPost "refresh_token"] /\
    tasks c' = tasks c.
Proof.
  intros He Hs Hawake Ht Hreply.
  rewrite (loop_once_awake c r expiry He Hs Hawake).
  destruct (after_nap_frame c expiry (loop_now r)) as (_ & Hr & _ & _ & Hn).
  assert (Htasks : tasks (after_nap c expiry (loop_now r)) = tasks c).
  { unfold after_nap. destruct (_ >? 0); reflexivity. }
  remember (after_nap c expiry (loop_now r)) as c0 eqn:E0. clear E0.
  rewrite <- Hr in Ht.
  unfold refresh_or_give_up, try_except_cancelled, bind.
  rewrite (refresh_token_complete c0 _ _ access refresh expiry' Ht Hreply).
  cbn [negb]. unfold ret.
  eexists. split; [reflexivity|].
  cbn [_access_token _refresh_token _token_expiry tasks trace set_trace set_storage
       set_tokens].
  repeat split; try assumption.
  rewrite reauth_reasons_app. simpl. rewrite app_nil_r. exact Hn.
Qed.

Lemma scheduler_pass_refreshes_witness :
  exists c',
    loop_once (pass (100 * second) false (token_reply 600)) expiring_client
    = Some (Returns Continue, c') /\
    _access_token c' = JStr "new-access" /\ _refresh_token c' = JStr "new-refresh" /\
    _token_expiry c' = Some (700 * second) /\
    reauth_reasons (trace c') = reauth_reasons (trace expiring_client) /\
    trace c' = trace (after_nap expiring_client (600 * second) (100 * second))
               ++ [EvPost "refresh_token"] /\
    tasks c' = tasks expiring_client.
Proof.
  apply (scheduler_pass_refreshes expiring_client
           (pass (100 * second) false (token_reply 600)) (600 * second)
           (JStr "new-access") (JStr "new-refresh") (700 * second)).
  - reflexivity.
  - split; reflexivity.
  - left. reflexivity.
  - reflexivity.
  - eexists _, _, _, _. repeat split; try reflexivity. discriminate.
Defined.

(** ** Construction and shutdown *)

Lemma cancel_refresh_task_length c :
  length (tasks (cancel_refresh_task c)) = length (tasks c).
Proof.
  unfold cancel_refresh_task, cancel.
  destruct (_refresh_task c) as [id|]; [|done].
  destruct (tasks c !! id) as [[]|]; simpl; rewrite ?length_insert; done.
Qed.

(** X18. Restoring never raises on a token file it cannot read: a
    [TokenStorageError] from loading, like an empty store, leaves the
    client as it was, with or without an event loop.  A stored triple is
    taken over as it is, whatever its expiry, also one that has passed;
    then, inside a running event loop the scheduler task is started,
    and without one (a client built in synchronous code) the
    [RuntimeError] of the task creation leaves the constructor, the pair
    already assigned and no task created. *)
Theorem restore_outcomes running c :
  (forall e, load_tokens (_token_storage c) = Raises e ->
     class_of e = TokenStorageError ->
     _restore_tokens_from_storage running c = Some (Returns tt, c)) /\
  (load_tokens (_token_storage c) = Returns None ->
     _restore_tokens_from_storage running c = Some (Returns tt, c)) /\
  (forall access refresh expiry,
     load_tokens (_token_storage c) = Returns (Some (access, refresh, expiry)) ->
     exists c',
       _restore_tokens_from_storage running c
       = Some ((if running then Returns tt
                else Raises (error RuntimeError "no running event loop")), c') /\
       _access_token c' = access /\ _refresh_token c' = refresh /\
       _token_expiry c' = Some expiry /\
       _token_storage c' = _token_storage c /\ trace c' = trace c /\
       (if running
        then _refresh_task c' = Some (length (tasks c)) /\
             tasks c' !! length (tasks c) = Some Pending
        else _refresh_task c' = _refresh_task c /\
             length (tasks c') = length (tasks c))).
Proof.
  unfold _restore_tokens_from_storage, try_except, bind, gets, lift.
  split; [|split].
  - intros e -> Hc. unfold raise, is_a. rewrite Hc. reflexivity.
  - intros ->. reflexivity.
  - intros access refresh expiry ->. unfold ret, modify.
    set (c0 := set_tokens access refresh (Some expiry) c).
    destruct running.
    + destruct (_start_refresh_task_run c0) as (c' & Hstart & (Ha & Hr & Hx) & Hid & Hp).
      destruct (_start_refresh_task_frame c0) as (c'' & Hstart' & Ht & Hs).
      rewrite Hstart in Hstart'. injection Hstart' as <-.
      rewrite Hstart. exists c'. split; [reflexivity|].
      repeat split; assumption.
    + unfold _start_refresh_task, bind, modify, raise.
      exists (cancel_refresh_task c0). split; [reflexivity|].
      destruct (cancel_refresh_task_tokens c0) as (Ha & Hr & Hx).
      destruct (cancel_refresh_task_frame c0) as (Hs & Ht & Hk & _).
      pose proof (cancel_refresh_task_length c0) as Hl.
      repeat split; assumption.
Qed.

Lemma restore_outcomes_witness :
  (exists c',
     _restore_tokens_from_storage true (new_client None None 120 disk)
     = Some (Returns tt, c') /\
     _access_token c' = JStr "old-access" /\ _refresh_token c' = JStr "old-refresh" /\
     _token_expiry c' = Some 1000 /\
     _token_storage c' = disk /\ trace c' = [] /\
     _refresh_task c' = Some 0%nat /\ tasks c' !! 0%nat = Some Pending) /\
  (exists c',
     _restore_tokens_from_storage false (new_client None None 120 disk)
     = Some (Raises (error RuntimeError "no running event loop"), c') /\
     _access_token c' = JStr "old-access" /\ _refresh_token c' = JStr "old-refresh" /\
     _token_expiry c' = Some 1000 /\
     _token_storage c' = disk /\ trace c' = [] /\
     _refresh_task c' = None /\ length (tasks c') = 0%nat).
Proof.
  split.
  - exact (proj2 (proj2 (restore_outcomes true (new_client None None 120 disk)))
             (JStr "old-access") (JStr "old-refresh") 1000 eq_refl).
  - exact (proj2 (proj2 (restore_outcomes false (new_client None None 120 disk)))
             (JStr "old-access") (JStr "old-refresh") 1000 eq_refl).
Defined.

Lemma reachable_scheduler_invariant json_loads c :
  reachable json_loads c -> scheduler_invariant c.
Proof.
  induction 1 as [running reauth tan_status threshold storage o c Hrun
                 |op c o c' Hreach IH Hen Hrun].
  - eapply keeps_restore; [|exact Hrun]. apply scheduler_invariant_new.
  - eapply keeps_run; [exact IH|exact Hrun].
Qed.

(** X19. [close()] on a client in any reachable state leaves no
    scheduler task alive and nothing else changed: the token pair stays
    in memory, so the client still counts as authenticated if it did, and
    the token file stays. *)
Theorem close_stops_the_scheduler_only json_loads c :
  reachable json_loads c ->
  exists c',
    close c = Some (Returns tt, c') /\
    (forall id, tasks c' !! id <> Some Pending) /\
    same_tokens c c' /\
    is_authenticated c' = is_authenticated c /\
    _token_storage c' = _token_storage c /\
    trace c' = trace c.
Proof.
  intros Hreach. apply reachable_scheduler_invariant in Hreach as [H1 _].
  unfold close, modify. eexists. split; [reflexivity|].
  destruct (cancel_refresh_task_tokens c) as (Ha & Hr & Hx).
  destruct (cancel_refresh_task_frame c) as (Hs & Ht & _).
  split; [apply cancel_refresh_task_leaves_none_alive; exact H1|].
  split; [unfold same_tokens; done|].
  split; [unfold is_authenticated; rewrite Ha, Hx; reflexivity|].
  split; assumption.
Qed.

Lemma close_stops_the_scheduler_only_witness :
  exists c',
    close approved_state = Some (Returns tt, c') /\
    (forall id, tasks c' !! id <> Some Pending) /\
    same_tokens approved_state c' /\
    is_authenticated c' = is_authenticated approved_state /\
    _token_storage c' = _token_storage approved_state /\
    trace c' = trace approved_state.
Proof.
  apply (close_stops_the_scheduler_only table_loads approved_state).
  apply (reachable_step table_loads (OpAuthenticate 5 approved_world)
           restored_client (Returns tt) approved_state).
  - apply (reachable_new table_loads true (Some raising_reauth) (Some raising_tan_status)
             120 disk (Returns tt) restored_client).
    vm_compute; reflexivity.
  - exact Logic.I.
  - vm_compute; reflexivity.
Defined.

Lemma cancel_refresh_task_bravado c :
  _bravado_client (cancel_refresh_task c) = _bravado_client c.
Proof. unfold cancel_refresh_task. repeat case_match; reflexivity. Qed.

(** X20. The gate of [api] looks at the presence of the pair, never at
    the clock: a client that restored a stored triple (inside a running
    event loop), whatever its expiry (also one long past), counts as
    authenticated, and reading [api] hands out the Bravado client, the
    one built earlier or, if there was none, the one built now, with the
    pair untouched. *)
Theorem stored_pair_opens_the_api c access refresh expiry b :
  load_tokens (_token_storage c) = Returns (Some (access, refresh, expiry)) ->
  access <> JNull ->
  exists c1,
    _restore_tokens_from_storage true c = Some (Returns tt, c1) /\
    is_authenticated c1 = true /\
    _token_expiry c1 = Some expiry /\
    exists r c2,
      api (Returns b) c1 = Some (Returns (Some r), c2) /\
      (_bravado_client c = Some r \/ _bravado_client c = None /\ r = b) /\
      same_tokens c1 c2.
Proof.
  intros Hload Haccess.
  unfold _restore_tokens_from_storage, try_except, bind, gets, lift.
  rewrite Hload. unfold ret, modify, _start_refresh_task, bind, modify.
  cbn beta iota.
  set (c0 := set_tokens access refresh (Some expiry) c).
  destruct (cancel_refresh_task_tokens c0) as (Ha & Hr & Hx).
  pose proof (cancel_refresh_task_bravado c0) as Hb.
  set (c1 := create_task (cancel_refresh_task c0)).
  assert (Hauth : is_authenticated c1 = true).
  { unfold is_authenticated, c1. cbn [create_task set_tasks _access_token _token_expiry].
    rewrite Ha, Hx. subst c0. cbn [set_tokens _access_token _token_expiry].
    destruct access; try reflexivity. contradiction. }
  assert (Hb1 : _bravado_client c1 = _bravado_client c).
  { unfold c1. cbn [create_task set_tasks _bravado_client]. rewrite Hb. reflexivity. }
  exists c1. split; [reflexivity|]. split; [exact Hauth|].
  split; [unfold c1; cbn [create_task set_tasks _token_expiry]; rewrite Hx; reflexivity|].
  unfold api, bind, gets. rewrite Hauth. cbn [negb].
  destruct (_bravado_client c1) as [r|] eqn:E.
  - exists r, c1. unfold ret. cbn beta iota. rewrite E.
    split; [reflexivity|]. split; [left; congruence|]. unfold same_tokens; done.
  - exists b, (set_bravado (Some b) c1).
    unfold _initialize_bravado_client, bind, gets, lift, modify. rewrite E.
    cbn beta iota.
    split; [reflexivity|]. split; [right; split; congruence|].
    unfold same_tokens; done.
Qed.

Lemma stored_pair_opens_the_api_witness :
  exists c1,
    _restore_tokens_from_storage true (new_client None None 120 disk)
    = Some (Returns tt, c1) /\
    is_authenticated c1 = true /\
    _token_expiry c1 = Some 1000 /\
    exists r c2,
      api (Returns BravadoClient) c1 = Some (Returns (Some r), c2) /\
      (_bravado_client (new_client None None 120 disk) = Some r \/
       _bravado_client (new_client None None 120 disk) = None /\ r = BravadoClient) /\
      same_tokens c1 c2.
Proof.
  apply (stored_pair_opens_the_api (new_client None None 120 disk)
           (JStr "old-access") (JStr "old-refresh") 1000 BravadoClient).
  - reflexivity.
  - discriminate.
Defined.

(** ** Cancellation in the refresh request *)

(** X21. A task cancelled while [refresh_token()] waits for the reply
    to its request: a direct call ends cancelled, having sent the request
    and changed nothing else; the scheduler loop catches the same
    cancellation and ends, with the token pair, the file and the tasks as
    they were and no notification emitted. *)
Theorem refresh_cancelled_in_its_request c r expiry now :
  truthy (_refresh_token c) = true ->
  refresh_token HttpxCancelled now c
  = Some (Cancelled, set_trace (trace c ++ [EvPost "refresh_token"]) c) /\
  (_token_expiry c = Some expiry ->
   schedulable c expiry ->
   cancelled_in_sleep r = false \/ refresh_due_at c expiry <= loop_now r ->
   refresh_reply r = HttpxCancelled ->
   exists c',
     loop_once r c = Some (Returns Leave, c') /\
     c' = set_trace (trace c') c /\
     trace c' = trace (after_nap c expiry (loop_now r)) ++ [EvPost "refresh_token"] /\
     reauth_reasons (trace c') = reauth_reasons (trace c)).
Proof.
  intros Ht.
  assert (Hdirect : forall c0 now0, truthy (_refresh_token c0) = true ->
            refresh_token HttpxCancelled now0 c0
            = Some (Cancelled, set_trace (trace c0 ++ [EvPost "refresh_token"]) c0)).
  { intros c0 now0 H0.
    unfold refresh_token, bind, gets, try_except, await_httpx, bind, emit, modify,
      cancelled.
    rewrite H0. reflexivity. }
  split; [apply Hdirect, Ht|].
  intros He Hs Hawake Hreply.
  rewrite (loop_once_awake c r expiry He Hs Hawake).
  destruct (after_nap_frame c expiry (loop_now r)) as (_ & Hr & _ & _ & Hn).
  assert (Hnap : after_nap c expiry (loop_now r)
                 = set_trace (trace (after_nap c expiry (loop_now r))) c).
  { unfold after_nap. destruct (_ >? 0); [reflexivity|destruct c; reflexivity]. }
  remember (after_nap c expiry (loop_now r)) as c0 eqn:E0. clear E0.
  rewrite <- Hr in Ht.
  unfold refresh_or_give_up, try_except_cancelled, bind.
  rewrite Hreply, (Hdirect c0 _ Ht). unfold ret.
  eexists. split; [reflexivity|]. cbn [trace set_trace].
  split.
  { rewrite <- (set_trace_set_trace (trace c0 ++ [EvPost "refresh_token"])
                  (trace c0) c), <- Hnap. reflexivity. }
  split; [reflexivity|].
  rewrite reauth_reasons_app. simpl. rewrite app_nil_r. exact Hn.
Qed.

Lemma refresh_cancelled_in_its_request_witness :
  refresh_token HttpxCancelled 77 expiring_client
  = Some (Cancelled,
          set_trace (trace expiring_client ++ [EvPost "refresh_token"]) expiring_client) /\
  exists c',
    loop_once (pass (500 * second) false HttpxCancelled) expiring_client
    = Some (Returns Leave, c') /\
    c' = set_trace (trace c') expiring_client /\
    trace c' = trace (after_nap expiring_client (600 * second) (500 * second))
               ++ [EvPost "refresh_token"] /\
    reauth_reasons (trace c') = reauth_reasons (trace expiring_client).
Proof.
  destruct (refresh_cancelled_in_its_request expiring_client
              (pass (500 * second) false HttpxCancelled) (600 * second) 77 eq_refl)
    as (Hdirect & Hloop).
  split; [exact Hdirect|].
  apply Hloop.
  - reflexivity.
  - split; reflexivity.
  - left. reflexivity.
  - reflexivity.
Defined.
